(** * Reservas de salas: a shallow embedding of [reservas.py]

    The program is a menu-driven console application over an SQLite file
    with three tables ([clientes], [salas], [reservaciones]).  The
    embedding follows the source in layers:

    - [Texto]: the string built-ins the program calls on every line it
      reads ([str.strip], [str.lower], [int], the [06d] format);
    - [Fecha]: calendar dates as [datetime.date] holds them (year, month,
      day), with [weekday], [+ timedelta(days=n)], [strftime] and
      [strptime] for the program's one format, [%m-%d-%Y];
    - [Base]: the database as explicit state: the rows of each table in
      rowid order, the AUTOINCREMENT counters, and the statements the
      program executes, with the constraints of the schema;
    - [Consola]: the lines typed, the text printed, and a reader monad over
      the lines still to be read;
    - [Exportar]: the dialog of [exportar_reporte] and of the offer that
      precedes it, with the files written as events;
    - [Reservas]: the functions of the program, as functions of the
      database and of the lines typed.  Every [while True] loop consumes
      at least one line per iteration, so each loop is a structural
      recursion on the remaining input;
    - [Arranque]: the start of [main], over a file that may lack tables.

    [Estado] states the invariants of the file, [Ejemplo] holds one
    session and [Propiedades] the notions the statements need; the lemmas
    follow. *)

From Stdlib Require Import ZArith List Bool Ascii String Lia.
From Stdlib Require Import Sorting.Sorted Sorting.Permutation.
Import ListNotations.

Local Open Scope string_scope.
Local Open Scope Z_scope.

(** ** Text built-ins *)

Module Texto.

(** [str.isspace] on the ASCII range: TAB, LF, VT, FF, CR, the four
    separators FS..US, and the blank.  Texts are ASCII here: [str.strip]
    also removes the blanks beyond ASCII (U+00A0 and others), and [int]
    and [strptime] also read the digits beyond ASCII. *)
Definition es_espacio (c : ascii) : bool :=
  let n := nat_of_ascii c in
  ((9 <=? n) && (n <=? 13) || (28 <=? n) && (n <=? 32))%nat.

Fixpoint lstrip (s : string) : string :=
  match s with
  | String c r => if es_espacio c then lstrip r else s
  | EmptyString => EmptyString
  end.

(** [rstrip]: a character is dropped when it is white and everything to
    its right has been dropped. *)
Fixpoint rstrip (s : string) : string :=
  match s with
  | EmptyString => EmptyString
  | String c r =>
      match rstrip r with
      | EmptyString => if es_espacio c then EmptyString else String c EmptyString
      | r' => String c r'
      end
  end.

Definition strip (s : string) : string := rstrip (lstrip s).

Definition minuscula (c : ascii) : ascii :=
  let n := nat_of_ascii c in
  if ((65 <=? n) && (n <=? 90))%nat then ascii_of_nat (n + 32) else c.

Fixpoint lower (s : string) : string :=
  match s with
  | EmptyString => EmptyString
  | String c r => String (minuscula c) (lower r)
  end.

Definition es_digito (c : ascii) : bool :=
  let n := nat_of_ascii c in ((48 <=? n) && (n <=? 57))%nat.

Definition valor_digito (c : ascii) : Z := Z.of_nat (nat_of_ascii c) - 48.

(** The digits of an integer literal as [int] reads them: one or more
    digits, single underscores allowed between two digits.  [previo] tells
    what the preceding character was. *)
Inductive previo := Inicio | Digito | Guion.

Fixpoint leer_digitos (p : previo) (acc : Z) (s : string) : option Z :=
  match s with
  | EmptyString => match p with Digito => Some acc | _ => None end
  | String c r =>
      if es_digito c then leer_digitos Digito (10 * acc + valor_digito c) r
      else if Ascii.eqb c "_" then
        match p with Digito => leer_digitos Guion acc r | _ => None end
      else None
  end.

(** [int(s)] for a text [s]: white space around it is ignored, then an
    optional sign, then the digits.  [None] stands for [ValueError].  Texts
    are ASCII here; the bound recent interpreters put on the number of
    digits (4300) is not modelled. *)
Definition int (s : string) : option Z :=
  match strip s with
  | String "-" r => option_map Z.opp (leer_digitos Inicio 0 r)
  | String "+" r => leer_digitos Inicio 0 r
  | t => leer_digitos Inicio 0 t
  end.

Definition car_digito (n : Z) : ascii := ascii_of_nat (48 + Z.to_nat n).

(** The decimal digits of [n >= 0], most significant first; [pasos]
    bounds the number of digits. *)
Fixpoint digitos (pasos : nat) (n : Z) : string :=
  match pasos with
  | O => EmptyString
  | S p =>
      (if n <? 10 then EmptyString else digitos p (n / 10))
      ++ String (car_digito (n mod 10)) EmptyString
  end.

(** [str(n)] for an integer: no more digits than binary digits. *)
Definition str (n : Z) : string :=
  if n <? 0 then String "-" (digitos (S (Z.to_nat (Z.log2 (- n)))) (- n))
  else digitos (S (Z.to_nat (Z.log2 n))) n.

Fixpoint ceros (k : nat) : string :=
  match k with
  | O => EmptyString
  | S k' => String "0" (ceros k')
  end.

Definition zfill (w : nat) (s : string) : string :=
  ceros (w - String.length s) ++ s.

(** The format specification [06d]: at least six characters, the sign (if
    any) first and zeros between the sign and the digits. *)
Definition formato_06d (n : Z) : string :=
  if n <? 0 then String "-" (zfill 5 (str (- n))) else zfill 6 (str n).

(** [", ".join(l)] and the like. *)
Fixpoint join (sep : string) (l : list string) : string :=
  match l with
  | [] => EmptyString
  | [x] => x
  | x :: r => x ++ sep ++ join sep r
  end.

End Texto.

(** ** Calendar dates *)

Module Fecha.

(** A [datetime.date]: the proleptic Gregorian year, month and day. *)
Record date := mkdate { year : Z; month : Z; day : Z }.

Definition MINYEAR : Z := 1.
Definition MAXYEAR : Z := 9999.

Definition is_leap (y : Z) : bool :=
  (y mod 4 =? 0) && (negb (y mod 100 =? 0) || (y mod 400 =? 0)).

Definition DAYS_IN_MONTH (m : Z) : Z :=
  match m with
  | 1 => 31 | 2 => 28 | 3 => 31 | 4 => 30 | 5 => 31 | 6 => 30
  | 7 => 31 | 8 => 31 | 9 => 30 | 10 => 31 | 11 => 30 | 12 => 31
  | _ => 0
  end.

Definition DAYS_BEFORE_MONTH (m : Z) : Z :=
  match m with
  | 1 => 0 | 2 => 31 | 3 => 59 | 4 => 90 | 5 => 120 | 6 => 151
  | 7 => 181 | 8 => 212 | 9 => 243 | 10 => 273 | 11 => 304 | 12 => 334
  | _ => 0
  end.

Definition days_in_month (y m : Z) : Z :=
  if (m =? 2) && is_leap y then 29 else DAYS_IN_MONTH m.

Definition days_before_year (y : Z) : Z :=
  let y' := y - 1 in y' * 365 + y' / 4 - y' / 100 + y' / 400.

Definition days_before_month (y m : Z) : Z :=
  DAYS_BEFORE_MONTH m + (if (2 <? m) && is_leap y then 1 else 0).

(** The values the constructor [date(y, m, d)] accepts. *)
Definition valida (d : date) : bool :=
  (MINYEAR <=? year d) && (year d <=? MAXYEAR)
  && (1 <=? month d) && (month d <=? 12)
  && (1 <=? day d) && (day d <=? days_in_month (year d) (month d)).

Definition toordinal (d : date) : Z :=
  days_before_year (year d) + days_before_month (year d) (month d) + day d.

(** [d.weekday()]: Monday is 0 and Sunday is 6. *)
Definition weekday (d : date) : Z := (toordinal d + 6) mod 7.

(** Dates compare as the triples (year, month, day). *)
Definition ltb (a b : date) : bool :=
  (year a <? year b)
  || (year a =? year b)
     && ((month a <? month b) || (month a =? month b) && (day a <? day b)).

Definition eqb (a b : date) : bool :=
  (year a =? year b) && (month a =? month b) && (day a =? day b).

Definition leb (a b : date) : bool := negb (ltb b a).

(** The day after [d], as the calendar has it (no bound on the year). *)
Definition siguiente_dia (d : date) : date :=
  if day d <? days_in_month (year d) (month d)
  then mkdate (year d) (month d) (day d + 1)
  else if month d <? 12
       then mkdate (year d) (month d + 1) 1
       else mkdate (year d + 1) 1 1.

(** [d + timedelta(days=n)] for [n >= 0]: the date [n] days later, or
    [None] (the [OverflowError] of the library) past 9999-12-31. *)
Fixpoint sumar_dias (n : nat) (d : date) : option date :=
  match n with
  | O => Some d
  | S k =>
      let s := siguiente_dia d in
      if year s <=? MAXYEAR then sumar_dias k s else None
  end.

Definition dos_digitos (n : Z) : string :=
  String (Texto.car_digito (n / 10 mod 10)) (String (Texto.car_digito (n mod 10)) EmptyString).

Definition cuatro_digitos (n : Z) : string :=
  String (Texto.car_digito (n / 1000 mod 10))
    (String (Texto.car_digito (n / 100 mod 10)) (dos_digitos n)).

(** [d.strftime("%m-%d-%Y")]: month and day on two digits, the year on
    four (the C library of some platforms prints a year below 1000 without
    the leading zeros; the dates the program stores are later than the day
    it runs). *)
Definition strftime (d : date) : string :=
  dos_digitos (month d) ++ "-" ++ dos_digitos (day d) ++ "-"
  ++ cuatro_digitos (year d).

Definition digito (c : ascii) : option Z :=
  if Texto.es_digito c then Some (Texto.valor_digito c) else None.

Definition no_cero (c : ascii) : option Z :=
  match digito c with
  | Some v => if 1 <=? v then Some v else None
  | None => None
  end.

(** The directive [%m]: [1[0-2]|0[1-9]|[1-9]], here followed by the
    hyphen of the format. *)
Definition leer_mes (s : string) : option (Z * string) :=
  match s with
  | String c1 (String "-" r) =>
      match no_cero c1 with Some v => Some (v, r) | None => None end
  | String c1 (String c2 (String "-" r)) =>
      match digito c1, digito c2 with
      | Some a, Some b =>
          let v := 10 * a + b in
          if (a <=? 1) && (1 <=? v) && (v <=? 12) then Some (v, r) else None
      | _, _ => None
      end
  | _ => None
  end.

(** The directive [%d]: [3[0-1]|[1-2]\d|0[1-9]|[1-9]| [1-9]], followed by
    the hyphen of the format. *)
Definition leer_dia (s : string) : option (Z * string) :=
  match s with
  | String c1 (String "-" r) =>
      match no_cero c1 with Some v => Some (v, r) | None => None end
  | String c1 (String c2 (String "-" r)) =>
      if Ascii.eqb c1 " " then
        match no_cero c2 with Some v => Some (v, r) | None => None end
      else
        match digito c1, digito c2 with
        | Some a, Some b =>
            let v := 10 * a + b in
            if (1 <=? v) && (v <=? 31) then Some (v, r) else None
        | _, _ => None
        end
  | _ => None
  end.

(** The directive [%Y]: exactly four digits; nothing may follow. *)
Definition leer_anio (s : string) : option Z :=
  match s with
  | String c1 (String c2 (String c3 (String c4 EmptyString))) =>
      match digito c1, digito c2, digito c3, digito c4 with
      | Some a, Some b, Some c, Some d => Some (1000 * a + 100 * b + 10 * c + d)
      | _, _, _, _ => None
      end
  | _ => None
  end.

(** [datetime.strptime(texto, "%m-%d-%Y").date()], [None] for the
    [ValueError] of a text that does not match or names no date. *)
Definition strptime (texto : string) : option date :=
  match leer_mes texto with
  | Some (m, r1) =>
      match leer_dia r1 with
      | Some (d, r2) =>
          match leer_anio r2 with
          | Some y =>
              let f := mkdate y m d in
              if valida f then Some f else None
          | None => None
          end
      | None => None
      end
  | None => None
  end.

End Fecha.

(** ** The database *)

Module Base.

(** One record per table of [crear_tablas]. *)
Record cliente := mkcliente
  { c_id : Z; c_nombre : string; c_apellidos : string }.

Record sala := mksala
  { s_id : Z; s_nombre : string; s_cupo : Z }.

Record reservacion := mkreservacion
  { r_id : Z;
    folio : string;
    cliente_id : Z;
    sala_id : Z;
    fecha : string;
    turno : string;
    nombre_evento : string }.

(** The file [reservas.db]: the rows of each table in the order they were
    inserted, and for each table the counter SQLite keeps for an
    AUTOINCREMENT key (the largest key ever handed out). *)
Record base := mkbase
  { clientes : list cliente;
    salas : list sala;
    reservaciones : list reservacion;
    seq_clientes : Z;
    seq_salas : Z;
    seq_reservaciones : Z }.

(** What [crear_tablas] leaves when there was no file. *)
Definition vacia : base := mkbase [] [] [] 0 0 0.

(** The key of a new row under AUTOINCREMENT: one more than the largest
    of the counter and the keys present. *)
Definition nueva_clave (seq : Z) (claves : list Z) : Z :=
  fold_right Z.max seq claves + 1.

(** [ORDER BY]: a sort, by insertion, under the comparison [le].  Rows that
    compare equal keep the order of the table; SQLite promises no order for
    them. *)
Section Orden.
Context {A : Type} (le : A -> A -> bool).

Fixpoint colocar (x : A) (l : list A) : list A :=
  match l with
  | [] => [x]
  | y :: r => if le x y then x :: y :: r else y :: colocar x r
  end.

Fixpoint ordenar (l : list A) : list A :=
  match l with
  | [] => []
  | x :: r => colocar x (ordenar r)
  end.
End Orden.

(** Comparison of a two-column key whose first column is text (BINARY
    collation: character codes, left to right). *)
Definition le_texto_luego {B : Type} (le2 : B -> B -> bool)
    (a b : string * B) : bool :=
  match String.compare (fst a) (fst b) with
  | Lt => true
  | Eq => le2 (snd a) (snd b)
  | Gt => false
  end.

(** [INSERT INTO clientes(nombre, apellidos) VALUES(?,?)]; the second
    component is [cur.lastrowid]. *)
Definition insertar_cliente (b : base) (nombre apellidos : string) : base * Z :=
  let k := nueva_clave (seq_clientes b) (map c_id (clientes b)) in
  (mkbase (clientes b ++ [mkcliente k nombre apellidos]) (salas b)
     (reservaciones b) k (seq_salas b) (seq_reservaciones b), k).

(** The largest value of an INTEGER column: 2^63 - 1. *)
Definition MAX_INTEGER : Z := 9223372036854775807.

(** [INSERT INTO salas(nombre, cupo) VALUES(?,?)]; [None] is the exception
    the statement raises: the [IntegrityError] of [CHECK(cupo>0)], or the
    [OverflowError] of a parameter that does not fit in 64 bits.  Nothing
    is written then. *)
Definition insertar_sala (b : base) (nombre : string) (cupo : Z)
    : option (base * Z) :=
  if (0 <? cupo) && (cupo <=? MAX_INTEGER) then
    let k := nueva_clave (seq_salas b) (map s_id (salas b)) in
    Some (mkbase (clientes b) (salas b ++ [mksala k nombre cupo])
            (reservaciones b) (seq_clientes b) k (seq_reservaciones b), k)
  else None.

Definition misma_terna (sid : Z) (f t : string) (r : reservacion) : bool :=
  (sala_id r =? sid) && String.eqb (fecha r) f && String.eqb (turno r) t.

(** [INSERT INTO reservaciones(folio, cliente_id, sala_id, fecha, turno,
    nombre_evento) VALUES(?,?,?,?,?,?)].  [None] is the [IntegrityError]
    of [folio TEXT UNIQUE] or of [UNIQUE(sala_id, fecha, turno)]; the
    statement then leaves the table and the counter as they were.  The
    two FOREIGN KEY clauses are not enforced: the connection never turns
    the [foreign_keys] pragma on. *)
Definition insertar_reservacion (b : base) (fol : string) (cid sid : Z)
    (f t ev : string) : option (base * Z) :=
  if existsb (fun r => String.eqb (folio r) fol) (reservaciones b)
     || existsb (misma_terna sid f t) (reservaciones b)
  then None
  else
    let k := nueva_clave (seq_reservaciones b) (map r_id (reservaciones b)) in
    Some (mkbase (clientes b) (salas b)
            (reservaciones b ++ [mkreservacion k fol cid sid f t ev])
            (seq_clientes b) (seq_salas b) k, k).

Definition con_folio (fol : string) (r : reservacion) : reservacion :=
  mkreservacion (r_id r) fol (cliente_id r) (sala_id r) (fecha r) (turno r)
    (nombre_evento r).

Definition con_nombre_evento (ev : string) (r : reservacion) : reservacion :=
  mkreservacion (r_id r) (folio r) (cliente_id r) (sala_id r) (fecha r)
    (turno r) ev.

Definition donde_id {A : Type} (clave : A -> Z) (k : Z) (cambio : A -> A)
    (x : A) : A :=
  if clave x =? k then cambio x else x.

(** [UPDATE reservaciones SET folio=? WHERE id=?]; [None] is the
    [IntegrityError] of [folio TEXT UNIQUE]: a row is to be changed and
    some other row already carries that folio. *)
Definition actualizar_folio (b : base) (fol : string) (k : Z) : option base :=
  if existsb (fun r => r_id r =? k) (reservaciones b)
     && existsb (fun r => negb (r_id r =? k) && String.eqb (folio r) fol)
          (reservaciones b)
  then None
  else Some (mkbase (clientes b) (salas b)
               (map (donde_id r_id k (con_folio fol)) (reservaciones b))
               (seq_clientes b) (seq_salas b) (seq_reservaciones b)).

(** [UPDATE reservaciones SET nombre_evento=? WHERE id=?]. *)
Definition actualizar_nombre_evento (b : base) (ev : string) (k : Z) : base :=
  mkbase (clientes b) (salas b)
    (map (donde_id r_id k (con_nombre_evento ev)) (reservaciones b))
    (seq_clientes b) (seq_salas b) (seq_reservaciones b).

(** [SELECT id, nombre, apellidos FROM clientes ORDER BY apellidos, nombre]. *)
Definition seleccionar_clientes (b : base) : list cliente :=
  ordenar
    (fun x y => le_texto_luego String.leb
                  (c_apellidos x, c_nombre x) (c_apellidos y, c_nombre y))
    (clientes b).

(** [SELECT id, nombre, cupo FROM salas ORDER BY id]. *)
Definition seleccionar_salas (b : base) : list sala :=
  ordenar (fun x y => s_id x <=? s_id y) (salas b).

(** [SELECT COUNT(1) FROM reservaciones WHERE sala_id=? AND fecha=? AND
    turno=?]. *)
Definition contar_reservaciones (b : base) (sid : Z) (f t : string) : Z :=
  Z.of_nat (List.length (filter (misma_terna sid f t) (reservaciones b))).

(** [SELECT id, folio, nombre_evento, fecha FROM reservaciones WHERE fecha
    BETWEEN ? AND ? ORDER BY fecha]: the column [fecha] is TEXT, so both
    the bounds and the order are those of the texts. *)
Definition seleccionar_rango (b : base) (desde hasta : string)
    : list reservacion :=
  ordenar (fun x y => String.leb (fecha x) (fecha y))
    (filter (fun r => String.leb desde (fecha r) && String.leb (fecha r) hasta)
       (reservaciones b)).

(** A row of the three-table join, before the columns are projected. *)
Definition juntar (b : base) (r : reservacion)
    : list (reservacion * sala * cliente) :=
  flat_map
    (fun s => map (fun c => (r, s, c))
                (filter (fun c => cliente_id r =? c_id c) (clientes b)))
    (filter (fun s => sala_id r =? s_id s) (salas b)).

Definition le_turno_sala (x y : reservacion * sala * cliente) : bool :=
  let '(r1, s1, _) := x in
  let '(r2, s2, _) := y in
  le_texto_luego Z.leb (turno r1, s_id s1) (turno r2, s_id s2).

(** The row the report shows: folio, evento, fecha, turno, sala, cupo,
    cliente. *)
Record renglon := mkrenglon
  { rg_folio : string;
    rg_evento : string;
    rg_fecha : string;
    rg_turno : string;
    rg_sala : string;
    rg_cupo : Z;
    rg_cliente : string }.

Definition proyectar (x : reservacion * sala * cliente) : renglon :=
  let '(r, s, c) := x in
  mkrenglon (folio r) (nombre_evento r) (fecha r) (turno r) (s_nombre s)
    (s_cupo s) (c_apellidos c ++ ", " ++ c_nombre c).

(** The rows of
    [SELECT ... FROM reservaciones r JOIN salas s ON r.sala_id = s.id
     JOIN clientes c ON r.cliente_id = c.id WHERE r.fecha = ?
     ORDER BY r.turno, s.id], each with the rows it was joined from. *)
Definition seleccionar_por_fecha (b : base) (f : string)
    : list (reservacion * sala * cliente) :=
  ordenar le_turno_sala
    (flat_map (juntar b)
       (filter (fun r => String.eqb (fecha r) f) (reservaciones b))).

End Base.

(** ** The console *)

Module Consola.

(** A line typed at the console, with the calendar date of the day it is
    typed: what [date.today()] returns once [input] has returned it.
    Time passes only while the program waits for a line. *)
Record entrada := mkentrada { hoy : Fecha.date; linea : string }.

(** What the program prints.  Prompts are not recorded, except the prompt
    for the date, which shows the minimum date. *)
Inductive mensaje : Type :=
| NombreVacio                 (* El nombre no puede quedar vacío. *)
| ApellidosVacios             (* Los apellidos no pueden quedar vacíos. *)
| ClienteRegistrado (clave : Z)
| CupoNoPositivo              (* El cupo debe ser mayor a cero. *)
| EnteroInvalido              (* Ingrese un número entero válido. *)
| SalaRegistrada (clave : Z)
| SinClientesPrevios          (* No hay clientes registrados. Registra uno primero. *)
| SinClientes                 (* No hay clientes registrados. *)
| TablaClientes (t : list (Z * string * string))
| OperacionCancelada
| ClaveNoExiste               (* Clave no existe. Intenta de nuevo. *)
| EntradaInvalida
| PideFecha (minimo : string) (* Ingrese la fecha a reservar ... (mínimo ...) *)
| FormatoFechaInvalido
| FechaMuyProxima             (* La fecha debe ser por lo menos dos días después ... *)
| ProponeLunes (propuesta : string)
| SinSalasDisponibles         (* No hay salas disponibles para esa fecha. ... *)
| TablaDisponibles (t : list (Z * string * Z * string))
| ClaveSalaInvalida
| TurnosDeSala (t : string)
| TurnoInvalido
| EventoVacio                 (* El nombre del evento no puede quedar vacío. *)
| ReservacionRegistrada (fol : string)
| ErrorSalaReservada          (* Error: La sala ya está reservada ... *)
| PideRango                   (* Proporcione rango de fechas para buscar eventos. *)
| FormatoInvalido
| FormatoInvalidoOFinalAnterior
| SinEventosEnRango
| TablaEventos (t : list (Z * string * string * string))
| ClaveFueraDeListado         (* Clave no pertenece al listado mostrado. *)
| NombreActualizado           (* Nombre del evento actualizado. *)
| FormatoInvalidoUsaActual    (* Formato de fecha inválido. Usando fecha actual. *)
| SinReservaciones            (* No hay reservaciones para esa fecha. *)
| TablaReservaciones (t : list Base.renglon).

(** How a function stops: it returns, it waits at [input] for a line that
    was not typed, or an exception leaves it. *)
Inductive fin : Type := Termina | Espera | Excepcion.

(** The outcome of reading: a value with the lines left to read, or the
    end of the function; in both cases, what was printed. *)
Inductive lectura (A : Type) : Type :=
| Sigue (a : A) (resto : list entrada) (dicho : list mensaje)
| Corta (f : fin) (dicho : list mensaje).
Arguments Sigue {A}.
Arguments Corta {A}.

Definition lector (A : Type) : Type := list entrada -> lectura A.

Definition decir {A : Type} (m : list mensaje) (l : lectura A) : lectura A :=
  match l with
  | Sigue a r d => Sigue a r (m ++ d)
  | Corta f d => Corta f (m ++ d)
  end.

Definition ret {A : Type} (a : A) : lector A := fun es => Sigue a es [].

Definition ligar {A B : Type} (m : lector A) (k : A -> lector B) : lector B :=
  fun es =>
    match m es with
    | Sigue a r d => decir d (k a r)
    | Corta f d => Corta f d
    end.

Definition imprimir (m : list mensaje) : lector unit :=
  fun es => Sigue tt es m.

Definition regresar {A : Type} (m : list mensaje) : lector A :=
  fun _ => Corta Termina m.

(** The value of an expression that may raise. *)
Definition evaluar {A : Type} (o : option A) : lector A :=
  fun es => match o with Some a => Sigue a es [] | None => Corta Excepcion [] end.

(** What a function leaves behind: the database, the text printed and how
    it stopped. *)
Record resultado := mkresultado
  { final : Base.base; salida : list mensaje; estado : fin }.

End Consola.

Declare Scope lector_scope.
Delimit Scope lector_scope with lector.
Notation "x <- m ;; k" := (Consola.ligar m (fun x => k))
  (at level 61, m at next level, right associativity) : lector_scope.
Notation "' p <- m ;; k" := (Consola.ligar m (fun x => match x with p => k end))
  (at level 61, p pattern, m at next level, right associativity) : lector_scope.

(** ** The export of a report *)

Module Exportar.
Import Base Consola.

Inductive formato : Type := CSV | JSON | Excel.

(** What the dialog does besides asking.  The writing itself belongs to
    pandas and openpyxl; it is recorded with the name of the file and the
    rows handed over, and is taken to go through: a write that raises (a
    directory that is not there, a file that cannot be opened) leaves the
    function before anything is printed. *)
Inductive suceso : Type :=
| OpcionInvalida
| Escribe (f : formato) (nombre : string) (tabla : list renglon)
| Exportado (nombre : string).

(** A dialog: what it did, how it stopped and the lines it did not read. *)
Record dialogo := mkdialogo
  { sucesos : list suceso; termina : fin; sobrantes : list entrada }.

Definition antes_de (s : list suceso) (d : dialogo) : dialogo :=
  mkdialogo (s ++ sucesos d) (termina d) (sobrantes d).

Definition formato_de (opc : string) : option formato :=
  if String.eqb opc "1" then Some CSV
  else if String.eqb opc "2" then Some JSON
  else if String.eqb opc "3" then Some Excel
  else None.

Definition nombre_por_defecto (f : formato) : string :=
  match f with
  | CSV => "reporte.csv"
  | JSON => "reporte.json"
  | Excel => "reporte.xlsx"
  end.

Fixpoint exportar_reporte (tabla : list renglon) (es : list entrada)
    : dialogo :=
  match es with
  | [] => mkdialogo [] Espera []
  | e :: r =>
      let opc := Texto.lower (Texto.strip (linea e)) in
      if String.eqb opc "c" then mkdialogo [] Termina r
      else
        match formato_de opc with
        | Some f =>
            match r with
            | [] => mkdialogo [] Espera []
            | e2 :: r2 =>
                let nombre :=
                  match Texto.strip (linea e2) with
                  | EmptyString => nombre_por_defecto f
                  | t => t
                  end in
                mkdialogo [Escribe f nombre tabla; Exportado nombre] Termina r2
            end
        | None => antes_de [OpcionInvalida] (exportar_reporte tabla r)
        end
  end.

(** Lines 353-361: the loop that offers the export. *)
Fixpoint ofrecer_exportar (tabla : list renglon) (es : list entrada)
    : dialogo :=
  match es with
  | [] => mkdialogo [] Espera []
  | e :: r =>
      let opc := Texto.lower (Texto.strip (linea e)) in
      if String.eqb opc "s" then exportar_reporte tabla r
      else if String.eqb opc "n" then mkdialogo [] Termina r
      else antes_de [OpcionInvalida] (ofrecer_exportar tabla r)
  end.

End Exportar.

(** ** The functions of [reservas.py] *)

Module Reservas.
Import Base Consola.
Local Open Scope lector_scope.

Definition TURNOS : list string := ["Matutino"; "Vespertino"; "Nocturno"].

Definition listar_clientes (b : base) : list cliente := seleccionar_clientes b.

Definition mostrar_clientes (b : base) : list mensaje :=
  match listar_clientes b with
  | [] => [SinClientes]
  | rows => [TablaClientes (map (fun r => (c_id r, c_apellidos r, c_nombre r)) rows)]
  end.

(** A loop that asks until the stripped line is not empty. *)
Fixpoint pedir_no_vacio (queja : mensaje) (es : list entrada) : lectura string :=
  match es with
  | [] => Corta Espera []
  | e :: r =>
      match Texto.strip (linea e) with
      | EmptyString => decir [queja] (pedir_no_vacio queja r)
      | t => Sigue t r []
      end
  end.

Definition registrar_cliente (b : base) (es : list entrada) : resultado :=
  match (nombre <- pedir_no_vacio NombreVacio ;;
         apellidos <- pedir_no_vacio ApellidosVacios ;;
         ret (nombre, apellidos)) es with
  | Sigue (nombre, apellidos) _ d =>
      let '(b', clave) := insertar_cliente b nombre apellidos in
      mkresultado b' (d ++ [ClienteRegistrado clave]) Termina
  | Corta f d => mkresultado b d f
  end.

Definition listar_salas (b : base) : list sala := seleccionar_salas b.

Fixpoint pedir_cupo (es : list entrada) : lectura Z :=
  match es with
  | [] => Corta Espera []
  | e :: r =>
      match Texto.int (Texto.strip (linea e)) with
      | Some cupo =>
          if 0 <? cupo then Sigue cupo r []
          else decir [CupoNoPositivo] (pedir_cupo r)
      | None => decir [EnteroInvalido] (pedir_cupo r)
      end
  end.

Definition registrar_sala (b : base) (es : list entrada) : resultado :=
  match (nombre <- pedir_no_vacio NombreVacio ;;
         cupo <- pedir_cupo ;;
         ret (nombre, cupo)) es with
  | Sigue (nombre, cupo) _ d =>
      match insertar_sala b nombre cupo with
      | Some (b', clave) => mkresultado b' (d ++ [SalaRegistrada clave]) Termina
      | None => mkresultado b d Excepcion
      end
  | Corta f d => mkresultado b d f
  end.

Definition parsear_fecha (texto : string) : option Fecha.date :=
  Fecha.strptime texto.

(** [date.today() + timedelta(days=2)], with [hoy] the value of
    [date.today()]. *)
Definition solicitar_fecha_minima (hoy : Fecha.date) : option Fecha.date :=
  Fecha.sumar_dias 2 hoy.

Definition es_domingo (d : Fecha.date) : bool := Fecha.weekday d =? 6.

Definition siguiente_lunes (d : Fecha.date) : option Fecha.date :=
  if Fecha.weekday d =? 6 then Fecha.sumar_dias 1 d else Some d.

(** An element of the list [salas_disponibles_para_fecha] returns: the
    room's key, name and capacity, and its free shifts. *)
Record disponible := mkdisponible
  { d_id : Z; d_nombre : string; d_cupo : Z; d_turnos : list string }.

Definition turnos_libres (b : base) (s_id : Z) (d : Fecha.date) : list string :=
  filter (fun t => contar_reservaciones b s_id (Fecha.strftime d) t =? 0) TURNOS.

Definition salas_disponibles_para_fecha (b : base) (d : Fecha.date)
    : list disponible :=
  flat_map
    (fun s =>
       match turnos_libres b (s_id s) d with
       | [] => []
       | libres => [mkdisponible (s_id s) (s_nombre s) (s_cupo s) libres]
       end)
    (listar_salas b).

Definition generar_folio (res_id : Z) : string :=
  String "R" (Texto.formato_06d res_id).

(** The first loop of [registrar_reservacion]: the client's key.  The
    value is the key and the date of the day on which it was typed. *)
Fixpoint pedir_cliente (b : base) (clientes : list cliente) (es : list entrada)
    : lectura (Z * Fecha.date) :=
  match es with
  | [] => Corta Espera (mostrar_clientes b)
  | e :: r =>
      decir (mostrar_clientes b)
        (let clave := Texto.strip (linea e) in
         if String.eqb (Texto.lower clave) "c" then Corta Termina [OperacionCancelada]
         else
           match Texto.int clave with
           | Some cliente_id =>
               if existsb (fun c => c_id c =? cliente_id) clientes
               then Sigue (cliente_id, hoy e) r []
               else decir [ClaveNoExiste] (pedir_cliente b clientes r)
           | None => decir [EntradaInvalida] (pedir_cliente b clientes r)
           end)
  end.

(** The end of an iteration of the date loop, once the date [d] is
    settled: [break] with the rooms available, or [continue]. *)
Definition revisar_disponibilidad (b : base) (d : Fecha.date)
    (resto : list entrada)
    (otra_vez : lectura (Fecha.date * list disponible))
    : lectura (Fecha.date * list disponible) :=
  match salas_disponibles_para_fecha b d with
  | [] => decir [SinSalasDisponibles] otra_vez
  | disponibles => Sigue (d, disponibles) resto []
  end.

(** The second loop: the date.  [min_fecha] is the value the function
    computed before entering the loop. *)
Fixpoint pedir_fecha (b : base) (min_fecha : Fecha.date) (es : list entrada)
    : lectura (Fecha.date * list disponible) :=
  match es with
  | [] => Corta Espera [PideFecha (Fecha.strftime min_fecha)]
  | e :: r =>
      decir [PideFecha (Fecha.strftime min_fecha)]
        match parsear_fecha (Texto.strip (linea e)) with
        | None => decir [FormatoFechaInvalido] (pedir_fecha b min_fecha r)
        | Some d =>
            if Fecha.ltb d min_fecha
            then decir [FechaMuyProxima] (pedir_fecha b min_fecha r)
            else if es_domingo d then
              match Fecha.sumar_dias 1 d with
              | None => Corta Excepcion []
              | Some propuesta =>
                  decir [ProponeLunes (Fecha.strftime propuesta)]
                    match r with
                    | [] => Corta Espera []
                    | e2 :: r2 =>
                        let aceptar := Texto.lower (Texto.strip (linea e2)) in
                        if String.eqb aceptar "s"
                        then revisar_disponibilidad b propuesta r2
                               (pedir_fecha b min_fecha r2)
                        else pedir_fecha b min_fecha r2
                    end
              end
            else revisar_disponibilidad b d r (pedir_fecha b min_fecha r)
        end
  end.

(** The third loop: the room's key, [0] to cancel. *)
Fixpoint pedir_sala (disponibles : list disponible) (es : list entrada)
    : lectura Z :=
  match es with
  | [] => Corta Espera []
  | e :: r =>
      match Texto.int (Texto.strip (linea e)) with
      | Some sala_elegida =>
          if sala_elegida =? 0 then Corta Termina [OperacionCancelada]
          else if existsb (fun s => d_id s =? sala_elegida) disponibles
               then Sigue sala_elegida r []
               else decir [ClaveSalaInvalida] (pedir_sala disponibles r)
      | None => decir [EntradaInvalida] (pedir_sala disponibles r)
      end
  end.

(** The fourth loop: the shift, one of the free shifts of the room. *)
Fixpoint pedir_turno (sala_turnos : list string) (es : list entrada)
    : lectura string :=
  match es with
  | [] => Corta Espera []
  | e :: r =>
      let turno := Texto.strip (linea e) in
      if existsb (String.eqb turno) sala_turnos then Sigue turno r []
      else decir [TurnoInvalido] (pedir_turno sala_turnos r)
  end.

Definition tabla_disponibles (disponibles : list disponible)
    : list (Z * string * Z * string) :=
  map (fun s => (d_id s, d_nombre s, d_cupo s, Texto.join ", " (d_turnos s)))
    disponibles.

(** What the insertion needs, in the order the function learns it. *)
Record solicitud := mksolicitud
  { sol_cliente : Z;
    sol_sala : Z;
    sol_fecha : Fecha.date;
    sol_turno : string;
    sol_evento : string }.

(** Lines 229-257: once the date [d] and the rooms available on it are
    known, the room, the shift and the name of the event. *)
Definition pedir_detalle (cliente_id : Z) (d : Fecha.date)
    (disponibles : list disponible) : lector solicitud :=
  _ <- imprimir [TablaDisponibles (tabla_disponibles disponibles)] ;;
  sala_elegida <- pedir_sala disponibles ;;
  s <- evaluar (find (fun s => d_id s =? sala_elegida) disponibles) ;;
  _ <- imprimir [TurnosDeSala (Texto.join ", " (d_turnos s))] ;;
  turno <- pedir_turno (d_turnos s) ;;
  nombre_evento <- pedir_no_vacio EventoVacio ;;
  ret (mksolicitud cliente_id sala_elegida d turno nombre_evento).

(** Lines 192-257: everything [registrar_reservacion] asks for.  The
    minimum date is computed once, between the loop for the client and
    the loop for the date. *)
Definition pedir_solicitud (b : base) (clientes : list cliente)
    : lector solicitud :=
  '(cliente_id, hoy) <- pedir_cliente b clientes ;;
  min_fecha <- evaluar (solicitar_fecha_minima hoy) ;;
  '(d, disponibles) <- pedir_fecha b min_fecha ;;
  pedir_detalle cliente_id d disponibles.

(** Lines 258-273: the insertion.  The row goes in with an empty folio
    and is committed; the folio is then computed from [lastrowid] and
    written to the row.  An [IntegrityError] of either statement is
    reported with the same message. *)
Definition guardar_reservacion (b : base) (cliente_id sala_elegida : Z)
    (fecha_str turno nombre_evento : string) : base * list mensaje :=
  match insertar_reservacion b "" cliente_id sala_elegida fecha_str turno
          nombre_evento with
  | Some (b1, res_id) =>
      let folio := generar_folio res_id in
      match actualizar_folio b1 folio res_id with
      | Some b2 => (b2, [ReservacionRegistrada folio])
      | None => (b1, [ErrorSalaReservada])
      end
  | None => (b, [ErrorSalaReservada])
  end.

(** The function from where its questions end: the insertion when they
    were all answered, nothing otherwise. *)
Definition concluir (b : base) (l : lectura solicitud) : resultado :=
  match l with
  | Sigue s _ d =>
      let '(b', m) :=
        guardar_reservacion b (sol_cliente s) (sol_sala s)
          (Fecha.strftime (sol_fecha s)) (sol_turno s) (sol_evento s) in
      mkresultado b' (d ++ m) Termina
  | Corta f d => mkresultado b d f
  end.

Definition registrar_reservacion (b : base) (es : list entrada) : resultado :=
  match listar_clientes b with
  | [] => mkresultado b [SinClientesPrevios] Termina
  | clientes => concluir b (pedir_solicitud b clientes es)
  end.

(** The two date loops of [editar_nombre_evento]. *)
Fixpoint pedir_desde (es : list entrada) : lectura Fecha.date :=
  match es with
  | [] => Corta Espera []
  | e :: r =>
      match parsear_fecha (Texto.strip (linea e)) with
      | Some desde => Sigue desde r []
      | None => decir [FormatoInvalido] (pedir_desde r)
      end
  end.

Fixpoint pedir_hasta (desde : Fecha.date) (es : list entrada)
    : lectura Fecha.date :=
  match es with
  | [] => Corta Espera []
  | e :: r =>
      match parsear_fecha (Texto.strip (linea e)) with
      | Some hasta =>
          if Fecha.leb desde hasta then Sigue hasta r []
          else decir [FormatoInvalidoOFinalAnterior] (pedir_hasta desde r)
      | None => decir [FormatoInvalidoOFinalAnterior] (pedir_hasta desde r)
      end
  end.

(** Lines 290-294: the rows shown for the range. *)
Definition eventos_en_rango (b : base) (desde hasta : Fecha.date)
    : list reservacion :=
  seleccionar_rango b (Fecha.strftime desde) (Fecha.strftime hasta).

(** The loop for the key of the event, one of the rows shown. *)
Fixpoint pedir_evento (rows : list reservacion) (es : list entrada)
    : lectura Z :=
  match es with
  | [] => Corta Espera []
  | e :: r =>
      let clave := Texto.strip (linea e) in
      if String.eqb (Texto.lower clave) "c" then Corta Termina [OperacionCancelada]
      else
        match Texto.int clave with
        | Some clave_id =>
            if existsb (fun x => r_id x =? clave_id) rows
            then Sigue clave_id r []
            else decir [ClaveFueraDeListado] (pedir_evento rows r)
        | None => decir [EntradaInvalida] (pedir_evento rows r)
        end
  end.

Definition tabla_eventos (rows : list reservacion)
    : list (Z * string * string * string) :=
  map (fun r => (r_id r, folio r, nombre_evento r, fecha r)) rows.

Definition pedir_edicion (b : base) : lector (Z * string) :=
  _ <- imprimir [PideRango] ;;
  desde <- pedir_desde ;;
  hasta <- pedir_hasta desde ;;
  match eventos_en_rango b desde hasta with
  | [] => regresar [SinEventosEnRango]
  | rows =>
      _ <- imprimir [TablaEventos (tabla_eventos rows)] ;;
      clave_id <- pedir_evento rows ;;
      nuevo_nombre <- pedir_no_vacio EventoVacio ;;
      ret (clave_id, nuevo_nombre)
  end.

Definition editar_nombre_evento (b : base) (es : list entrada) : resultado :=
  match pedir_edicion b es with
  | Sigue (clave_id, nuevo_nombre) _ d =>
      mkresultado (actualizar_nombre_evento b nuevo_nombre clave_id)
        (d ++ [NombreActualizado]) Termina
  | Corta f d => mkresultado b d f
  end.

(** Lines 335-344: the report for the date [d]. *)
Definition reservaciones_de_fecha (b : base) (d : Fecha.date)
    : list (reservacion * sala * cliente) :=
  seleccionar_por_fecha b (Fecha.strftime d).

(** Lines 325-361.  [salida] is what is printed up to the table; after a
    table the function offers to export it (lines 353-361) and ends as
    that dialog ends.  What the dialog prints and writes is given by
    [consultar_y_exportar]. *)
Definition consultar_reservaciones (b : base) (es : list entrada) : resultado :=
  match es with
  | [] => mkresultado b [] Espera
  | e :: r =>
      let entrada := Texto.strip (linea e) in
      let '(d, aviso) :=
        match entrada with
        | EmptyString => (hoy e, [])
        | _ =>
            match parsear_fecha entrada with
            | Some d => (d, [])
            | None => (hoy e, [FormatoInvalidoUsaActual])
            end
        end in
      match reservaciones_de_fecha b d with
      | [] => mkresultado b (aviso ++ [SinReservaciones]) Termina
      | rows =>
          let tabla := map proyectar rows in
          mkresultado b (aviso ++ [TablaReservaciones tabla])
            (Exportar.termina (Exportar.ofrecer_exportar tabla r))
      end
  end.

(** The table [consultar_reservaciones] printed, if it printed one. *)
Definition tabla_impresa (m : list mensaje) : option (list renglon) :=
  match last m SinReservaciones with
  | TablaReservaciones t => Some t
  | _ => None
  end.

(** [consultar_reservaciones] to its end: the report, and after a table
    the offer to export it, on the lines that follow the date. *)
Definition consultar_y_exportar (b : base) (es : list entrada)
    : resultado * Exportar.dialogo :=
  let res := consultar_reservaciones b es in
  match es, tabla_impresa (salida res) with
  | _ :: r, Some t => (res, Exportar.ofrecer_exportar t r)
  | _, _ => (res, Exportar.mkdialogo [] (estado res) (tl es))
  end.

End Reservas.

(** ** States of the database *)

Module Estado.
Import Base Consola Reservas.

(** The columns of [UNIQUE(sala_id, fecha, turno)]. *)
Definition terna (r : reservacion) : Z * string * string :=
  (sala_id r, fecha r, turno r).

(** The constraints [crear_tablas] declares and SQLite enforces. *)
Record esquema (b : base) : Prop := mkesquema
  { pk_clientes : NoDup (map c_id (clientes b));
    pk_salas : NoDup (map s_id (salas b));
    check_cupo : forall s, In s (salas b) -> 0 < s_cupo s;
    pk_reservaciones : NoDup (map r_id (reservaciones b));
    unique_folio : NoDup (map folio (reservaciones b));
    unique_terna : NoDup (map terna (reservaciones b)) }.

(** What the program keeps true of the file besides: keys are positive,
    every folio is the one of its key, and the references of a
    reservation exist. *)
Record integra (b : base) : Prop := mkintegra
  { int_clientes : NoDup (map c_id (clientes b));
    int_salas : NoDup (map s_id (salas b));
    int_cupo : forall s, In s (salas b) -> 0 < s_cupo s;
    int_claves : NoDup (map r_id (reservaciones b));
    int_positivas : forall r, In r (reservaciones b) -> 0 < r_id r;
    int_seq : 0 <= seq_reservaciones b;
    int_folios :
      forall r, In r (reservaciones b) -> folio r = generar_folio (r_id r);
    int_ternas : NoDup (map terna (reservaciones b));
    int_referencias :
      forall r, In r (reservaciones b) ->
        In (cliente_id r) (map c_id (clientes b))
        /\ In (sala_id r) (map s_id (salas b)) }.

(** The states the program can leave the file in: it starts from the
    empty tables and each choice of the menu that writes runs one of four
    functions, on whatever is typed. *)
Inductive alcanzable : base -> Prop :=
| alc_vacia : alcanzable vacia
| alc_cliente b es :
    alcanzable b -> alcanzable (final (registrar_cliente b es))
| alc_sala b es :
    alcanzable b -> alcanzable (final (registrar_sala b es))
| alc_reservacion b es :
    alcanzable b -> alcanzable (final (registrar_reservacion b es))
| alc_edicion b es :
    alcanzable b -> alcanzable (final (editar_nombre_evento b es)).

(** A reservation exists for the room [sid] on the date text [f] and the
    shift [t]. *)
Definition ocupado (b : base) (sid : Z) (f t : string) : Prop :=
  exists r, In r (reservaciones b)
            /\ sala_id r = sid /\ fecha r = f /\ turno r = t.

(** The text a [lectura] carries. *)
Definition dicho_de {A : Type} (l : lectura A) : list mensaje :=
  match l with
  | Sigue _ _ d => d
  | Corta _ d => d
  end.

(** Lines 207-257 of [registrar_reservacion]: the questions from the
    loop for the date on, for the client [cid] and the minimum date [m]. *)
Definition desde_fecha (b : base) (cid : Z) (m : Fecha.date)
    : lector solicitud :=
  ('(d, disponibles) <- pedir_fecha b m ;;
   pedir_detalle cid d disponibles)%lector.

(** [registrar_reservacion], having read the lines [es], stands at the
    prompt for the date: the client [cid] was chosen by a line typed on
    the day [h0], the minimum date [m] was computed from [h0], and every
    date typed since was turned down.  [dicho] is what was printed before
    the prompt. *)
Definition en_bucle_fecha (b : base) (es : list entrada) (cid : Z)
    (h0 m : Fecha.date) (dicho : list mensaje) : Prop :=
  exists es0 pre d0 dpre,
    es = (es0 ++ pre)%list
    /\ listar_clientes b <> []
    /\ pedir_cliente b (listar_clientes b) es0 = Sigue (cid, h0) [] d0
    /\ solicitar_fecha_minima h0 = Some m
    /\ pedir_fecha b m pre
       = Corta Espera (dpre ++ [PideFecha (Fecha.strftime m)])%list
    /\ dicho = (d0 ++ dpre)%list.

(** The six digits of [n], for the folio as the documentation words it:
    the letter R and the key on six digits. *)
Definition R_y_seis_digitos (n : Z) : string :=
  String "R"
    (String (Texto.car_digito (n / 100000 mod 10))
    (String (Texto.car_digito (n / 10000 mod 10))
    (String (Texto.car_digito (n / 1000 mod 10))
    (String (Texto.car_digito (n / 100 mod 10))
    (String (Texto.car_digito (n / 10 mod 10))
    (String (Texto.car_digito (n mod 10)) EmptyString)))))).

(** The rows after the two statements of a booking that goes through. *)
Definition con_reservacion (b : base) (cid sid : Z) (f t ev : string) : base :=
  let k := nueva_clave (seq_reservaciones b) (map r_id (reservaciones b)) in
  mkbase (clientes b) (salas b)
    (reservaciones b ++ [mkreservacion k (generar_folio k) cid sid f t ev])
    (seq_clientes b) (seq_salas b) k.

(** The number a text of digits writes, read left to right from [acc]. *)
Fixpoint valor (acc : Z) (s : string) : Z :=
  match s with
  | EmptyString => acc
  | String c r => valor (10 * acc + Texto.valor_digito c) r
  end.

(** The place of a shift in [TURNOS]. *)
Fixpoint lugar (t : string) (l : list string) : nat :=
  match l with
  | [] => O
  | x :: r => if String.eqb x t then O else S (lugar t r)
  end.

(** Text order, as [ORDER BY] applies it to a TEXT column. *)
Definition texto_lt (s t : string) : Prop := String.compare s t = Lt.

(** The order of the report: by the text of the shift, then by the key of
    the room. *)
Definition antes (x y : reservacion * sala * cliente) : Prop :=
  let '(r1, s1, _) := x in
  let '(r2, s2, _) := y in
  texto_lt (turno r1) (turno r2)
  \/ (turno r1 = turno r2 /\ s_id s1 <= s_id s2).

End Estado.

(** ** A session *)

Module Ejemplo.
Import Base Consola Reservas.

Definition miercoles_4 : Fecha.date := Fecha.mkdate 2026 11 4.
Definition jueves_5 : Fecha.date := Fecha.mkdate 2026 11 5.
Definition viernes_6 : Fecha.date := Fecha.mkdate 2026 11 6.

Definition teclea (s : string) : entrada := mkentrada miercoles_4 s.

(** One client and one room. *)
Definition b_inicial : base :=
  final (registrar_sala
           (final (registrar_cliente vacia [teclea "Jane"; teclea "Doe"]))
           [teclea "Hall A"; teclea "10"]).

(** Monday 9 November 2026, in the afternoon. *)
Definition b_una : base :=
  final (registrar_reservacion b_inicial
           [teclea "1"; teclea "11-09-2026"; teclea "1"; teclea "Vespertino";
            teclea "Taller"]).

(** The same Monday, at night. *)
Definition b_dos : base :=
  final (registrar_reservacion b_una
           [teclea "1"; teclea "11-09-2026"; teclea "1"; teclea "Nocturno";
            teclea "Cena"]).

(** Monday 21 December 2026 and Monday 4 January 2027. *)
Definition b_cuatro : base :=
  final (registrar_reservacion
           (final (registrar_reservacion b_dos
                     [teclea "1"; teclea "12-21-2026"; teclea "1";
                      teclea "Matutino"; teclea "Posada"]))
           [teclea "1"; teclea "01-04-2027"; teclea "1"; teclea "Matutino";
            teclea "Arranque"]).

(** The row [b_una] holds. *)
Definition r_taller : reservacion :=
  mkreservacion 1 "R000001" 1 1 "11-09-2026" "Vespertino" "Taller".

(** The client is chosen on Wednesday the 4th; the date is typed after
    midnight, on Thursday the 5th. *)
Definition sesion_medianoche : list entrada :=
  [mkentrada miercoles_4 "1"; mkentrada jueves_5 "11-06-2026";
   mkentrada jueves_5 "1"; mkentrada jueves_5 "Matutino";
   mkentrada jueves_5 "Junta"].

End Ejemplo.

(** ** The start of the program *)

Module Arranque.
Import Base.





(** The two lines [iniciar_estado] can print. *)
Inductive aviso : Type :=
| EstadoVacio                 (* Iniciando con estado inicial vacío. *)
| EstadoPrevio.               (* Estado previo encontrado. Cargando datos... *)




End Arranque.

(** ** Further notions for the statements *)

Module Propiedades.
Import Base Consola Reservas Estado.

(** A text of decimal digits only. *)
Fixpoint solo_digitos (s : string) : bool :=
  match s with
  | EmptyString => true
  | String c r => Texto.es_digito c && solo_digitos r
  end.

(** A text with no white space in it. *)
Fixpoint sin_espacios (s : string) : bool :=
  match s with
  | EmptyString => true
  | String c r => negb (Texto.es_espacio c) && sin_espacios r
  end.

(** The two messages of the insertion of [registrar_reservacion]. *)
Definition es_de_guardar (m : mensaje) : bool :=
  match m with
  | ReservacionRegistrada _ | ErrorSalaReservada => true
  | _ => false
  end.

(** What was printed holds none of them. *)
Definition calla {A : Type} (l : lectura A) : Prop :=
  Forall (fun m => es_de_guardar m = false) (dicho_de l).

(** A reservation as the questions of [registrar_reservacion] let it be:
    one of the three shifts, a name for the event, and the text of a
    calendar date that is not a Sunday. *)
Definition bien_formada (r : reservacion) : Prop :=
  In (turno r) TURNOS
  /\ nombre_evento r <> EmptyString
  /\ exists d, fecha r = Fecha.strftime d
               /\ Fecha.valida d = true /\ es_domingo d = false.

(** The key of [ORDER BY apellidos, nombre]. *)
Definition antes_cliente (x y : cliente) : Prop :=
  texto_lt (c_apellidos x) (c_apellidos y)
  \/ (c_apellidos x = c_apellidos y
      /\ String.leb (c_nombre x) (c_nombre y) = true).

(** No reservation of the file is for the date [d]. *)
Definition dia_libre (b : base) (d : Fecha.date) : Prop :=
  forall r, In r (reservaciones b) -> fecha r <> Fecha.strftime d.

(** A text of ASCII characters only. *)
Fixpoint solo_ascii (s : string) : bool :=
  match s with
  | EmptyString => true
  | String c r => (nat_of_ascii c <? 128)%nat && solo_ascii r
  end.

(** Lines a loop of [editar_nombre_evento] turns down: at the first date,
    a text that is not a date; at the second, also a date before the
    first; at the key, a text that is neither the letter that cancels nor
    a key of the rows shown; at the name, a blank line. *)
Definition sin_fecha (x : entrada) : Prop :=
  parsear_fecha (Texto.strip (linea x)) = None.

Definition no_es_hasta (desde : Fecha.date) (x : entrada) : Prop :=
  match parsear_fecha (Texto.strip (linea x)) with
  | Some hasta => Fecha.leb desde hasta = false
  | None => True
  end.

Definition clave_rechazada (rows : list reservacion) (x : entrada) : Prop :=
  String.eqb (Texto.lower (Texto.strip (linea x))) "c" = false
  /\ match Texto.int (Texto.strip (linea x)) with
     | Some j => existsb (fun r => r_id r =? j) rows = false
     | None => True
     end.

Definition en_blanco (x : entrada) : Prop :=
  Texto.strip (linea x) = EmptyString.

(** Lines as a keyboard gives them to the functions modelled here: ASCII
    characters, and no more of them than the 4300 digits [int] converts. *)
Definition linea_llana (s : string) : bool :=
  solo_ascii s && (String.length s <=? 4300)%nat.

Definition lineas_llanas (es : list entrada) : bool :=
  forallb (fun e => linea_llana (linea e)) es.

End Propiedades.

(** * Decimal digits *)

Section Digitos.
Import Texto Estado.

Lemma valor_digito_car k : 0 <= k <= 9 -> valor_digito (car_digito k) = k.
Proof.
  intros H.
  assert (E : k = 0 \/ k = 1 \/ k = 2 \/ k = 3 \/ k = 4 \/ k = 5 \/ k = 6
              \/ k = 7 \/ k = 8 \/ k = 9) by lia.
  repeat (destruct E as [-> | E]; [reflexivity |]); subst; reflexivity.
Qed.

Lemma es_digito_car k : 0 <= k <= 9 -> es_digito (car_digito k) = true.
Proof.
  intros H.
  assert (E : k = 0 \/ k = 1 \/ k = 2 \/ k = 3 \/ k = 4 \/ k = 5 \/ k = 6
              \/ k = 7 \/ k = 8 \/ k = 9) by lia.
  repeat (destruct E as [-> | E]; [reflexivity |]); subst; reflexivity.
Qed.

Lemma valor_app acc s t : valor acc (s ++ t) = valor (valor acc s) t.
Proof. revert acc; induction s as [| c s IH]; intros acc; simpl; auto. Qed.

Lemma valor_ceros k s : valor 0 (ceros k ++ s) = valor 0 s.
Proof. induction k as [| k IH]; simpl; auto. Qed.

Lemma valor_digitos p : forall n,
  0 <= n < 2 ^ Z.of_nat p -> valor 0 (digitos p n) = n.
Proof.
  induction p as [| p IH]; intros n Hn.
  - simpl in *. lia.
  - cbn [digitos]. rewrite valor_app. cbn [valor].
    rewrite valor_digito_car by (pose proof (Z.mod_pos_bound n 10); lia).
    rewrite Nat2Z.inj_succ, Z.pow_succ_r in Hn by lia.
    destruct (n <? 10) eqn:E.
    + apply Z.ltb_lt in E. cbn [valor]. rewrite Z.mod_small; lia.
    + apply Z.ltb_ge in E. rewrite IH.
      * pose proof (Z.div_mod n 10). lia.
      * split; [apply Z.div_pos; lia |].
        apply Z.div_lt_upper_bound; lia.
Qed.

Lemma cota_log2 n : 0 <= n -> n < 2 ^ Z.of_nat (S (Z.to_nat (Z.log2 n))).
Proof.
  intros H. rewrite Nat2Z.inj_succ, Z2Nat.id by apply Z.log2_nonneg.
  destruct (Z.eq_dec n 0) as [-> | Hz]; [reflexivity |].
  apply Z.log2_spec; lia.
Qed.

Lemma valor_str n : 0 <= n -> valor 0 (str n) = n.
Proof.
  intros H. unfold str.
  destruct (n <? 0) eqn:E; [apply Z.ltb_lt in E; lia |].
  apply valor_digitos. split; [lia | apply cota_log2; lia].
Qed.

Lemma valor_formato_06d n : 0 <= n -> valor 0 (formato_06d n) = n.
Proof.
  intros H. unfold formato_06d, zfill.
  destruct (n <? 0) eqn:E; [apply Z.ltb_lt in E; lia |].
  rewrite valor_ceros. now apply valor_str.
Qed.

Lemma generar_folio_inyectiva n m :
  0 <= n -> 0 <= m ->
  Reservas.generar_folio n = Reservas.generar_folio m -> n = m.
Proof.
  intros Hn Hm E. unfold Reservas.generar_folio in E.
  injection E as E.
  rewrite <- (valor_formato_06d n Hn), <- (valor_formato_06d m Hm).
  now rewrite E.
Qed.

Lemma generar_folio_no_vacio n : Reservas.generar_folio n <> "".
Proof. discriminate. Qed.

(** With enough steps, the digits do not depend on the number of steps. *)
Lemma digitos_pasos p : forall q n,
  0 <= n < 2 ^ Z.of_nat (S p) -> 0 <= n < 2 ^ Z.of_nat (S q) ->
  digitos (S p) n = digitos (S q) n.
Proof.
  induction p as [| p IH]; intros q n Hp Hq;
    cbn [digitos]; destruct (n <? 10) eqn:E; try reflexivity;
    apply Z.ltb_ge in E.
  - simpl in Hp. lia.
  - destruct q as [| q]; [simpl in Hq; lia |].
    f_equal.
    rewrite Nat2Z.inj_succ, Z.pow_succ_r in Hp, Hq by lia.
    apply IH; (split; [apply Z.div_pos; lia |]);
      apply Z.div_lt_upper_bound; lia.
Qed.

Lemma str_veinte n : 0 <= n < 1000000 -> str n = digitos 20 n.
Proof.
  intros H. unfold str.
  destruct (n <? 0) eqn:E; [apply Z.ltb_lt in E; lia |].
  apply (digitos_pasos _ 19).
  - split; [lia | apply cota_log2; lia].
  - change (2 ^ Z.of_nat 20) with 1048576. lia.
Qed.

Lemma digitos_S p n :
  digitos (S p) n
  = (if n <? 10 then EmptyString else digitos p (n / 10))
    ++ String (car_digito (n mod 10)) EmptyString.
Proof. reflexivity. Qed.

Ltac un_digito :=
  rewrite digitos_S;
  match goal with
  | |- context [?x <? 10] =>
      let F := fresh "F" in
      destruct (x <? 10) eqn:F;
      [apply Z.ltb_lt in F | apply Z.ltb_ge in F]
  end.

Lemma generar_folio_seis_digitos n :
  0 <= n < 1000000 -> Reservas.generar_folio n = R_y_seis_digitos n.
Proof.
  intros H. unfold Reservas.generar_folio, formato_06d, zfill.
  destruct (n <? 0) eqn:E; [apply Z.ltb_lt in E; lia |].
  rewrite str_veinte by assumption.
  unfold R_y_seis_digitos. f_equal.
  do 7 (try un_digito);
    try (exfalso; Z.div_mod_to_equations; lia);
    cbn [append String.length Nat.sub ceros];
    repeat (f_equal; try (Z.div_mod_to_equations; lia));
    change "0"%char with (car_digito 0); f_equal;
    Z.div_mod_to_equations; lia.
Qed.

End Digitos.

(** * Dates *)

Section Fechas.
Import Fecha.

Lemma ltb_spec a b :
  ltb a b = true <->
  year a < year b
  \/ year a = year b
     /\ (month a < month b \/ month a = month b /\ day a < day b).
Proof.
  unfold ltb.
  rewrite !orb_true_iff, !andb_true_iff, !orb_true_iff, !andb_true_iff,
    !Z.ltb_lt, !Z.eqb_eq.
  reflexivity.
Qed.

Lemma ltb_siguiente d : ltb d (siguiente_dia d) = true.
Proof.
  apply ltb_spec. unfold siguiente_dia.
  destruct (day d <? days_in_month (year d) (month d));
    [| destruct (month d <? 12)]; cbn [year month day]; lia.
Qed.

Lemma ltb_irrefl d : ltb d d = false.
Proof. unfold ltb. now rewrite !Z.ltb_irrefl, !Z.eqb_refl. Qed.

Lemma valida_cotas d :
  valida d = true ->
  1 <= year d <= 9999 /\ 1 <= month d <= 12
  /\ 1 <= day d <= days_in_month (year d) (month d).
Proof.
  unfold valida, MINYEAR, MAXYEAR. intros H.
  repeat (apply andb_prop in H; destruct H as [H ?]).
  repeat match goal with
         | H : (_ <=? _) = true |- _ => apply Z.leb_le in H
         end.
  lia.
Qed.

Lemma cotas_valida d :
  1 <= year d <= 9999 -> 1 <= month d <= 12 ->
  1 <= day d <= days_in_month (year d) (month d) ->
  valida d = true.
Proof.
  intros Hy Hm Hd. unfold valida, MINYEAR, MAXYEAR.
  repeat (apply andb_true_intro; split); apply Z.leb_le; lia.
Qed.

Ltac por_mes m H :=
  let E := fresh "E" in
  assert (E : m = 1 \/ m = 2 \/ m = 3 \/ m = 4 \/ m = 5 \/ m = 6 \/ m = 7
              \/ m = 8 \/ m = 9 \/ m = 10 \/ m = 11 \/ m = 12) by lia;
  clear H;
  repeat (destruct E as [E | E]); rewrite E in *.

Lemma days_in_month_pos y m : 1 <= m <= 12 -> 28 <= days_in_month y m <= 31.
Proof.
  intros H. unfold days_in_month.
  por_mes m H; destruct (is_leap y); cbn; lia.
Qed.

Lemma valida_siguiente d :
  valida d = true -> year (siguiente_dia d) <= MAXYEAR ->
  valida (siguiente_dia d) = true.
Proof.
  intros V. apply valida_cotas in V. destruct V as (Hy & Hm & Hd).
  unfold siguiente_dia, MAXYEAR.
  destruct (day d <? days_in_month (year d) (month d)) eqn:E1.
  - apply Z.ltb_lt in E1. intros _.
    apply cotas_valida; cbn [year month day]; lia.
  - destruct (month d <? 12) eqn:E2.
    + apply Z.ltb_lt in E2. intros _.
      apply cotas_valida; cbn [year month day]; try lia.
      pose proof (days_in_month_pos (year d) (month d + 1)). lia.
    + cbn [year]. intros Hn.
      apply cotas_valida; cbn [year month day]; try lia.
      pose proof (days_in_month_pos (year d + 1) 1). lia.
Qed.

(** A year's days: 365, and one more when it is a leap year. *)
Lemma days_before_year_S y :
  days_before_year (y + 1)
  = days_before_year y + 365 + (if is_leap y then 1 else 0).
Proof.
  unfold days_before_year, is_leap.
  replace (y + 1 - 1) with y by lia.
  destruct (y mod 4 =? 0) eqn:E4; destruct (y mod 100 =? 0) eqn:E100;
    destruct (y mod 400 =? 0) eqn:E400; cbn [negb andb orb];
    repeat match goal with
           | H : (_ =? _) = true |- _ => apply Z.eqb_eq in H
           | H : (_ =? _) = false |- _ => apply Z.eqb_neq in H
           end;
    Z.div_mod_to_equations; lia.
Qed.

Lemma toordinal_siguiente d :
  valida d = true -> toordinal (siguiente_dia d) = toordinal d + 1.
Proof.
  intros V. apply valida_cotas in V. destruct V as (Hy & Hm & Hd).
  unfold siguiente_dia, toordinal.
  destruct (day d <? days_in_month (year d) (month d)) eqn:E1.
  - cbn [year month day]. lia.
  - apply Z.ltb_ge in E1.
    assert (Ed : day d = days_in_month (year d) (month d)) by lia.
    rewrite Ed. clear E1 Hd Ed.
    destruct (month d <? 12) eqn:E2; cbn [year month day].
    + apply Z.ltb_lt in E2.
      unfold days_before_month, days_in_month.
      assert (H : 1 <= month d <= 11) by lia. clear Hm E2.
      assert (E : month d = 1 \/ month d = 2 \/ month d = 3 \/ month d = 4
                  \/ month d = 5 \/ month d = 6 \/ month d = 7
                  \/ month d = 8 \/ month d = 9 \/ month d = 10
                  \/ month d = 11) by lia.
      repeat (destruct E as [E | E]); rewrite E;
        destruct (is_leap (year d)); cbn; lia.
    + apply Z.ltb_ge in E2. assert (E : month d = 12) by lia.
      rewrite E, days_before_year_S.
      unfold days_before_month, days_in_month.
      destruct (is_leap (year d)); cbn; lia.
Qed.

Lemma weekday_siguiente d :
  valida d = true -> weekday (siguiente_dia d) = (weekday d + 1) mod 7.
Proof.
  intros V. unfold weekday. rewrite toordinal_siguiente by assumption.
  rewrite Zplus_mod_idemp_l. f_equal. lia.
Qed.

(** The day after a Sunday is within the calendar: the last day of the
    year 9999 is a Friday. *)
Lemma domingo_tiene_siguiente d :
  valida d = true -> weekday d = 6 ->
  sumar_dias 1 d = Some (siguiente_dia d).
Proof.
  intros V W. cbn [sumar_dias].
  destruct (year (siguiente_dia d) <=? MAXYEAR) eqn:E; [reflexivity |].
  exfalso. apply Z.leb_gt in E. pose proof (valida_cotas d V) as (Hy & Hm & Hd).
  unfold siguiente_dia, MAXYEAR in E.
  destruct (day d <? days_in_month (year d) (month d)) eqn:E1;
    [cbn [year] in E; lia |].
  destruct (month d <? 12) eqn:E2; [cbn [year] in E; lia |].
  cbn [year] in E. apply Z.ltb_ge in E1, E2.
  assert (Ey : year d = 9999) by lia.
  assert (Em : month d = 12) by lia.
  assert (Ed : day d = 31).
  { rewrite Ey, Em in *. change (days_in_month 9999 12) with 31 in *. lia. }
  unfold weekday, toordinal in W. rewrite Ey, Em, Ed in W.
  vm_compute in W. discriminate.
Qed.

Lemma sumar_un_dia d p : sumar_dias 1 d = Some p -> p = siguiente_dia d.
Proof.
  cbn [sumar_dias].
  destruct (year (siguiente_dia d) <=? MAXYEAR); congruence.
Qed.

Lemma sumar_dos_dias d m :
  sumar_dias 2 d = Some m ->
  sumar_dias 1 d = Some (siguiente_dia d)
  /\ m = siguiente_dia (siguiente_dia d).
Proof.
  cbn [sumar_dias].
  destruct (year (siguiente_dia d) <=? MAXYEAR); [| discriminate].
  destruct (year (siguiente_dia (siguiente_dia d)) <=? MAXYEAR);
    [| discriminate].
  intros E; injection E as <-. auto.
Qed.

Lemma digito_car k : 0 <= k <= 9 -> digito (Texto.car_digito k) = Some k.
Proof.
  intros H. unfold digito.
  now rewrite es_digito_car, valor_digito_car.
Qed.

Lemma leer_mes_dos_digitos m r :
  1 <= m <= 12 -> leer_mes (dos_digitos m ++ String "-" r) = Some (m, r).
Proof.
  intros H.
  assert (E : m = 1 \/ m = 2 \/ m = 3 \/ m = 4 \/ m = 5 \/ m = 6 \/ m = 7
              \/ m = 8 \/ m = 9 \/ m = 10 \/ m = 11 \/ m = 12) by lia.
  repeat (destruct E as [E | E]); rewrite E; reflexivity.
Qed.

Lemma leer_dia_dos_digitos d r :
  1 <= d <= 31 -> leer_dia (dos_digitos d ++ String "-" r) = Some (d, r).
Proof.
  intros H.
  assert (E : (d = 1 \/ d = 2 \/ d = 3 \/ d = 4 \/ d = 5 \/ d = 6 \/ d = 7
               \/ d = 8 \/ d = 9 \/ d = 10)
              \/ (d = 11 \/ d = 12 \/ d = 13 \/ d = 14 \/ d = 15 \/ d = 16
                  \/ d = 17 \/ d = 18 \/ d = 19 \/ d = 20)
              \/ (d = 21 \/ d = 22 \/ d = 23 \/ d = 24 \/ d = 25 \/ d = 26
                  \/ d = 27 \/ d = 28 \/ d = 29 \/ d = 30 \/ d = 31)) by lia.
  destruct E as [E | [E | E]];
    repeat (destruct E as [E | E]); rewrite E; reflexivity.
Qed.

Lemma leer_anio_cuatro_digitos y :
  0 <= y <= 9999 -> leer_anio (cuatro_digitos y) = Some y.
Proof.
  intros H. unfold cuatro_digitos, dos_digitos, leer_anio.
  rewrite !digito_car by (Z.div_mod_to_equations; lia).
  f_equal. Z.div_mod_to_equations; lia.
Qed.

(** A date printed in the program's format reads back as itself. *)
Lemma strptime_strftime d : valida d = true -> strptime (strftime d) = Some d.
Proof.
  intros V. pose proof (valida_cotas d V) as (Hy & Hm & Hd).
  pose proof (days_in_month_pos (year d) (month d) Hm).
  unfold strptime, strftime.
  change ("-" ++ ?x) with (String "-" x).
  rewrite leer_mes_dos_digitos by assumption.
  change ("-" ++ ?x) with (String "-" x).
  rewrite leer_dia_dos_digitos by lia.
  rewrite leer_anio_cuatro_digitos by lia.
  destruct d as [y m dd]; cbn [year month day] in *. now rewrite V.
Qed.

Lemma strftime_inyectiva a b :
  valida a = true -> valida b = true -> strftime a = strftime b -> a = b.
Proof.
  intros Va Vb E. apply strptime_strftime in Va, Vb.
  rewrite E in Va. congruence.
Qed.

Lemma strptime_valida s d : strptime s = Some d -> valida d = true.
Proof.
  unfold strptime.
  destruct (leer_mes s) as [[m r1] |]; [| discriminate].
  destruct (leer_dia r1) as [[dd r2] |]; [| discriminate].
  destruct (leer_anio r2) as [y |]; [| discriminate].
  destruct (valida (mkdate y m dd)) eqn:V; [| discriminate].
  intros E; injection E as <-. exact V.
Qed.

End Fechas.

(** * ORDER BY *)

Section Ordenar.
Import Base.
Context {A : Type} (le : A -> A -> bool).

Lemma colocar_perm x l : Permutation (colocar le x l) (x :: l).
Proof.
  induction l as [| y l IH]; cbn [colocar]; [reflexivity |].
  destruct (le x y); [reflexivity |].
  rewrite IH. apply perm_swap.
Qed.

Lemma ordenar_perm l : Permutation (ordenar le l) l.
Proof.
  induction l as [| x l IH]; cbn [ordenar]; [reflexivity |].
  rewrite colocar_perm. now constructor.
Qed.

Lemma ordenar_In x l : In x (ordenar le l) <-> In x l.
Proof.
  split; apply Permutation_in;
    [apply ordenar_perm | symmetry; apply ordenar_perm].
Qed.

Lemma ordenar_nil l : ordenar le l = [] -> l = [].
Proof.
  intros E. apply Permutation_nil. rewrite <- E. apply ordenar_perm.
Qed.

Hypothesis le_total : forall a b, le a b = false -> le b a = true.

Lemma colocar_ordenada x l :
  Sorted (fun a b => le a b = true) l ->
  Sorted (fun a b => le a b = true) (colocar le x l).
Proof.
  induction 1 as [| y l Hs IH Hd]; cbn [colocar].
  - repeat constructor.
  - destruct (le x y) eqn:E.
    + repeat constructor; assumption.
    + constructor; [exact IH |].
      destruct Hd as [| z l Hz]; cbn [colocar].
      * constructor. now apply le_total.
      * destruct (le x z); constructor; auto.
Qed.

Lemma ordenar_ordenada l : Sorted (fun a b => le a b = true) (ordenar le l).
Proof.
  induction l as [| x l IH]; cbn [ordenar]; [constructor |].
  now apply colocar_ordenada.
Qed.

End Ordenar.

(** * Text order *)

Section OrdenTexto.

Lemma ascii_compare_lt a b : Ascii.compare a b = Lt <-> (N_of_ascii a < N_of_ascii b)%N.
Proof. unfold Ascii.compare. apply N.compare_lt_iff. Qed.

Lemma ascii_compare_eq a b : Ascii.compare a b = Eq <-> a = b.
Proof.
  unfold Ascii.compare. rewrite N.compare_eq_iff. split; [| congruence].
  intros E. rewrite <- (ascii_N_embedding a), <- (ascii_N_embedding b).
  now rewrite E.
Qed.

Lemma compare_lt_trans s : forall t u,
  String.compare s t = Lt -> String.compare t u = Lt -> String.compare s u = Lt.
Proof.
  induction s as [| a s IH]; intros [| b t] [| c u]; cbn [String.compare];
    try congruence.
  destruct (Ascii.compare a b) eqn:Eab; try discriminate;
    destruct (Ascii.compare b c) eqn:Ebc; try discriminate; intros H1 H2.
  - apply -> ascii_compare_eq in Eab. apply -> ascii_compare_eq in Ebc. subst.
    replace (Ascii.compare c c) with Eq by (symmetry; now apply ascii_compare_eq).
    eauto.
  - apply -> ascii_compare_eq in Eab. subst. now rewrite Ebc.
  - apply -> ascii_compare_eq in Ebc. subst. now rewrite Eab.
  - apply -> ascii_compare_lt in Eab. apply -> ascii_compare_lt in Ebc.
    replace (Ascii.compare a c) with Lt; [reflexivity |].
    symmetry. apply ascii_compare_lt. lia.
Qed.

Lemma compare_gt_lt s t : String.compare s t = Gt -> String.compare t s = Lt.
Proof. intros H. rewrite String.compare_antisym, H. reflexivity. Qed.

Lemma compare_refl s : String.compare s s = Eq.
Proof.
  induction s as [| a s IH]; cbn [String.compare]; [reflexivity |].
  replace (Ascii.compare a a) with Eq; [exact IH |].
  symmetry. now apply ascii_compare_eq.
Qed.

Lemma compare_eq s t : String.compare s t = Eq <-> s = t.
Proof.
  split; [apply String.compare_eq_iff | intros ->; apply compare_refl].
Qed.

End OrdenTexto.

(** * The statements on the table of reservations *)

Section Sentencias.
Import Base Consola Reservas Estado.

Lemma nueva_clave_seq seq claves : seq < nueva_clave seq claves.
Proof.
  unfold nueva_clave. induction claves as [| k l IH]; cbn [fold_right]; lia.
Qed.

Lemma nueva_clave_mayor seq claves k :
  In k claves -> k < nueva_clave seq claves.
Proof.
  unfold nueva_clave. induction claves as [| x l IH]; cbn [fold_right In].
  - tauto.
  - intros [-> | H]; [lia | specialize (IH H); lia].
Qed.

Lemma nueva_clave_fuera seq claves : ~ In (nueva_clave seq claves) claves.
Proof. intros H. apply (nueva_clave_mayor seq) in H. lia. Qed.

Lemma misma_terna_spec sid f t r :
  misma_terna sid f t r = true <-> terna r = (sid, f, t).
Proof.
  unfold misma_terna, terna.
  rewrite !andb_true_iff, Z.eqb_eq, !String.eqb_eq.
  split; [intros [[-> ->] ->]; reflexivity | intros [= -> -> ->]; auto].
Qed.

Lemma misma_terna_propia r :
  misma_terna (sala_id r) (fecha r) (turno r) r = true.
Proof. now apply misma_terna_spec. Qed.

Lemma existsb_ocupado b sid f t :
  existsb (misma_terna sid f t) (reservaciones b) = true <-> ocupado b sid f t.
Proof.
  rewrite existsb_exists. unfold ocupado.
  split; intros (r & Hr & H); exists r.
  - apply misma_terna_spec in H. injection H as -> -> ->. auto.
  - destruct H as (<- & <- & <-). split; [assumption | apply misma_terna_propia].
Qed.

Lemma filter_nada {X : Type} (p : X -> bool) (l : list X) :
  (forall y, In y l -> p y = false) -> filter p l = [].
Proof.
  induction l as [| a l IH]; intros H; cbn [filter]; [reflexivity |].
  rewrite (H a) by now left. apply IH. intros y Hy. apply H. now right.
Qed.

(** The rows with a given value in a column that has no repetition. *)
Lemma filter_unico {X K : Type} (clave : X -> K) (p : X -> bool) (l : list X) x :
  NoDup (map clave l) -> In x l ->
  (forall y, p y = true <-> clave y = clave x) ->
  filter p l = [x].
Proof.
  intros N Hx Hp. induction l as [| a l IH]; [destruct Hx |].
  cbn [map] in N. inversion N as [| ? ? Ha Nl]; subst.
  assert (Hfuera : forall y, In y l -> clave y = clave a -> False).
  { intros y Hy E. apply Ha. rewrite <- E. now apply in_map. }
  cbn [filter]. destruct Hx as [-> | Hx].
  - replace (p x) with true by (symmetry; now apply Hp).
    f_equal. apply filter_nada. intros y Hy.
    destruct (p y) eqn:E; [| reflexivity].
    exfalso. apply (Hfuera y Hy). now apply Hp.
  - destruct (p a) eqn:E.
    + exfalso. apply Hp in E. apply (Hfuera x Hx). now symmetry.
    + now apply IH.
Qed.

Lemma insertar_ocupado b fol cid ev r :
  In r (reservaciones b) ->
  insertar_reservacion b fol cid (sala_id r) (fecha r) (turno r) ev = None.
Proof.
  intros H. unfold insertar_reservacion.
  replace (existsb (misma_terna (sala_id r) (fecha r) (turno r))
             (reservaciones b)) with true.
  - now rewrite orb_true_r.
  - symmetry. apply existsb_exists. exists r. split; [assumption |].
    apply misma_terna_propia.
Qed.

Lemma map_donde_id_fuera k cambio (l : list reservacion) :
  ~ In k (map r_id l) -> map (donde_id r_id k cambio) l = l.
Proof.
  induction l as [| a l IH]; cbn [map]; intros H; [reflexivity |].
  unfold donde_id at 1.
  destruct (r_id a =? k) eqn:E.
  - apply Z.eqb_eq in E. exfalso. apply H. now left.
  - f_equal. apply IH. intros Hk. apply H. now right.
Qed.

Lemma sin_folio_vacio b :
  integra b -> existsb (fun r => String.eqb (folio r) "") (reservaciones b) = false.
Proof.
  intros I. apply not_true_is_false. intros H.
  apply existsb_exists in H. destruct H as (r & Hr & E).
  apply String.eqb_eq in E. rewrite (int_folios b I r Hr) in E.
  discriminate.
Qed.

(** On a file the program wrote, the insertion of
    [registrar_reservacion] is decided by the three columns alone: it is
    refused when the room is taken on that date and shift and leaves the
    file as it was; otherwise both statements go through. *)
Lemma guardar_integra b cid sid f t ev :
  integra b ->
  guardar_reservacion b cid sid f t ev
  = if existsb (misma_terna sid f t) (reservaciones b)
    then (b, [ErrorSalaReservada])
    else (con_reservacion b cid sid f t ev,
          [ReservacionRegistrada
             (generar_folio
                (nueva_clave (seq_reservaciones b)
                   (map r_id (reservaciones b))))]).
Proof.
  intros I. unfold guardar_reservacion, insertar_reservacion.
  rewrite (sin_folio_vacio b I). cbn [orb].
  destruct (existsb (misma_terna sid f t) (reservaciones b)); [reflexivity |].
  set (k := nueva_clave (seq_reservaciones b) (map r_id (reservaciones b))).
  assert (Hk : ~ In k (map r_id (reservaciones b))) by apply nueva_clave_fuera.
  assert (Hpos : 0 <= k).
  { pose proof (nueva_clave_seq (seq_reservaciones b)
                  (map r_id (reservaciones b))).
    pose proof (int_seq b I). subst k. lia. }
  unfold actualizar_folio. cbn [reservaciones clientes salas seq_clientes
                               seq_salas seq_reservaciones].
  replace (existsb (fun r => negb (r_id r =? k)
                             && String.eqb (folio r) (generar_folio k))
             (reservaciones b ++ [mkreservacion k "" cid sid f t ev]))
    with false.
  - rewrite andb_false_r. unfold con_reservacion. fold k. f_equal. f_equal.
    rewrite map_app, map_donde_id_fuera by assumption.
    cbn [map]. unfold donde_id. cbn [r_id]. rewrite Z.eqb_refl. reflexivity.
  - symmetry. apply not_true_is_false. intros H.
    apply existsb_exists in H. destruct H as (r & Hr & E).
    apply andb_true_iff in E. destruct E as [E1 E2].
    apply negb_true_iff, Z.eqb_neq in E1. apply String.eqb_eq in E2.
    apply in_app_or in Hr. destruct Hr as [Hr | [<- | []]].
    + rewrite (int_folios b I r Hr) in E2.
      apply generar_folio_inyectiva in E2; try assumption; [contradiction |].
      pose proof (int_positivas b I r Hr). lia.
    + cbn [r_id] in E1. contradiction.
Qed.

End Sentencias.

(** * Rooms available on a date *)

Section Disponibles.
Import Base Consola Reservas Estado.

Lemma listar_salas_In b s : In s (listar_salas b) <-> In s (salas b).
Proof. apply ordenar_In. Qed.

Lemma listar_clientes_In b c : In c (listar_clientes b) <-> In c (clientes b).
Proof. apply ordenar_In. Qed.

Lemma contar_cero b sid f t :
  (contar_reservaciones b sid f t =? 0) = true <-> ~ ocupado b sid f t.
Proof.
  unfold contar_reservaciones. rewrite Z.eqb_eq, <- existsb_ocupado.
  split.
  - intros E H. apply existsb_exists in H. destruct H as (r & Hr & Hp).
    assert (Hin : In r (filter (misma_terna sid f t) (reservaciones b)))
      by (apply filter_In; auto).
    destruct (filter (misma_terna sid f t) (reservaciones b));
      [destruct Hin | cbn [List.length] in E; lia].
  - intros H. rewrite filter_nada; [reflexivity |].
    intros y Hy. destruct (misma_terna sid f t y) eqn:E; [| reflexivity].
    exfalso. apply H. apply existsb_exists. eauto.
Qed.

Lemma turnos_libres_In b sid d t :
  In t (turnos_libres b sid d) <->
  In t TURNOS /\ ~ ocupado b sid (Fecha.strftime d) t.
Proof. unfold turnos_libres. now rewrite filter_In, contar_cero. Qed.

(** A shift that is taken is not offered: within one session the loop for
    the shift turns it down before the insertion is reached. *)
Lemma turno_tomado_no_ofrecido b d r :
  In r (reservaciones b) -> fecha r = Fecha.strftime d ->
  ~ In (turno r) (turnos_libres b (sala_id r) d).
Proof.
  intros Hr E H. apply turnos_libres_In in H. destruct H as [_ H].
  apply H. exists r. auto.
Qed.

Lemma salas_disponibles_In b d x :
  In x (salas_disponibles_para_fecha b d) <->
  exists s, In s (salas b)
            /\ turnos_libres b (s_id s) d <> []
            /\ x = mkdisponible (s_id s) (s_nombre s) (s_cupo s)
                     (turnos_libres b (s_id s) d).
Proof.
  unfold salas_disponibles_para_fecha. rewrite in_flat_map.
  split.
  - intros (s & Hs & Hx). exists s. rewrite <- listar_salas_In.
    destruct (turnos_libres b (s_id s) d) eqn:E; [destruct Hx |].
    destruct Hx as [<- | []]. repeat split; [assumption | discriminate].
  - intros (s & Hs & Hn & ->). exists s. rewrite listar_salas_In.
    split; [assumption |].
    destruct (turnos_libres b (s_id s) d); [contradiction | now left].
Qed.

End Disponibles.

(** * What the loops return *)

Section Lecturas.
Import Base Consola Reservas Estado.

Lemma decir_Sigue {A : Type} m (l : lectura A) a r d :
  decir m l = Sigue a r d -> exists d', l = Sigue a r d' /\ d = (m ++ d')%list.
Proof.
  destruct l as [a' r' d' | f d']; cbn [decir]; [| discriminate].
  intros [= -> -> <-]. eauto.
Qed.

Lemma ligar_Sigue {A B : Type} (m : lector A) (k : A -> lector B) es y r d :
  ligar m k es = Sigue y r d ->
  exists a r1 d1 d2,
    m es = Sigue a r1 d1 /\ k a r1 = Sigue y r d2 /\ d = (d1 ++ d2)%list.
Proof.
  unfold ligar. destruct (m es) as [a r1 d1 | f d1]; [| discriminate].
  intros H. apply decir_Sigue in H. destruct H as (d2 & H & ->).
  exists a, r1, d1, d2. auto.
Qed.

Lemma decir_decir {A : Type} m1 m2 (l : lectura A) :
  decir m1 (decir m2 l) = decir (m1 ++ m2) l.
Proof. destruct l; cbn [decir]; now rewrite app_assoc. Qed.

Lemma decir_nil {A : Type} (l : lectura A) : decir [] l = l.
Proof. now destruct l. Qed.

Lemma pedir_cliente_Sigue b cl es cid h r d :
  pedir_cliente b cl es = Sigue (cid, h) r d ->
  existsb (fun c => c_id c =? cid) cl = true.
Proof.
  revert d. induction es as [| e es IH]; intros d; cbn [pedir_cliente];
    [discriminate |].
  intros H. apply decir_Sigue in H. destruct H as (d' & H & _).
  destruct (String.eqb _ "c"); [discriminate |].
  destruct (Texto.int _) as [n |].
  - destruct (existsb (fun c => c_id c =? n) cl) eqn:E.
    + injection H as -> _ _ _. exact E.
    + apply decir_Sigue in H. destruct H as (d'' & H & _). eauto.
  - apply decir_Sigue in H. destruct H as (d'' & H & _). eauto.
Qed.

Lemma revisar_disponibilidad_Sigue b d0 resto otra d disp r dicho :
  revisar_disponibilidad b d0 resto otra = Sigue (d, disp) r dicho ->
  (disp = salas_disponibles_para_fecha b d /\ disp <> [] /\ d = d0)
  \/ exists dicho', otra = Sigue (d, disp) r dicho'.
Proof.
  unfold revisar_disponibilidad.
  destruct (salas_disponibles_para_fecha b d0) eqn:E.
  - intros H. apply decir_Sigue in H. destruct H as (d' & H & _). eauto.
  - intros [= <- <- _ _]. left. rewrite E. repeat split. discriminate.
Qed.

(** Induction on the lines left, one or two at a time. *)
Lemma lineas_ind (P : list entrada -> Prop) :
  P [] ->
  (forall e r, P r -> (forall e2 r2, r = e2 :: r2 -> P r2) -> P (e :: r)) ->
  forall es, P es.
Proof.
  intros H0 HS es.
  assert (H : P es /\ forall e2 r2, es = e2 :: r2 -> P r2).
  { induction es as [| e es [IH1 IH2]].
    - split; [assumption | discriminate].
    - split; [now apply HS | intros e2 r2 [= _ <-]; assumption]. }
  apply H.
Qed.

Lemma pedir_fecha_Sigue b m es : forall d disp r dicho,
  pedir_fecha b m es = Sigue (d, disp) r dicho ->
  disp = salas_disponibles_para_fecha b d /\ disp <> [].
Proof.
  induction es as [| e es IH1 IH2] using lineas_ind; intros d disp r dicho;
    cbn [pedir_fecha]; [discriminate |].
  intros H. apply decir_Sigue in H. destruct H as (d1 & H & _).
  destruct (parsear_fecha _) as [d0 |].
  2:{ apply decir_Sigue in H. destruct H as (d2 & H & _). eauto. }
  destruct (Fecha.ltb d0 m).
  { apply decir_Sigue in H. destruct H as (d2 & H & _). eauto. }
  destruct (es_domingo d0).
  - destruct (Fecha.sumar_dias 1 d0) as [p |]; [| discriminate].
    apply decir_Sigue in H. destruct H as (d2 & H & _).
    destruct es as [| e2 r2]; [discriminate |].
    destruct (String.eqb _ "s").
    + apply revisar_disponibilidad_Sigue in H.
      destruct H as [(-> & Hn & ->) | (d3 & H)]; [auto |].
      eapply IH2; eauto.
    + eapply IH2; eauto.
  - apply revisar_disponibilidad_Sigue in H.
    destruct H as [(-> & Hn & ->) | (d3 & H)]; [auto | eauto].
Qed.

Lemma pedir_sala_Sigue disp es n r d :
  pedir_sala disp es = Sigue n r d ->
  existsb (fun s => d_id s =? n) disp = true.
Proof.
  revert d. induction es as [| e es IH]; intros d; cbn [pedir_sala];
    [discriminate |].
  destruct (Texto.int _) as [k |].
  - destruct (k =? 0); [discriminate |].
    destruct (existsb (fun s => d_id s =? k) disp) eqn:E.
    + intros [= <- _ _]. exact E.
    + intros H. apply decir_Sigue in H. destruct H as (d' & H & _). eauto.
  - intros H. apply decir_Sigue in H. destruct H as (d' & H & _). eauto.
Qed.

Lemma pedir_turno_Sigue ts es t r d :
  pedir_turno ts es = Sigue t r d -> In t ts.
Proof.
  revert d. induction es as [| e es IH]; intros d; cbn [pedir_turno];
    [discriminate |].
  destruct (existsb _ ts) eqn:E.
  - intros [= <- _ _]. apply existsb_exists in E.
    destruct E as (x & Hx & E). apply String.eqb_eq in E. now subst.
  - intros H. apply decir_Sigue in H. destruct H as (d' & H & _). eauto.
Qed.

Lemma pedir_detalle_Sigue cid d0 disp es s r dicho :
  pedir_detalle cid d0 disp es = Sigue s r dicho ->
  sol_cliente s = cid /\ sol_fecha s = d0
  /\ exists x, In x disp /\ d_id x = sol_sala s /\ In (sol_turno s) (d_turnos x).
Proof.
  unfold pedir_detalle. intros H.
  apply ligar_Sigue in H. destruct H as ([] & r1 & d1 & d2 & H1 & H & _).
  apply ligar_Sigue in H. destruct H as (n & r2 & d3 & d4 & H2 & H & _).
  apply ligar_Sigue in H. destruct H as (x & r3 & d5 & d6 & H3 & H & _).
  apply ligar_Sigue in H. destruct H as ([] & r4 & d7 & d8 & H4 & H & _).
  apply ligar_Sigue in H. destruct H as (t & r5 & d9 & d10 & H5 & H & _).
  apply ligar_Sigue in H. destruct H as (ev & r6 & d11 & d12 & H6 & H & _).
  unfold ret in H. injection H as <- _ _. cbn.
  unfold evaluar in H3.
  destruct (find _ disp) as [x' |] eqn:F; [| discriminate].
  injection H3 as <- _ _. apply find_some in F. destruct F as [Hx E].
  apply Z.eqb_eq in E. apply pedir_turno_Sigue in H5.
  repeat split; eauto.
Qed.

Lemma pedir_solicitud_Sigue b cl es s r dicho :
  pedir_solicitud b cl es = Sigue s r dicho ->
  existsb (fun c => c_id c =? sol_cliente s) cl = true
  /\ exists x, In x (salas_disponibles_para_fecha b (sol_fecha s))
               /\ d_id x = sol_sala s /\ In (sol_turno s) (d_turnos x).
Proof.
  unfold pedir_solicitud. intros H.
  apply ligar_Sigue in H. destruct H as ([cid h] & r1 & d1 & d2 & H1 & H & _).
  apply ligar_Sigue in H. destruct H as (m & r2 & d3 & d4 & H2 & H & _).
  apply ligar_Sigue in H.
  destruct H as ([d0 disp] & r3 & d5 & d6 & H3 & H & _).
  apply pedir_cliente_Sigue in H1. apply pedir_fecha_Sigue in H3.
  apply pedir_detalle_Sigue in H. destruct H3 as [-> _].
  destruct H as (-> & -> & x & Hx & E & Ht). split; [assumption |]. eauto.
Qed.

End Lecturas.

(** * What the program keeps true of the file *)

Section Invariante.
Import Base Consola Reservas Estado.

Lemma integra_vacia : integra vacia.
Proof.
  constructor; cbn; try constructor; try tauto; try lia.
Qed.

Lemma NoDup_nueva (l : list Z) k : NoDup l -> ~ In k l -> NoDup (l ++ [k]).
Proof.
  intros N H. apply NoDup_app; [assumption | repeat constructor; tauto |].
  intros x Hx [<- | []]. contradiction.
Qed.

Lemma registrar_cliente_final b es :
  final (registrar_cliente b es) = b
  \/ exists n a, final (registrar_cliente b es) = fst (insertar_cliente b n a).
Proof.
  unfold registrar_cliente.
  destruct (ligar _ _ es) as [[n a] r d | f d]; [right | now left].
  exists n, a. reflexivity.
Qed.

Lemma integra_insertar_cliente b n a :
  integra b -> integra (fst (insertar_cliente b n a)).
Proof.
  intros [I1 I2 I3 I4 I5 I6 I7 I8 I9].
  constructor; cbn; auto.
  - rewrite map_app. cbn [map]. apply NoDup_nueva; [assumption |].
    apply nueva_clave_fuera.
  - intros r Hr. destruct (I9 r Hr) as [Hc Hs]. split; [| assumption].
    rewrite map_app. apply in_or_app. now left.
Qed.

Lemma registrar_sala_final b es :
  final (registrar_sala b es) = b
  \/ exists n c k, insertar_sala b n c = Some (final (registrar_sala b es), k).
Proof.
  unfold registrar_sala.
  destruct (ligar _ _ es) as [[n c] r d | f d]; [| now left].
  destruct (insertar_sala b n c) as [[b' k] |] eqn:E; [right | now left].
  exists n, c, k. exact E.
Qed.

Lemma integra_insertar_sala b n c b' k :
  integra b -> insertar_sala b n c = Some (b', k) -> integra b'.
Proof.
  intros [I1 I2 I3 I4 I5 I6 I7 I8 I9]. unfold insertar_sala.
  destruct (0 <? c) eqn:E; [| discriminate]. apply Z.ltb_lt in E.
  destruct (c <=? MAX_INTEGER); [| discriminate]. cbn [andb].
  intros [= <- _]. constructor; cbn; auto.
  - rewrite map_app. cbn [map]. apply NoDup_nueva; [assumption |].
    apply nueva_clave_fuera.
  - intros s Hs. apply in_app_or in Hs. destruct Hs as [Hs | [<- | []]]; auto.
  - intros r Hr. destruct (I9 r Hr) as [Hc Hs]. split; [assumption |].
    rewrite map_app. apply in_or_app. now left.
Qed.

Lemma integra_con_reservacion b cid sid f t ev :
  integra b ->
  In cid (map c_id (clientes b)) -> In sid (map s_id (salas b)) ->
  existsb (misma_terna sid f t) (reservaciones b) = false ->
  integra (con_reservacion b cid sid f t ev).
Proof.
  intros [I1 I2 I3 I4 I5 I6 I7 I8 I9] Hc Hs Hl.
  pose proof (nueva_clave_seq (seq_reservaciones b)
                (map r_id (reservaciones b))) as Hk.
  constructor; cbn; auto.
  - rewrite map_app. cbn [map]. apply NoDup_nueva; [assumption |].
    apply nueva_clave_fuera.
  - intros r Hr. apply in_app_or in Hr.
    destruct Hr as [Hr | [<- | []]]; [auto | cbn; lia].
  - lia.
  - intros r Hr. apply in_app_or in Hr.
    destruct Hr as [Hr | [<- | []]]; [auto | reflexivity].
  - rewrite map_app. cbn [map]. apply NoDup_app; [assumption | repeat constructor; tauto |].
    intros x Hx [<- | []]. apply in_map_iff in Hx.
    destruct Hx as (r & E & Hr).
    assert (H : existsb (misma_terna sid f t) (reservaciones b) = true).
    { apply existsb_exists. exists r. split; [assumption |].
      now apply misma_terna_spec. }
    congruence.
  - intros r Hr. apply in_app_or in Hr.
    destruct Hr as [Hr | [<- | []]]; [auto | cbn; auto].
Qed.

Lemma existsb_clave {X : Type} (clave : X -> Z) k (l : list X) :
  existsb (fun x => clave x =? k) l = true -> In k (map clave l).
Proof.
  intros H. apply existsb_exists in H. destruct H as (x & Hx & E).
  apply Z.eqb_eq in E. subst. now apply in_map.
Qed.

(** The references of a request that went through all the questions. *)
Lemma solicitud_referencias b es s r dicho :
  pedir_solicitud b (listar_clientes b) es = Sigue s r dicho ->
  In (sol_cliente s) (map c_id (clientes b))
  /\ In (sol_sala s) (map s_id (salas b))
  /\ In (sol_turno s) TURNOS
  /\ existsb (misma_terna (sol_sala s) (Fecha.strftime (sol_fecha s))
                (sol_turno s)) (reservaciones b) = false.
Proof.
  intros H. apply pedir_solicitud_Sigue in H.
  destruct H as (Hc & x & Hx & E & Ht).
  apply salas_disponibles_In in Hx. destruct Hx as (sa & Hsa & _ & ->).
  cbn [d_id d_turnos] in *. apply turnos_libres_In in Ht.
  destruct Ht as [Ht Hl]. repeat split.
  - apply existsb_clave in Hc. apply in_map_iff in Hc.
    destruct Hc as (c & <- & Hc). apply in_map.
    now apply listar_clientes_In.
  - rewrite <- E. now apply in_map.
  - assumption.
  - apply not_true_is_false. intros H. apply Hl.
    rewrite <- E in H. now apply existsb_ocupado.
Qed.

(** In one session on a file the program wrote, the insertion, once
    reached, goes through: the shift chosen was free when the rooms were
    listed and the file has not changed since. *)
Lemma guardar_solicitud b es s r dicho :
  integra b ->
  pedir_solicitud b (listar_clientes b) es = Sigue s r dicho ->
  guardar_reservacion b (sol_cliente s) (sol_sala s)
    (Fecha.strftime (sol_fecha s)) (sol_turno s) (sol_evento s)
  = (con_reservacion b (sol_cliente s) (sol_sala s)
       (Fecha.strftime (sol_fecha s)) (sol_turno s) (sol_evento s),
     [ReservacionRegistrada
        (generar_folio
           (nueva_clave (seq_reservaciones b) (map r_id (reservaciones b))))]).
Proof.
  intros I H. apply solicitud_referencias in H.
  destruct H as (_ & _ & _ & Hl). rewrite guardar_integra by assumption.
  now rewrite Hl.
Qed.

Lemma integra_registrar_reservacion b es :
  integra b -> integra (final (registrar_reservacion b es)).
Proof.
  intros I. unfold registrar_reservacion.
  destruct (listar_clientes b) as [| c cl] eqn:Ecl; [exact I |].
  rewrite <- Ecl.
  destruct (pedir_solicitud b (listar_clientes b) es) as [s r d | f d] eqn:E;
    cbn [concluir]; [| exact I].
  rewrite (guardar_solicitud b es s r d I E). cbn [final].
  apply solicitud_referencias in E. destruct E as (Hc & Hs & _ & Hl).
  now apply integra_con_reservacion.
Qed.

Lemma editar_nombre_evento_final b es :
  final (editar_nombre_evento b es) = b
  \/ exists k ev,
       final (editar_nombre_evento b es) = actualizar_nombre_evento b ev k.
Proof.
  unfold editar_nombre_evento.
  destruct (pedir_edicion b es) as [[k ev] r d | f d]; [right | now left].
  exists k, ev. reflexivity.
Qed.

Lemma map_donde_id_columna {K : Type} (col : reservacion -> K) k cambio
    (l : list reservacion) :
  (forall r, col (cambio r) = col r) ->
  map col (map (donde_id r_id k cambio) l) = map col l.
Proof.
  intros H. rewrite map_map. apply map_ext. intros r. unfold donde_id.
  destruct (r_id r =? k); auto.
Qed.

Lemma integra_actualizar_nombre_evento b ev k :
  integra b -> integra (actualizar_nombre_evento b ev k).
Proof.
  intros [I1 I2 I3 I4 I5 I6 I7 I8 I9].
  assert (Hin : forall r,
             In r (map (donde_id r_id k (con_nombre_evento ev))
                     (reservaciones b)) ->
             exists r0, In r0 (reservaciones b)
                        /\ r_id r = r_id r0 /\ folio r = folio r0
                        /\ cliente_id r = cliente_id r0
                        /\ sala_id r = sala_id r0).
  { intros r Hr. apply in_map_iff in Hr. destruct Hr as (r0 & <- & Hr0).
    exists r0. unfold donde_id. destruct (r_id r0 =? k); cbn; auto. }
  constructor; cbn; auto.
  - now rewrite map_donde_id_columna.
  - intros r Hr. destruct (Hin r Hr) as (r0 & H0 & -> & _). auto.
  - intros r Hr. destruct (Hin r Hr) as (r0 & H0 & -> & -> & _). auto.
  - now rewrite map_donde_id_columna.
  - intros r Hr. destruct (Hin r Hr) as (r0 & H0 & _ & _ & -> & ->). auto.
Qed.

(** Every state the program can leave the file in is [integra]. *)
Lemma alcanzable_integra b : alcanzable b -> integra b.
Proof.
  induction 1 as [| b es _ IH | b es _ IH | b es _ IH | b es _ IH].
  - apply integra_vacia.
  - destruct (registrar_cliente_final b es) as [-> | (n & a & ->)];
      [assumption | now apply integra_insertar_cliente].
  - destruct (registrar_sala_final b es) as [-> | (n & c & k & E)];
      [assumption | eapply integra_insertar_sala; eauto].
  - now apply integra_registrar_reservacion.
  - destruct (editar_nombre_evento_final b es) as [-> | (k & ev & ->)];
      [assumption | now apply integra_actualizar_nombre_evento].
Qed.

Lemma folios_sin_repetir (l : list reservacion) :
  NoDup (map r_id l) ->
  (forall r, In r l -> 0 < r_id r) ->
  (forall r, In r l -> folio r = generar_folio (r_id r)) ->
  NoDup (map folio l).
Proof.
  induction l as [| a l IH]; cbn [map]; intros N Hp Hf; [constructor |].
  inversion N as [| ? ? Ha Nl]; subst. constructor.
  - intros H. apply in_map_iff in H. destruct H as (r & E & Hr).
    apply Ha. rewrite (Hf r), (Hf a) in E by (cbn; auto).
    apply generar_folio_inyectiva in E.
    + rewrite <- E. now apply in_map.
    + pose proof (Hp r). cbn in *. intuition lia.
    + pose proof (Hp a). cbn in *. intuition lia.
  - apply IH; [assumption | |]; intros r Hr; [apply Hp | apply Hf]; now right.
Qed.

(** It then meets the constraints of the schema. *)
Lemma integra_esquema b : integra b -> esquema b.
Proof.
  intros [I1 I2 I3 I4 I5 I6 I7 I8 I9]. constructor; auto.
  now apply folios_sin_repetir.
Qed.

End Invariante.

(** * The example session *)

Section Sesion.
Import Base Consola Reservas Estado Ejemplo.

Lemma alcanzable_b_inicial : alcanzable b_inicial.
Proof. unfold b_inicial. apply alc_sala, alc_cliente, alc_vacia. Qed.

Lemma alcanzable_b_una : alcanzable b_una.
Proof. unfold b_una. apply alc_reservacion, alcanzable_b_inicial. Qed.

Lemma alcanzable_b_dos : alcanzable b_dos.
Proof. unfold b_dos. apply alc_reservacion, alcanzable_b_una. Qed.

Lemma alcanzable_b_cuatro : alcanzable b_cuatro.
Proof. unfold b_cuatro. do 2 apply alc_reservacion. apply alcanzable_b_dos. Qed.

End Sesion.

(** * Availability *)

Section Disponibilidad.
Import Base Consola Reservas Estado.

(** C8.  For every file and every date, a registered room is in the list
    of [salas_disponibles_para_fecha] exactly when one of the three shifts
    has no reservation for that room and date; an element of the list is a
    registered room with a non-empty list of shifts, and the shifts listed
    are exactly the shifts of [TURNOS] that have no reservation for the
    room on the date. *)
Theorem C8_salas_disponibles (b : base) (d : Fecha.date) :
  (forall s, In s (salas b) ->
     ((exists x, In x (salas_disponibles_para_fecha b d) /\ d_id x = s_id s)
      <-> exists t, In t TURNOS /\ ~ ocupado b (s_id s) (Fecha.strftime d) t))
  /\ (forall x, In x (salas_disponibles_para_fecha b d) ->
        (exists s, In s (salas b) /\ d_id x = s_id s
                   /\ d_nombre x = s_nombre s /\ d_cupo x = s_cupo s)
        /\ d_turnos x <> []
        /\ forall t, In t (d_turnos x) <->
                     In t TURNOS
                     /\ ~ ocupado b (d_id x) (Fecha.strftime d) t).
Proof.
  split.
  - intros s Hs. split.
    + intros (x & Hx & E). apply salas_disponibles_In in Hx.
      destruct Hx as (s' & _ & Hn & ->). cbn [d_id] in E.
      destruct (turnos_libres b (s_id s') d) as [| t l] eqn:El;
        [contradiction |].
      exists t. rewrite <- E. apply turnos_libres_In. rewrite El. now left.
    + intros (t & Ht). apply turnos_libres_In in Ht.
      exists (mkdisponible (s_id s) (s_nombre s) (s_cupo s)
                (turnos_libres b (s_id s) d)).
      split; [| reflexivity]. apply salas_disponibles_In. exists s.
      repeat split; [assumption |]. intros E. rewrite E in Ht. destruct Ht.
  - intros x Hx. apply salas_disponibles_In in Hx.
    destruct Hx as (s & Hs & Hn & ->). cbn [d_id d_nombre d_cupo d_turnos].
    split; [exists s; auto |]. split; [assumption |].
    intros t. apply turnos_libres_In.
Qed.

End Disponibilidad.

(** * The insertion *)

Section Insercion.
Import Base Consola Reservas Estado.

(** C2.  On a file the program wrote, when the insertion of
    [registrar_reservacion] reports the error, the file is what it was
    before the attempt: no row was added, and no row carries the empty
    folio. *)
Theorem C2_fallo_sin_rastro (b b' : base) (cid sid : Z) (f t ev : string)
    (m : list mensaje) :
  alcanzable b ->
  guardar_reservacion b cid sid f t ev = (b', m) ->
  In ErrorSalaReservada m ->
  b' = b /\ forall r, In r (reservaciones b') -> folio r <> "".
Proof.
  intros A E Hm. apply alcanzable_integra in A.
  rewrite guardar_integra in E by assumption.
  destruct (existsb (misma_terna sid f t) (reservaciones b)).
  - injection E as <- _. split; [reflexivity |].
    intros r Hr. rewrite (int_folios b A r Hr). apply generar_folio_no_vacio.
  - injection E as _ <-. destruct Hm as [Hm | []]. discriminate.
Qed.

(** C9.  On a file the program wrote, two rows of [reservaciones] at
    different places have different folios, and the folio of a row is
    [generar_folio] of its key: the letter R and, for a key below one
    million, the six digits of the key. *)
Theorem C9_folios (b : base) :
  alcanzable b ->
  (forall i j ri rj,
      nth_error (reservaciones b) i = Some ri ->
      nth_error (reservaciones b) j = Some rj ->
      i <> j -> folio ri <> folio rj)
  /\ (forall r, In r (reservaciones b) ->
        0 < r_id r
        /\ folio r = generar_folio (r_id r)
        /\ (r_id r < 1000000 -> folio r = R_y_seis_digitos (r_id r))).
Proof.
  intros A. apply alcanzable_integra in A. split.
  - intros i j ri rj Hi Hj Hij E. apply Hij.
    pose proof (unique_folio b (integra_esquema b A)) as N.
    rewrite NoDup_nth_error in N. apply N.
    + rewrite length_map. apply nth_error_Some. congruence.
    + rewrite !nth_error_map, Hi, Hj. cbn. now rewrite E.
  - intros r Hr. pose proof (int_positivas b A r Hr).
    pose proof (int_folios b A r Hr) as F. repeat split; try assumption.
    intros Hlt. rewrite F. apply generar_folio_seis_digitos. lia.
Qed.

End Insercion.

Section Testigos.
Import Base Consola Reservas Estado Ejemplo.

(** C2 on the example: the refused insertion leaves [b_una] as it was. *)
Lemma C2_testigo :
  guardar_reservacion b_una 1 1 "11-09-2026" "Vespertino" "Otro"
  = (b_una, [ErrorSalaReservada])
  /\ (b_una = b_una
      /\ forall r, In r (reservaciones b_una) -> folio r <> "").
Proof.
  assert (E : guardar_reservacion b_una 1 1 "11-09-2026" "Vespertino" "Otro"
              = (b_una, [ErrorSalaReservada])) by (vm_compute; reflexivity).
  split; [exact E |].
  apply (C2_fallo_sin_rastro b_una b_una 1 1 "11-09-2026" "Vespertino" "Otro"
           [ErrorSalaReservada]).
  - apply alcanzable_b_una.
  - exact E.
  - simpl. auto.
Defined.

(** C9 on the example: the four folios of [b_cuatro]. *)
Lemma C9_testigo :
  (forall i j ri rj,
      nth_error (reservaciones b_cuatro) i = Some ri ->
      nth_error (reservaciones b_cuatro) j = Some rj ->
      i <> j -> folio ri <> folio rj)
  /\ (forall r, In r (reservaciones b_cuatro) ->
        0 < r_id r
        /\ folio r = generar_folio (r_id r)
        /\ (r_id r < 1000000 -> folio r = R_y_seis_digitos (r_id r))).
Proof. apply (C9_folios b_cuatro). apply alcanzable_b_cuatro. Defined.

End Testigos.

(** * Editing the name of an event *)

Section Edicion.
Import Base Consola Reservas Estado.

Lemma dicho_de_decir {A : Type} m (l : lectura A) :
  dicho_de (decir m l) = (m ++ dicho_de l)%list.
Proof. now destruct l. Qed.

Lemma dicho_de_ligar {A B : Type} (m : lector A) (k : A -> lector B) es :
  dicho_de (ligar m k es)
  = match m es with
    | Sigue a r d => (d ++ dicho_de (k a r))%list
    | Corta _ d => d
    end.
Proof.
  unfold ligar. destruct (m es); [apply dicho_de_decir | reflexivity].
Qed.

Lemma pedir_no_vacio_dice queja es x :
  In x (dicho_de (pedir_no_vacio queja es)) -> x = queja.
Proof.
  induction es as [| e es IH]; cbn [pedir_no_vacio dicho_de In]; [tauto |].
  destruct (Texto.strip (linea e)); cbn [dicho_de In]; [| tauto].
  rewrite dicho_de_decir. cbn [app In]. intuition.
Qed.

Lemma pedir_desde_dice es x :
  In x (dicho_de (pedir_desde es)) -> x = FormatoInvalido.
Proof.
  induction es as [| e es IH]; cbn [pedir_desde dicho_de In]; [tauto |].
  destruct (parsear_fecha _); cbn [dicho_de In]; [tauto |].
  rewrite dicho_de_decir. cbn [app In]. intuition.
Qed.

Lemma pedir_hasta_dice desde es x :
  In x (dicho_de (pedir_hasta desde es)) -> x = FormatoInvalidoOFinalAnterior.
Proof.
  induction es as [| e es IH]; cbn [pedir_hasta dicho_de In]; [tauto |].
  destruct (parsear_fecha _) as [h |]; [destruct (Fecha.leb desde h) |];
    cbn [dicho_de In]; try tauto;
    rewrite dicho_de_decir; cbn [app In]; intuition.
Qed.

Lemma pedir_evento_dice rows es x :
  In x (dicho_de (pedir_evento rows es)) ->
  x = OperacionCancelada \/ x = ClaveFueraDeListado \/ x = EntradaInvalida.
Proof.
  induction es as [| e es IH]; cbn [pedir_evento dicho_de In]; [tauto |].
  destruct (String.eqb _ "c"); [cbn; intuition |].
  destruct (Texto.int _) as [k |];
    [destruct (existsb (fun x0 => r_id x0 =? k) rows) |];
    cbn [dicho_de In]; try tauto;
    rewrite dicho_de_decir; cbn [app In]; intuition.
Qed.

Lemma ligar_dice {A B : Type} (m : lector A) (k : A -> lector B) es x :
  In x (dicho_de (ligar m k es)) ->
  In x (dicho_de (m es))
  \/ exists a r d, m es = Sigue a r d /\ In x (dicho_de (k a r)).
Proof.
  rewrite dicho_de_ligar. destruct (m es) as [a r d | f d]; cbn [dicho_de].
  - intros H. apply in_app_or in H. destruct H as [H | H]; [now left |].
    right. eauto.
  - now left.
Qed.

(** The questions of [editar_nombre_evento] never print the message of
    success. *)
Lemma pedir_edicion_calla b es :
  ~ In NombreActualizado (dicho_de (pedir_edicion b es)).
Proof.
  unfold pedir_edicion. intros H.
  apply ligar_dice in H.
  destruct H as [[H | []] | ([] & r0 & d0 & _ & H)]; [discriminate |].
  apply ligar_dice in H. destruct H as [H | (desde & r1 & d1 & _ & H)];
    [apply pedir_desde_dice in H; discriminate |].
  apply ligar_dice in H. destruct H as [H | (hasta & r2 & d2 & _ & H)];
    [apply pedir_hasta_dice in H; discriminate |].
  destruct (eventos_en_rango b desde hasta) as [| x rows];
    [destruct H as [H | []]; discriminate |].
  apply ligar_dice in H.
  destruct H as [[H | []] | ([] & r3 & d3 & _ & H)]; [discriminate |].
  apply ligar_dice in H. destruct H as [H | (k & r4 & d4 & _ & H)];
    [apply pedir_evento_dice in H; intuition discriminate |].
  apply ligar_dice in H. destruct H as [H | (ev & r5 & d5 & _ & H)];
    [apply pedir_no_vacio_dice in H; discriminate |].
  destruct H.
Qed.

Lemma pedir_evento_Sigue rows es k r d :
  pedir_evento rows es = Sigue k r d -> In k (map r_id rows).
Proof.
  revert d. induction es as [| e es IH]; intros d; cbn [pedir_evento];
    [discriminate |].
  destruct (String.eqb _ "c"); [discriminate |].
  destruct (Texto.int _) as [n |].
  - destruct (existsb (fun x => r_id x =? n) rows) eqn:E.
    + intros [= <- _ _]. now apply existsb_clave.
    + intros H. apply decir_Sigue in H. destruct H as (d' & H & _). eauto.
  - intros H. apply decir_Sigue in H. destruct H as (d' & H & _). eauto.
Qed.

Lemma eventos_en_rango_In b desde hasta r :
  In r (eventos_en_rango b desde hasta) -> In r (reservaciones b).
Proof.
  unfold eventos_en_rango, seleccionar_rango. rewrite ordenar_In, filter_In.
  tauto.
Qed.

Lemma pedir_edicion_Sigue b es k ev r d :
  pedir_edicion b es = Sigue (k, ev) r d -> In k (map r_id (reservaciones b)).
Proof.
  unfold pedir_edicion. intros H.
  apply ligar_Sigue in H. destruct H as ([] & r0 & d0 & d0' & _ & H & _).
  apply ligar_Sigue in H. destruct H as (desde & r1 & d1 & d1' & _ & H & _).
  apply ligar_Sigue in H. destruct H as (hasta & r2 & d2 & d2' & _ & H & _).
  destruct (eventos_en_rango b desde hasta) as [| x rows] eqn:E;
    [discriminate |].
  apply ligar_Sigue in H. destruct H as ([] & r3 & d3 & d3' & _ & H & _).
  apply ligar_Sigue in H. destruct H as (k' & r4 & d4 & d4' & Hk & H & _).
  apply ligar_Sigue in H. destruct H as (ev' & r5 & d5 & d5' & _ & H & _).
  unfold ret in H. injection H as <- _ _ _.
  apply pedir_evento_Sigue in Hk. rewrite <- E in Hk.
  apply in_map_iff in Hk. destruct Hk as (x0 & <- & Hx0).
  apply in_map. eapply eventos_en_rango_In; eauto.
Qed.

Lemma nth_error_donde_id k cambio (l : list reservacion) i r :
  nth_error l i = Some r ->
  nth_error (map (donde_id r_id k cambio) l) i
  = Some (if r_id r =? k then cambio r else r).
Proof. intros H. rewrite nth_error_map, H. reflexivity. Qed.

End Edicion.

(** * The report for a date *)

Section Reporte.
Import Base Consola Reservas Estado.

Lemma le_turno_sala_antes x y : le_turno_sala x y = true <-> antes x y.
Proof.
  destruct x as [[r1 s1] c1], y as [[r2 s2] c2].
  unfold le_turno_sala, le_texto_luego, antes, texto_lt. cbn [fst snd].
  destruct (String.compare (turno r1) (turno r2)) eqn:E.
  - apply compare_eq in E. rewrite Z.leb_le. split; [auto |].
    intros [H | [_ H]]; [discriminate | exact H].
  - split; auto.
  - split; [discriminate |]. intros [H | [H _]]; [discriminate |].
    apply compare_eq in H. congruence.
Qed.

Lemma le_turno_sala_total x y :
  le_turno_sala x y = false -> le_turno_sala y x = true.
Proof.
  destruct x as [[r1 s1] c1], y as [[r2 s2] c2].
  unfold le_turno_sala, le_texto_luego. cbn [fst snd].
  rewrite (String.compare_antisym (turno r1) (turno r2)).
  destruct (String.compare (turno r2) (turno r1)); cbn [CompOpp];
    try discriminate; [| reflexivity].
  intros H. apply Z.leb_gt in H. apply Z.leb_le. lia.
Qed.

Lemma antes_trans x y z : antes x y -> antes y z -> antes x z.
Proof.
  destruct x as [[r1 s1] c1], y as [[r2 s2] c2], z as [[r3 s3] c3].
  unfold antes, texto_lt.
  intros [H1 | [E1 H1]] [H2 | [E2 H2]].
  - left. eapply compare_lt_trans; eauto.
  - left. now rewrite <- E2.
  - left. now rewrite E1.
  - right. split; [congruence | lia].
Qed.

Lemma ordenada_antes l :
  Sorted (fun x y => le_turno_sala x y = true) l -> StronglySorted antes l.
Proof.
  intros H. apply Sorted_StronglySorted; [exact antes_trans |].
  induction H as [| x l Hs IH Hd]; constructor; [assumption |].
  destruct Hd; constructor. now apply le_turno_sala_antes.
Qed.

Lemma juntar_In b r0 r s c :
  In (r, s, c) (juntar b r0) <->
  r = r0 /\ In s (salas b) /\ s_id s = sala_id r
  /\ In c (clientes b) /\ c_id c = cliente_id r.
Proof.
  unfold juntar. rewrite in_flat_map. split.
  - intros (s' & Hs & H). apply filter_In in Hs. destruct Hs as [Hs Es].
    apply in_map_iff in H. destruct H as (c' & [= <- <- <-] & Hc).
    apply filter_In in Hc. destruct Hc as [Hc Ec].
    apply Z.eqb_eq in Es, Ec. auto.
  - intros (-> & Hs & Es & Hc & Ec). exists s. split.
    + apply filter_In. split; [assumption |]. apply Z.eqb_eq. auto.
    + apply in_map_iff. exists c. split; [reflexivity |].
      apply filter_In. split; [assumption |]. apply Z.eqb_eq. auto.
Qed.

(** C4, as the code has it.  For every file and date, the report holds
    one row for each reservation of the date (the text of the date in the
    program's format), each room with the key the reservation names and
    each client with the key it names; the rows are ordered by the text of
    the shift, which puts Matutino before Nocturno and Nocturno before
    Vespertino, and then by the key of the room; the table printed is
    those rows, column by column. *)
Theorem C4_reporte_por_fecha (b : base) (d : Fecha.date) :
  (forall r s c,
      In (r, s, c) (reservaciones_de_fecha b d) <->
      In r (reservaciones b) /\ fecha r = Fecha.strftime d
      /\ In s (salas b) /\ s_id s = sala_id r
      /\ In c (clientes b) /\ c_id c = cliente_id r)
  /\ Permutation (reservaciones_de_fecha b d)
       (flat_map (juntar b)
          (filter (fun r => String.eqb (fecha r) (Fecha.strftime d))
             (reservaciones b)))
  /\ StronglySorted antes (reservaciones_de_fecha b d)
  /\ texto_lt "Matutino" "Nocturno" /\ texto_lt "Nocturno" "Vespertino"
  /\ (forall e es,
        parsear_fecha (Texto.strip (linea e)) = Some d ->
        reservaciones_de_fecha b d <> [] ->
        salida (consultar_reservaciones b (e :: es))
        = [TablaReservaciones (map proyectar (reservaciones_de_fecha b d))]).
Proof.
  unfold reservaciones_de_fecha, seleccionar_por_fecha.
  split; [| split; [| split; [| split; [| split]]]].
  - intros r s c. rewrite ordenar_In, in_flat_map. split.
    + intros (r0 & Hr0 & H). apply juntar_In in H.
      destruct H as (-> & H). apply filter_In in Hr0.
      destruct Hr0 as [Hr0 E]. apply String.eqb_eq in E. tauto.
    + intros (Hr & E & H). exists r. split.
      * apply filter_In. split; [assumption | now apply String.eqb_eq].
      * apply juntar_In. tauto.
  - apply ordenar_perm.
  - apply ordenada_antes, ordenar_ordenada, le_turno_sala_total.
  - reflexivity.
  - reflexivity.
  - intros e es Hp Hn. unfold consultar_reservaciones.
    destruct (Texto.strip (linea e)) as [| a t] eqn:Es; [discriminate |].
    rewrite Hp. unfold reservaciones_de_fecha, seleccionar_por_fecha.
    destruct (ordenar le_turno_sala _); [contradiction | reflexivity].
Qed.

End Reporte.

Section ReporteEjemplo.
Import Base Consola Reservas Estado Ejemplo.

(** C4, as the specification words it, fails: with the afternoon and the
    night of one Monday booked, the report lists the night first, that is
    the third shift of [TURNOS] before the second. *)
Lemma C4_contraejemplo :
  map (fun x => turno (fst (fst x)))
    (reservaciones_de_fecha b_dos (Fecha.mkdate 2026 11 9))
  = ["Nocturno"; "Vespertino"]
  /\ map (fun t => lugar t TURNOS) ["Nocturno"; "Vespertino"] = [2%nat; 1%nat].
Proof. split; vm_compute; reflexivity. Qed.

(** C5: the code at two ranges.  The rows for a range are chosen and
    ordered by the text of the date, month first: a range that crosses the
    new year (1 December 2026 to 15 January 2027) shows nothing although
    21 December and 4 January are booked, and a range of two years lists
    January 2027 before November 2026. *)
Theorem C5_rango_por_texto :
  Fecha.leb (Fecha.mkdate 2026 12 1) (Fecha.mkdate 2027 1 15) = true
  /\ map fecha (reservaciones b_cuatro)
     = ["11-09-2026"; "11-09-2026"; "12-21-2026"; "01-04-2027"]
  /\ salida (editar_nombre_evento b_cuatro
               [teclea "12-01-2026"; teclea "01-15-2027"])
     = [PideRango; SinEventosEnRango]
  /\ map fecha
       (eventos_en_rango b_cuatro (Fecha.mkdate 2026 1 1)
          (Fecha.mkdate 2027 12 31))
     = ["01-04-2027"; "11-09-2026"; "11-09-2026"; "12-21-2026"].
Proof. repeat split; vm_compute; reflexivity. Qed.

End ReporteEjemplo.

(** * The loop for the date *)

Section BucleFecha.
Import Base Consola Reservas Estado.

Lemma pedir_cliente_app b cl es0 r cid h0 d0 :
  pedir_cliente b cl es0 = Sigue (cid, h0) [] d0 ->
  pedir_cliente b cl (es0 ++ r) = Sigue (cid, h0) r d0.
Proof.
  revert d0. induction es0 as [| e es0 IH]; intros d0;
    cbn [pedir_cliente app]; [discriminate |].
  intros H. apply decir_Sigue in H. destruct H as (d1 & H & ->).
  destruct (String.eqb _ "c"); [discriminate |].
  destruct (Texto.int _) as [n |].
  - destruct (existsb (fun c => c_id c =? n) cl).
    + injection H as -> -> -> <-. reflexivity.
    + apply decir_Sigue in H. destruct H as (d2 & H & ->).
      rewrite (IH _ H). reflexivity.
  - apply decir_Sigue in H. destruct H as (d2 & H & ->).
    rewrite (IH _ H). reflexivity.
Qed.

(** The client's key is the last line the first loop reads, and the date
    it returns is the date of that line. *)
Lemma pedir_cliente_ultima b cl es0 cid h0 d0 :
  pedir_cliente b cl es0 = Sigue (cid, h0) [] d0 ->
  exists antes e0, es0 = (antes ++ [e0])%list /\ hoy e0 = h0.
Proof.
  revert d0. induction es0 as [| e es0 IH]; intros d0;
    cbn [pedir_cliente]; [discriminate |].
  intros H. apply decir_Sigue in H. destruct H as (d1 & H & ->).
  destruct (String.eqb _ "c"); [discriminate |].
  destruct (Texto.int _) as [n |].
  - destruct (existsb (fun c => c_id c =? n) cl).
    + injection H as _ <- <- _. exists [], e. auto.
    + apply decir_Sigue in H. destruct H as (d2 & H & ->).
      destruct (IH _ H) as (a & e0 & -> & E). exists (e :: a), e0. auto.
  - apply decir_Sigue in H. destruct H as (d2 & H & ->).
    destruct (IH _ H) as (a & e0 & -> & E). exists (e :: a), e0. auto.
Qed.

Lemma decir_Espera {A : Type} m (l : lectura A) X :
  decir m l = Corta Espera X ->
  exists X', l = Corta Espera X' /\ X = (m ++ X')%list.
Proof.
  destruct l as [a r d | f d]; cbn [decir]; [discriminate |].
  intros [= -> <-]. eauto.
Qed.

Lemma quita_ultimo {X : Type} (m l d : list X) a :
  (m ++ l = d ++ [a])%list -> l <> [] ->
  exists l', l = (l' ++ [a])%list /\ d = (m ++ l')%list.
Proof.
  intros E Hn. destruct (exists_last Hn) as (l' & z & ->).
  rewrite app_assoc in E. apply app_inj_tail in E. destruct E as [<- ->].
  eauto.
Qed.

Lemma pedir_fecha_dice b m es :
  exists X, dicho_de (pedir_fecha b m es) = PideFecha (Fecha.strftime m) :: X.
Proof.
  destruct es as [| e r]; cbn [pedir_fecha]; [cbn; eauto |].
  rewrite dicho_de_decir. cbn [app]. eauto.
Qed.

Lemma pedir_fecha_Espera_no_vacia b m es X :
  pedir_fecha b m es = Corta Espera X -> X <> [].
Proof.
  intros E. destruct (pedir_fecha_dice b m es) as (Y & H).
  rewrite E in H. cbn in H. subst. discriminate.
Qed.

(** One more turn of the loop that ends in [continue]. *)
Lemma otra_vuelta b m M r' r dpre :
  (forall d', pedir_fecha b m r'
              = Corta Espera (d' ++ [PideFecha (Fecha.strftime m)]) ->
              pedir_fecha b m (r' ++ r) = decir d' (pedir_fecha b m r)) ->
  decir M (pedir_fecha b m r')
  = Corta Espera (dpre ++ [PideFecha (Fecha.strftime m)]) ->
  decir M (pedir_fecha b m (r' ++ r)) = decir dpre (pedir_fecha b m r).
Proof.
  intros IH H. apply decir_Espera in H. destruct H as (X & E & H).
  symmetry in H. apply quita_ultimo in H;
    [| eapply pedir_fecha_Espera_no_vacia; eauto].
  destruct H as (l' & -> & ->). rewrite (IH _ E). apply decir_decir.
Qed.

(** The lines the loop turned down can be left out of what follows. *)
Lemma pedir_fecha_app b m pre r : forall dpre,
  pedir_fecha b m pre = Corta Espera (dpre ++ [PideFecha (Fecha.strftime m)]) ->
  pedir_fecha b m (pre ++ r) = decir dpre (pedir_fecha b m r).
Proof.
  induction pre as [| e pre IH1 IH2] using lineas_ind; intros dpre.
  - cbn [pedir_fecha app]. intros [= E].
    change [PideFecha (Fecha.strftime m)]
      with ([] ++ [PideFecha (Fecha.strftime m)])%list in E at 1.
    apply app_inj_tail in E. destruct E as [<- _]. now rewrite decir_nil.
  - cbn [pedir_fecha app].
    destruct (parsear_fecha _) as [d |].
    2:{ rewrite !decir_decir. now apply otra_vuelta. }
    destruct (Fecha.ltb d m).
    { rewrite !decir_decir. now apply otra_vuelta. }
    destruct (es_domingo d).
    + destruct (Fecha.sumar_dias 1 d) as [p |]; [| discriminate].
      destruct pre as [| e2 r2]; cbn [app].
      * cbn [decir app]. intros [= E].
        change [PideFecha (Fecha.strftime m); ProponeLunes (Fecha.strftime p)]
          with ([PideFecha (Fecha.strftime m)]
                ++ [ProponeLunes (Fecha.strftime p)])%list in E.
        apply app_inj_tail in E. destruct E as [_ E]. discriminate.
      * destruct (String.eqb _ "s").
        -- unfold revisar_disponibilidad.
           destruct (salas_disponibles_para_fecha b p);
             [| discriminate].
           rewrite !decir_decir. apply otra_vuelta. eauto.
        -- rewrite !decir_decir. apply otra_vuelta. eauto.
    + unfold revisar_disponibilidad.
      destruct (salas_disponibles_para_fecha b d); [| discriminate].
      rewrite !decir_decir. now apply otra_vuelta.
Qed.

End BucleFecha.

(** * A session of [registrar_reservacion] at the prompt for the date *)

Section EnBucle.
Import Base Consola Reservas Estado.

Lemma ligar_cuando {A B : Type} (m : lector A) (k : A -> lector B) es es' X :
  m es = decir X (m es') -> ligar m k es = decir X (ligar m k es').
Proof.
  intros H. unfold ligar. rewrite H.
  destruct (m es') as [a r d | f d]; cbn [decir]; [| reflexivity].
  now rewrite decir_decir.
Qed.

Lemma en_bucle_minimo b es cid h0 m dicho :
  en_bucle_fecha b es cid h0 m dicho -> solicitar_fecha_minima h0 = Some m.
Proof. intros (es0 & pre & d0 & dpre & _ & _ & _ & H & _). exact H. Qed.

(** The day the minimum date was computed from is the day of one of the
    lines read: the line with the client's key. *)
Lemma en_bucle_dia b es cid h0 m dicho :
  en_bucle_fecha b es cid h0 m dicho ->
  exists antes e0 pre, es = (antes ++ e0 :: pre)%list /\ hoy e0 = h0.
Proof.
  intros (es0 & pre & d0 & dpre & -> & _ & H & _).
  apply pedir_cliente_ultima in H. destruct H as (a & e0 & -> & E).
  exists a, e0, pre. rewrite <- app_assoc. auto.
Qed.

(** From the prompt for the date, the function goes on as the questions
    from the date on, asked of the lines still to be read. *)
Lemma registrar_en_bucle b es cid h0 m dicho r :
  en_bucle_fecha b es cid h0 m dicho ->
  registrar_reservacion b (es ++ r)
  = concluir b (decir dicho (desde_fecha b cid m r)).
Proof.
  intros (es0 & pre & d0 & dpre & -> & Hn & Hc & Hm & Hf & ->).
  unfold registrar_reservacion.
  destruct (listar_clientes b) as [| c cl] eqn:E; [contradiction |].
  rewrite <- E in Hc |- *. f_equal. unfold pedir_solicitud.
  rewrite <- app_assoc. unfold ligar at 1.
  rewrite (pedir_cliente_app _ _ _ _ _ _ _ Hc).
  unfold ligar at 1. rewrite Hm. cbn [evaluar]. rewrite decir_nil.
  fold (desde_fecha b cid m (pre ++ r)%list). rewrite <- decir_decir. f_equal.
  unfold desde_fecha. apply ligar_cuando. now apply pedir_fecha_app.
Qed.

End EnBucle.

(** * The minimum date *)

Section FechaMinima.
Import Base Consola Reservas Estado.

Lemma salida_concluir_decir b dicho l :
  salida (concluir b (decir dicho l)) = (dicho ++ salida (concluir b l))%list.
Proof.
  destruct l as [s r d | f d]; cbn [decir concluir]; [| reflexivity].
  destruct (guardar_reservacion _ _ _ _ _ _) as [b' m]. cbn [salida].
  now rewrite app_assoc.
Qed.


Lemma salida_concluir b l :
  exists extra, salida (concluir b l) = (dicho_de l ++ extra)%list.
Proof.
  destruct l as [s r d | f d]; cbn [concluir dicho_de].
  - destruct (guardar_reservacion _ _ _ _ _ _) as [b' m]. cbn. eauto.
  - exists []. cbn. now rewrite app_nil_r.
Qed.

(** The message at the second place of what is printed from the prompt
    on: the answer to the line typed at the prompt. *)
Lemma respuesta_en_bucle b es cid h0 m dicho r :
  en_bucle_fecha b es cid h0 m dicho ->
  nth_error (salida (registrar_reservacion b (es ++ r))) (List.length dicho + 1)
  = nth_error (salida (concluir b (desde_fecha b cid m r))) 1.
Proof.
  intros H. rewrite (registrar_en_bucle _ _ _ _ _ _ r H).
  rewrite salida_concluir_decir, nth_error_app2 by lia.
  f_equal. lia.
Qed.

Lemma respuesta_dicha b (l : lectura solicitud) a x Y :
  dicho_de l = a :: x :: Y -> nth_error (salida (concluir b l)) 1 = Some x.
Proof.
  intros E. destruct (salida_concluir b l) as (extra & ->). now rewrite E.
Qed.

Lemma en_bucle_inicio b es0 cid h0 m d0 :
  listar_clientes b <> [] ->
  pedir_cliente b (listar_clientes b) es0 = Sigue (cid, h0) [] d0 ->
  solicitar_fecha_minima h0 = Some m ->
  en_bucle_fecha b es0 cid h0 m d0.
Proof.
  intros Hn Hc Hm. exists es0, [], d0, [].
  rewrite !app_nil_r. repeat split; auto.
Qed.

Lemma en_bucle_sigue b es cid h0 m dicho nuevas X :
  en_bucle_fecha b es cid h0 m dicho ->
  pedir_fecha b m nuevas = Corta Espera (X ++ [PideFecha (Fecha.strftime m)]) ->
  en_bucle_fecha b (es ++ nuevas) cid h0 m (dicho ++ X).
Proof.
  intros (es0 & pre & d0 & dpre & -> & Hn & Hc & Hm & Hf & ->) H.
  exists es0, (pre ++ nuevas)%list, d0, (dpre ++ X)%list.
  rewrite !app_assoc. repeat split; auto.
  rewrite (pedir_fecha_app _ _ _ nuevas _ Hf), H. cbn [decir].
  now rewrite !app_assoc.
Qed.

(** The answer to a date that reads well. *)
Lemma respuesta_a_fecha b cid m e r d :
  parsear_fecha (Texto.strip (linea e)) = Some d ->
  Fecha.ltb d m = true
  <-> nth_error (salida (concluir b (desde_fecha b cid m (e :: r)))) 1
      = Some FechaMuyProxima.
Proof.
  intros Hp. unfold desde_fecha, ligar. cbn [pedir_fecha]. rewrite Hp.
  destruct (Fecha.ltb d m).
  - split; [intros _ | reflexivity].
    destruct (pedir_fecha b m r) as [[d1 disp] r1 X | f X];
      cbn [decir app]; eapply respuesta_dicha;
      try rewrite dicho_de_decir; cbn [dicho_de app]; reflexivity.
  - split; [discriminate | intros H; exfalso].
    destruct (es_domingo d).
    + destruct (Fecha.sumar_dias 1 d) as [p |]; [| discriminate].
      destruct r as [| e2 r2]; [discriminate |].
      revert H.
      destruct (if String.eqb (Texto.lower (Texto.strip (linea e2))) "s"
                then revisar_disponibilidad b p r2 (pedir_fecha b m r2)
                else pedir_fecha b m r2) as [[d1 disp] r1 X | f X];
        cbn [decir app]; intros H;
        erewrite respuesta_dicha in H;
        try (try rewrite dicho_de_decir; cbn [dicho_de app]; reflexivity);
        discriminate.
    + revert H. unfold revisar_disponibilidad.
      destruct (salas_disponibles_para_fecha b d) as [| x disp].
      * destruct (pedir_fecha b m r) as [[d1 disp1] r1 X | f X];
          cbn [decir app]; intros H;
          erewrite respuesta_dicha in H;
          try (try rewrite dicho_de_decir; cbn [dicho_de app]; reflexivity);
          discriminate.
      * cbn [decir app]. unfold pedir_detalle. unfold ligar at 1.
        cbn [imprimir]. intros H.
        erewrite respuesta_dicha in H;
          [| rewrite !dicho_de_decir; cbn [app]; reflexivity].
        discriminate.
Qed.

End FechaMinima.

Section Anticipacion.
Import Base Consola Reservas Estado.

Lemma rechazo_por_fecha b m e d :
  parsear_fecha (Texto.strip (linea e)) = Some d ->
  Fecha.ltb d m = true ->
  pedir_fecha b m [e]
  = Corta Espera
      ([PideFecha (Fecha.strftime m); FechaMuyProxima]
       ++ [PideFecha (Fecha.strftime m)]).
Proof. intros Hp Hl. cbn [pedir_fecha]. now rewrite Hp, Hl. Qed.

(** One turn of the loop, on a date that reads well. *)
Lemma vuelta_del_bucle b es cid h0 m dicho e r d :
  en_bucle_fecha b es cid h0 m dicho ->
  parsear_fecha (Texto.strip (linea e)) = Some d ->
  (Fecha.ltb d m = true
   <-> nth_error (salida (registrar_reservacion b (es ++ e :: r)))
         (List.length dicho + 1)
       = Some FechaMuyProxima)
  /\ (Fecha.ltb d m = true ->
      en_bucle_fecha b (es ++ [e]) cid h0 m
        (dicho ++ [PideFecha (Fecha.strftime m); FechaMuyProxima])).
Proof.
  intros H Hp. split.
  - rewrite (respuesta_en_bucle _ _ _ _ _ _ (e :: r) H).
    now apply respuesta_a_fecha.
  - intros Hl. apply en_bucle_sigue; [assumption |].
    now apply rechazo_por_fecha with (d := d).
Qed.

(** C3, as the code has it.  While [registrar_reservacion] stands at the
    prompt for the date, the minimum date [m] is the one computed once,
    two days after the day [h0] on which the line with the client's key
    was typed; at every turn of the loop a date that reads well is
    answered with the message of the date too soon exactly when it is
    before [m], whatever the day on which its line is typed, and the
    function then stands at the prompt again with the same [m]. *)
Theorem C3_fecha_minima_fija (b : base) (es : list entrada) (cid : Z)
    (h0 m : Fecha.date) (dicho : list mensaje) :
  en_bucle_fecha b es cid h0 m dicho ->
  solicitar_fecha_minima h0 = Some m
  /\ (exists antes e0 pre, es = (antes ++ e0 :: pre)%list /\ hoy e0 = h0)
  /\ forall e r d,
       parsear_fecha (Texto.strip (linea e)) = Some d ->
       (Fecha.ltb d m = true
        <-> nth_error (salida (registrar_reservacion b (es ++ e :: r)))
              (List.length dicho + 1)
            = Some FechaMuyProxima)
       /\ (Fecha.ltb d m = true ->
           en_bucle_fecha b (es ++ [e]) cid h0 m
             (dicho ++ [PideFecha (Fecha.strftime m); FechaMuyProxima])).
Proof.
  intros H. split; [eapply en_bucle_minimo; eauto |].
  split; [eapply en_bucle_dia; eauto |].
  intros e r d Hp. now apply vuelta_del_bucle.
Qed.

(** C7, as the code has it.  Today is the day [h0] on which the line
    with the client's key was typed: the minimum date [m] is the second
    day after it, computed once, and the day on which a date is typed
    plays no part.  At the prompt for the date, the day after [h0] is
    answered with the message of the date too soon and the date is asked
    again; the second day after [h0] is not, and when it is not a Sunday
    and has a room with a free shift it is the date of the reservation the
    function goes on to ask for. *)
Theorem C7_limite_de_anticipacion (b : base) (es : list entrada) (cid : Z)
    (h0 m : Fecha.date) (dicho : list mensaje) :
  en_bucle_fecha b es cid h0 m dicho ->
  solicitar_fecha_minima h0 = Some m
  /\ (exists antes e0 pre, es = (antes ++ e0 :: pre)%list /\ hoy e0 = h0)
  /\ forall e r d,
       parsear_fecha (Texto.strip (linea e)) = Some d ->
       (Fecha.sumar_dias 1 h0 = Some d ->
        nth_error (salida (registrar_reservacion b (es ++ e :: r)))
          (List.length dicho + 1)
        = Some FechaMuyProxima
        /\ en_bucle_fecha b (es ++ [e]) cid h0 m
             (dicho ++ [PideFecha (Fecha.strftime m); FechaMuyProxima]))
       /\ (Fecha.sumar_dias 2 h0 = Some d ->
           nth_error (salida (registrar_reservacion b (es ++ e :: r)))
             (List.length dicho + 1)
           <> Some FechaMuyProxima
           /\ (es_domingo d = false ->
               salas_disponibles_para_fecha b d <> [] ->
               registrar_reservacion b (es ++ e :: r)
               = concluir b
                   (decir (dicho ++ [PideFecha (Fecha.strftime m)])
                      (pedir_detalle cid d
                         (salas_disponibles_para_fecha b d) r)))).
Proof.
  intros H. split; [eapply en_bucle_minimo; eauto |].
  split; [eapply en_bucle_dia; eauto |].
  intros e r d Hp.
  pose proof (en_bucle_minimo _ _ _ _ _ _ H) as Hm.
  unfold solicitar_fecha_minima in Hm.
  destruct (sumar_dos_dias _ _ Hm) as [H1 ->].
  destruct (vuelta_del_bucle _ _ _ _ _ _ e r d H Hp) as [Hiff Hsig]. split.
  - intros E. rewrite H1 in E. injection E as <-.
    pose proof (ltb_siguiente (Fecha.siguiente_dia h0)) as Hl.
    split; [now apply Hiff | now apply Hsig].
  - intros E. rewrite Hm in E. injection E as <-.
    pose proof (ltb_irrefl (Fecha.siguiente_dia (Fecha.siguiente_dia h0)))
      as Hl.
    split.
    + intros Hc. apply Hiff in Hc. congruence.
    + intros Hd Hs. rewrite (registrar_en_bucle _ _ _ _ _ _ (e :: r) H).
      f_equal. unfold desde_fecha, ligar. cbn [pedir_fecha].
      rewrite Hp, Hl, Hd. unfold revisar_disponibilidad.
      destruct (salas_disponibles_para_fecha b _) as [| x l];
        [contradiction |].
      cbn [decir app]. now rewrite decir_decir.
Qed.

End Anticipacion.

(** * Sundays *)

Section Domingos.
Import Base Consola Reservas Estado.



Lemma lunes_siguiente d :
  Fecha.valida d = true -> es_domingo d = true ->
  Fecha.sumar_dias 1 d = Some (Fecha.siguiente_dia d)
  /\ Fecha.weekday (Fecha.siguiente_dia d) = 0
  /\ Fecha.valida (Fecha.siguiente_dia d) = true
  /\ Fecha.strftime (Fecha.siguiente_dia d) <> Fecha.strftime d.
Proof.
  intros V D. unfold es_domingo in D. apply Z.eqb_eq in D.
  pose proof (domingo_tiene_siguiente d V D) as S.
  assert (Vp : Fecha.valida (Fecha.siguiente_dia d) = true).
  { apply valida_siguiente; [assumption |].
    cbn [Fecha.sumar_dias] in S.
    destruct (Fecha.year (Fecha.siguiente_dia d) <=? Fecha.MAXYEAR) eqn:E;
      [now apply Z.leb_le | discriminate]. }
  repeat split; try assumption.
  - rewrite weekday_siguiente, D by assumption. reflexivity.
  - intros E. apply strftime_inyectiva in E; try assumption.
    pose proof (ltb_siguiente d) as L. rewrite E, ltb_irrefl in L.
    discriminate.
Qed.

End Domingos.

(** * The example session at the prompt for the date *)

Section SesionFecha.
Import Base Consola Reservas Estado Ejemplo.

Lemma en_bucle_ejemplo :
  en_bucle_fecha b_inicial [teclea "1"] 1 miercoles_4 viernes_6
    [TablaClientes [(1, "Doe", "Jane")]].
Proof. apply en_bucle_inicio; vm_compute; [discriminate | reflexivity ..]. Qed.

(** C3, as the specification words it, fails: the client is chosen on
    Wednesday the 4th and the date, Friday the 6th, is typed on Thursday
    the 5th.  Two days after the day of typing is Saturday the 7th, and
    the Friday is before it; the function does not answer that the date is
    too soon, shows Friday the 6th as the minimum and books the Friday. *)
Lemma C3_contraejemplo :
  solicitar_fecha_minima jueves_5 = Some (Fecha.mkdate 2026 11 7)
  /\ parsear_fecha "11-06-2026" = Some viernes_6
  /\ Fecha.ltb viernes_6 (Fecha.mkdate 2026 11 7) = true
  /\ salida (registrar_reservacion b_inicial sesion_medianoche)
     = [TablaClientes [(1, "Doe", "Jane")]; PideFecha "11-06-2026";
        TablaDisponibles [(1, "Hall A", 10, "Matutino, Vespertino, Nocturno")];
        TurnosDeSala "Matutino, Vespertino, Nocturno";
        ReservacionRegistrada "R000001"]
  /\ map fecha
       (reservaciones (final (registrar_reservacion b_inicial sesion_medianoche)))
     = ["11-06-2026"].
Proof. repeat split; vm_compute; reflexivity. Qed.

(** C3 on the example: the date typed on Thursday the 5th is judged against
    Friday the 6th, computed on Wednesday the 4th. *)
Lemma C3_testigo :
  en_bucle_fecha b_inicial [teclea "1"] 1 miercoles_4 viernes_6
    [TablaClientes [(1, "Doe", "Jane")]]
  /\ (Fecha.ltb (Fecha.mkdate 2026 11 5) viernes_6 = true
      <-> nth_error
            (salida (registrar_reservacion b_inicial
                       ([teclea "1"] ++ [mkentrada jueves_5 "11-05-2026"])))
            (1 + 1)
          = Some FechaMuyProxima).
Proof.
  split; [exact en_bucle_ejemplo |].
  destruct (C3_fecha_minima_fija _ _ _ _ _ _ en_bucle_ejemplo)
    as (_ & _ & H).
  apply (H (mkentrada jueves_5 "11-05-2026") [] (Fecha.mkdate 2026 11 5)).
  vm_compute. reflexivity.
Defined.

(** C7 on the example: chosen the client on Wednesday the 4th, Thursday the
    5th is too soon and Friday the 6th goes on to the choice of the room,
    both typed on Thursday the 5th. *)
Lemma C7_testigo :
  solicitar_fecha_minima miercoles_4 = Some viernes_6
  /\ (nth_error
        (salida (registrar_reservacion b_inicial
                   ([teclea "1"] ++ [mkentrada jueves_5 "11-05-2026"])))
        (1 + 1)
      = Some FechaMuyProxima
      /\ en_bucle_fecha b_inicial
           ([teclea "1"] ++ [mkentrada jueves_5 "11-05-2026"]) 1
           miercoles_4 viernes_6
           ([TablaClientes [(1, "Doe", "Jane")]]
            ++ [PideFecha (Fecha.strftime viernes_6); FechaMuyProxima]))
  /\ (nth_error
        (salida (registrar_reservacion b_inicial
                   ([teclea "1"] ++ [mkentrada jueves_5 "11-06-2026"])))
        (1 + 1)
      <> Some FechaMuyProxima
      /\ registrar_reservacion b_inicial
           ([teclea "1"] ++ [mkentrada jueves_5 "11-06-2026"])
         = concluir b_inicial
             (decir
                ([TablaClientes [(1, "Doe", "Jane")]]
                 ++ [PideFecha (Fecha.strftime viernes_6)])
                (pedir_detalle 1 viernes_6
                   (salas_disponibles_para_fecha b_inicial viernes_6) []))).
Proof.
  destruct (C7_limite_de_anticipacion _ _ _ _ _ _ en_bucle_ejemplo)
    as (Hm & _ & H).
  split; [exact Hm |]. split.
  - apply (H (mkentrada jueves_5 "11-05-2026") [] (Fecha.mkdate 2026 11 5));
      vm_compute; reflexivity.
  - assert (Hp : parsear_fecha
                   (Texto.strip (linea (mkentrada jueves_5 "11-06-2026")))
                 = Some viernes_6) by (vm_compute; reflexivity).
    assert (H2 : Fecha.sumar_dias 2 miercoles_4 = Some viernes_6)
      by (vm_compute; reflexivity).
    destruct (proj2 (H (mkentrada jueves_5 "11-06-2026") [] viernes_6 Hp) H2)
      as [Y1 Y2].
    split; [exact Y1 |].
    apply Y2; vm_compute; [reflexivity | discriminate].
Defined.

End SesionFecha.

(** * The range of [editar_nombre_evento] *)

Section Rango.
Import Base Consola Reservas Estado.

(** An end of the range before its start is turned down and asked again. *)
Lemma pedir_hasta_anterior desde e r hasta :
  parsear_fecha (Texto.strip (linea e)) = Some hasta ->
  Fecha.ltb hasta desde = true ->
  pedir_hasta desde (e :: r)
  = decir [FormatoInvalidoOFinalAnterior] (pedir_hasta desde r).
Proof.
  intros Hp Hl. cbn [pedir_hasta]. rewrite Hp. unfold Fecha.leb.
  now rewrite Hl.
Qed.

(** A range of one day shows the reservations of that day and no other. *)
Lemma eventos_de_un_dia b d r :
  In r (eventos_en_rango b d d) <->
  In r (reservaciones b) /\ fecha r = Fecha.strftime d.
Proof.
  unfold eventos_en_rango, seleccionar_rango.
  rewrite ordenar_In, filter_In, andb_true_iff. split.
  - intros (Hr & H1 & H2). split; [assumption |].
    now apply String.leb_antisym.
  - intros (Hr & ->). split; [assumption |].
    unfold String.leb. now rewrite compare_refl.
Qed.

(** The rows of a range come in the order of the texts of their dates. *)
Lemma eventos_en_orden_de_texto b desde hasta :
  Sorted (fun x y => String.leb (fecha x) (fecha y) = true)
    (eventos_en_rango b desde hasta).
Proof.
  apply ordenar_ordenada. intros x y H. unfold String.leb in *.
  rewrite String.compare_antisym.
  destruct (String.compare (fecha x) (fecha y)); cbn; congruence.
Qed.

End Rango.

(** * The scenario of the specification *)

Section Escenario.
Import Base Consola Reservas Estado Ejemplo.

Example folio_del_primero : generar_folio 1 = "R000001".
Proof. reflexivity. Qed.

Example folio_del_millon : generar_folio 1234567 = "R1234567".
Proof. reflexivity. Qed.

(** Client Doe/Jane, room Hall A for 10, Saturday 7 November 2026 booked on
    Wednesday the 4th for the morning: the folio is R000001 and the report
    for the date has the one row. *)
Example escenario :
  let fin :=
    registrar_reservacion b_inicial
      [teclea "1"; teclea "11-07-2026"; teclea "1"; teclea "Matutino";
       teclea "Workshop"] in
  estado fin = Termina
  /\ last (salida fin) SinClientes = ReservacionRegistrada "R000001"
  /\ salida (consultar_reservaciones (final fin) [teclea "11-07-2026"])
     = [TablaReservaciones
          [mkrenglon "R000001" "Workshop" "11-07-2026" "Matutino" "Hall A" 10
             "Doe, Jane"]].
Proof. repeat split; vm_compute; reflexivity. Qed.

End Escenario.

(** * The report is complete *)

Section ReporteCompleto.
Import Base Consola Reservas Estado.

(** On a file the program wrote, a reservation is joined with exactly one
    room and one client. *)
Lemma juntar_una b r :
  integra b -> In r (reservaciones b) ->
  exists s c, juntar b r = [(r, s, c)].
Proof.
  intros I Hr. destruct (int_referencias b I r Hr) as [Hc Hs].
  apply in_map_iff in Hc, Hs.
  destruct Hc as (c & Ec & Hc). destruct Hs as (s & Es & Hs).
  exists s, c. unfold juntar.
  rewrite (filter_unico s_id _ (salas b) s (int_salas b I) Hs).
  - cbn [flat_map]. rewrite app_nil_r.
    rewrite (filter_unico c_id _ (clientes b) c (int_clientes b I) Hc).
    + reflexivity.
    + intros y. rewrite Z.eqb_eq. split; congruence.
  - intros y. rewrite Z.eqb_eq. split; congruence.
Qed.

Lemma juntar_todas b l :
  integra b -> (forall r, In r l -> In r (reservaciones b)) ->
  map (fun x => fst (fst x)) (flat_map (juntar b) l) = l.
Proof.
  intros I. induction l as [| r l IH]; intros H; [reflexivity |].
  cbn [flat_map]. rewrite map_app.
  destruct (juntar_una b r I) as (s & c & ->); [apply H; now left |].
  cbn [map app fst]. f_equal. apply IH. intros x Hx. apply H. now right.
Qed.

(** On a file the program wrote, the report for a date has one row for each
    reservation of the date, and no other. *)
Lemma reporte_completo b d :
  alcanzable b ->
  Permutation
    (map (fun x => fst (fst x)) (reservaciones_de_fecha b d))
    (filter (fun r => String.eqb (fecha r) (Fecha.strftime d))
       (reservaciones b)).
Proof.
  intros A. apply alcanzable_integra in A.
  unfold reservaciones_de_fecha, seleccionar_por_fecha.
  rewrite (Permutation_map _ (ordenar_perm le_turno_sala _)).
  rewrite juntar_todas; [reflexivity | assumption |].
  intros r Hr. apply filter_In in Hr. tauto.
Qed.

End ReporteCompleto.

(** * Dates read and printed *)

Section FechasLeidas.
Import Fecha Reservas.

Lemma ltb_trans a b c : ltb a b = true -> ltb b c = true -> ltb a c = true.
Proof. rewrite !ltb_spec. lia. Qed.

(** X1.  The printed form of a calendar date of the year 1000 or later,
    where the year takes four digits on every platform, is read back by
    [parsear_fecha] as the same date; and whatever [parsear_fecha] accepts
    is a calendar date, whose printed form it reads back when its year is
    1000 or later. *)
Theorem X1_parsear_fecha_ida_y_vuelta :
  (forall d,
      valida d = true -> 1000 <= year d ->
      parsear_fecha (strftime d) = Some d)
  /\ (forall s d,
        parsear_fecha s = Some d ->
        valida d = true
        /\ (1000 <= year d -> parsear_fecha (strftime d) = Some d)).
Proof.
  split.
  - intros d V _. now apply strptime_strftime.
  - intros s d H. apply strptime_valida in H. split; [assumption |].
    intros _. now apply strptime_strftime.
Qed.

(** The only day with no day after it in the calendar. *)
Lemma sin_siguiente d :
  valida d = true ->
  (year (siguiente_dia d) <=? MAXYEAR) = false <->
  year d = 9999 /\ month d = 12 /\ day d = 31.
Proof.
  intros V. pose proof (valida_cotas d V) as (Hy & Hm & Hd).
  rewrite Z.leb_gt. unfold siguiente_dia, MAXYEAR.
  destruct (day d <? days_in_month (year d) (month d)) eqn:E1;
    [apply Z.ltb_lt in E1 | apply Z.ltb_ge in E1].
  - cbn [year]. split; [lia |]. intros (_ & Em & Ed).
    rewrite Em in E1. unfold days_in_month in E1. cbn in E1. lia.
  - destruct (month d <? 12) eqn:E2;
      [apply Z.ltb_lt in E2 | apply Z.ltb_ge in E2]; cbn [year].
    + lia.
    + assert (Em : month d = 12) by lia. rewrite Em in *.
      unfold days_in_month in *. cbn in *. lia.
Qed.

Lemma siguiente_es_ultimo d :
  valida d = true ->
  (year (siguiente_dia d) = 9999 /\ month (siguiente_dia d) = 12
   /\ day (siguiente_dia d) = 31)
  <-> year d = 9999 /\ month d = 12 /\ day d = 30.
Proof.
  intros V. pose proof (valida_cotas d V) as (Hy & Hm & Hd).
  unfold siguiente_dia.
  destruct (day d <? days_in_month (year d) (month d)) eqn:E1;
    [apply Z.ltb_lt in E1 | apply Z.ltb_ge in E1].
  - cbn [year month day]. split; [lia |].
    intros (Ey & Em & Ed). lia.
  - destruct (month d <? 12) eqn:E2;
      [apply Z.ltb_lt in E2 | apply Z.ltb_ge in E2]; cbn [year month day].
    + split; [lia |]. intros (_ & Em & _). lia.
    + split; [lia |]. intros (_ & Em & Ed).
      rewrite Em in *. unfold days_in_month in *. cbn in *. lia.
Qed.

(** X2.  From a calendar date [hoy], [solicitar_fecha_minima] gives a
    calendar date two days later, after [hoy]; it has no value (the
    addition overflows) exactly on the last two days of the year 9999. *)
Theorem X2_fecha_minima_dos_dias (hoy : date) :
  valida hoy = true ->
  (forall m,
      solicitar_fecha_minima hoy = Some m ->
      valida m = true /\ toordinal m = toordinal hoy + 2
      /\ ltb hoy m = true)
  /\ (solicitar_fecha_minima hoy = None
      <-> year hoy = 9999 /\ month hoy = 12 /\ 30 <= day hoy).
Proof.
  intros V. pose proof (valida_cotas hoy V) as (Hy & Hm & Hd).
  unfold solicitar_fecha_minima. cbn [sumar_dias].
  destruct (year (siguiente_dia hoy) <=? MAXYEAR) eqn:E1.
  - assert (V1 : valida (siguiente_dia hoy) = true)
      by (apply valida_siguiente; [assumption | now apply Z.leb_le]).
    destruct (year (siguiente_dia (siguiente_dia hoy)) <=? MAXYEAR) eqn:E2.
    + split.
      * intros m [= <-]. split; [| split].
        -- apply valida_siguiente; [assumption | now apply Z.leb_le].
        -- rewrite !toordinal_siguiente by assumption. lia.
        -- eapply ltb_trans; apply ltb_siguiente.
      * split; [discriminate |]. intros (Ey & Em & Ed). exfalso.
        assert (Hno : ~ (year hoy = 9999 /\ month hoy = 12 /\ day hoy = 31)).
        { intros H. apply (sin_siguiente hoy V) in H. congruence. }
        assert (H30 : year hoy = 9999 /\ month hoy = 12 /\ day hoy = 30).
        { rewrite Em in Hd. unfold days_in_month in Hd. cbn in Hd. lia. }
        apply (siguiente_es_ultimo hoy V) in H30.
        apply (sin_siguiente _ V1) in H30. congruence.
    + split; [discriminate |]. split; [intros _ | reflexivity].
      apply (sin_siguiente _ V1) in E2.
      apply (siguiente_es_ultimo hoy V) in E2. lia.
  - split; [discriminate |]. split; [intros _ | reflexivity].
    apply (sin_siguiente hoy V) in E1. lia.
Qed.

(** X3.  [siguiente_lunes] of a calendar date is a calendar date that is
    not a Sunday: the date itself when it is not a Sunday, and otherwise
    the day after, a Monday; applied again it changes nothing. *)
Theorem X3_siguiente_lunes (d : date) :
  valida d = true ->
  exists p,
    siguiente_lunes d = Some p
    /\ valida p = true
    /\ es_domingo p = false
    /\ (es_domingo d = false -> p = d)
    /\ (es_domingo d = true ->
        toordinal p = toordinal d + 1 /\ weekday p = 0)
    /\ siguiente_lunes p = Some p.
Proof.
  intros V. unfold siguiente_lunes.
  destruct (weekday d =? 6) eqn:E.
  - destruct (lunes_siguiente d V E) as (S & W & Vp & _).
    exists (siguiente_dia d). rewrite S.
    assert (Hp : es_domingo (siguiente_dia d) = false)
      by (unfold es_domingo; now rewrite W).
    repeat split; auto; try (unfold es_domingo; congruence).
    + now apply toordinal_siguiente.
    + unfold es_domingo in Hp. now rewrite Hp.
  - exists d. unfold es_domingo. rewrite E. repeat split; auto; discriminate.
Qed.

End FechasLeidas.

Section FechasTestigos.
Import Fecha Reservas Ejemplo.

(** X1 on the example: Monday 9 November 2026. *)
Lemma X1_testigo :
  valida (mkdate 2026 11 9) = true
  /\ strftime (mkdate 2026 11 9) = "11-09-2026"
  /\ parsear_fecha (strftime (mkdate 2026 11 9)) = Some (mkdate 2026 11 9).
Proof.
  assert (V : valida (mkdate 2026 11 9) = true) by reflexivity.
  assert (Y : 1000 <= year (mkdate 2026 11 9)) by (vm_compute; discriminate).
  split; [exact V |]. split; [reflexivity |].
  exact (proj1 X1_parsear_fecha_ida_y_vuelta (mkdate 2026 11 9) V Y).
Defined.

(** X2 on the example: two days after Wednesday the 4th is Friday the 6th. *)
Lemma X2_testigo :
  solicitar_fecha_minima miercoles_4 = Some viernes_6
  /\ (valida viernes_6 = true
      /\ toordinal viernes_6 = toordinal miercoles_4 + 2
      /\ ltb miercoles_4 viernes_6 = true).
Proof.
  assert (V : valida miercoles_4 = true) by reflexivity.
  assert (E : solicitar_fecha_minima miercoles_4 = Some viernes_6)
    by reflexivity.
  split; [exact E |].
  exact (proj1 (X2_fecha_minima_dos_dias miercoles_4 V) viernes_6 E).
Defined.

(** X3 on the example: Sunday 8 November 2026. *)
Lemma X3_testigo :
  exists p,
    siguiente_lunes (mkdate 2026 11 8) = Some p
    /\ valida p = true
    /\ es_domingo p = false
    /\ (es_domingo (mkdate 2026 11 8) = false -> p = mkdate 2026 11 8)
    /\ (es_domingo (mkdate 2026 11 8) = true ->
        toordinal p = toordinal (mkdate 2026 11 8) + 1 /\ weekday p = 0)
    /\ siguiente_lunes p = Some p.
Proof.
  apply (X3_siguiente_lunes (mkdate 2026 11 8)). reflexivity.
Defined.

End FechasTestigos.

(** * Folios read back *)

Section FoliosLeidos.
Import Texto Estado Propiedades Reservas.

Lemma digito_no_espacio c : es_digito c = true -> es_espacio c = false.
Proof.
  destruct c as [[] [] [] [] [] [] [] []]; try discriminate; reflexivity.
Qed.

Lemma solo_digitos_sin_espacios s : solo_digitos s = true -> sin_espacios s = true.
Proof.
  induction s as [| c s IH]; cbn [solo_digitos sin_espacios]; [reflexivity |].
  intros H. apply andb_prop in H. destruct H as [Hc Hs].
  now rewrite (digito_no_espacio c Hc), IH.
Qed.

Lemma rstrip_sin_espacios s : sin_espacios s = true -> rstrip s = s.
Proof.
  induction s as [| c s IH]; cbn [sin_espacios rstrip]; [reflexivity |].
  intros H. apply andb_prop in H. destruct H as [Hc Hs].
  rewrite IH by assumption.
  destruct s; [| reflexivity].
  apply negb_true_iff in Hc. now rewrite Hc.
Qed.

Lemma lstrip_sin_espacios s : sin_espacios s = true -> lstrip s = s.
Proof.
  destruct s as [| c s]; cbn [sin_espacios lstrip]; [reflexivity |].
  intros H. apply andb_prop in H. destruct H as [Hc _].
  apply negb_true_iff in Hc. now rewrite Hc.
Qed.

(** [strip] leaves a text without white space as it is. *)
Lemma strip_sin_espacios s : sin_espacios s = true -> strip s = s.
Proof.
  intros H. unfold strip. now rewrite lstrip_sin_espacios, rstrip_sin_espacios.
Qed.

Lemma leer_solo_digitos s : forall p acc,
  solo_digitos s = true -> s <> EmptyString \/ p = Digito ->
  leer_digitos p acc s = Some (valor acc s).
Proof.
  induction s as [| c s IH]; intros p acc Hd Hn; cbn [leer_digitos valor].
  - destruct Hn as [Hn | ->]; [contradiction | reflexivity].
  - cbn [solo_digitos] in Hd. apply andb_prop in Hd. destruct Hd as [Hc Hs].
    rewrite Hc. apply IH; auto.
Qed.

Lemma solo_digitos_app s t :
  solo_digitos (s ++ t) = solo_digitos s && solo_digitos t.
Proof.
  induction s as [| c s IH]; cbn [append solo_digitos]; [reflexivity |].
  now rewrite IH, andb_assoc.
Qed.

Lemma solo_digitos_ceros k : solo_digitos (ceros k) = true.
Proof. induction k; cbn [ceros solo_digitos]; auto. Qed.

Lemma solo_digitos_digitos p n : solo_digitos (digitos p n) = true.
Proof.
  revert n. induction p as [| p IH]; intros n; cbn [digitos]; [reflexivity |].
  rewrite solo_digitos_app. cbn [solo_digitos].
  rewrite es_digito_car by (pose proof (Z.mod_pos_bound n 10); lia).
  destruct (n <? 10); [reflexivity | now rewrite IH].
Qed.

Lemma digitos_no_vacio p n : digitos (S p) n <> EmptyString.
Proof.
  cbn [digitos]. destruct (if n <? 10 then _ else _); discriminate.
Qed.

Lemma zfill_str w n :
  0 <= n ->
  solo_digitos (zfill w (str n)) = true /\ zfill w (str n) <> EmptyString.
Proof.
  intros H. unfold zfill, str.
  destruct (n <? 0) eqn:E; [apply Z.ltb_lt in E; lia |].
  split.
  - now rewrite solo_digitos_app, solo_digitos_ceros, solo_digitos_digitos.
  - pose proof (digitos_no_vacio (Z.to_nat (Z.log2 n)) n) as Hn.
    destruct (ceros _); cbn [append]; [assumption | discriminate].
Qed.

(** A text that starts with a digit is read as a number without a sign. *)
Lemma int_sin_signo s :
  solo_digitos s = true -> s <> EmptyString -> int s = Some (valor 0 s).
Proof.
  intros Hd Hn. unfold int.
  rewrite strip_sin_espacios by now apply solo_digitos_sin_espacios.
  destruct s as [| c s]; [contradiction |].
  rewrite <- (leer_solo_digitos (String c s) Inicio 0 Hd (or_introl Hn)).
  cbn [solo_digitos] in Hd. apply andb_prop in Hd. destruct Hd as [Hc _].
  destruct c as [[] [] [] [] [] [] [] []]; try discriminate; reflexivity.
Qed.

Lemma int_formato_06d n : int (formato_06d n) = Some n.
Proof.
  unfold formato_06d. destruct (n <? 0) eqn:E.
  - apply Z.ltb_lt in E.
    destruct (zfill_str 5 (- n)) as [Hd Hn]; [lia |].
    unfold int. rewrite strip_sin_espacios.
    + rewrite leer_solo_digitos by auto.
      unfold zfill. rewrite valor_ceros, valor_str by lia.
      cbn [option_map]. f_equal. lia.
    + cbn [sin_espacios]. now rewrite solo_digitos_sin_espacios.
  - apply Z.ltb_ge in E. destruct (zfill_str 6 n E) as [Hd Hn].
    rewrite int_sin_signo by assumption.
    unfold zfill. now rewrite valor_ceros, valor_str.
Qed.

(** X4.  For every key, the folio is the letter R followed by a text that
    [int] reads back as the key; so two keys with one folio are one key. *)
Theorem X4_folio_se_lee :
  (forall n, exists t, generar_folio n = String "R" t /\ int t = Some n)
  /\ (forall n m, generar_folio n = generar_folio m -> n = m).
Proof.
  split.
  - intros n. exists (formato_06d n). split; [reflexivity |].
    apply int_formato_06d.
  - intros n m E. unfold generar_folio in E. injection E as E.
    pose proof (int_formato_06d n) as Hn. rewrite E, int_formato_06d in Hn.
    congruence.
Qed.

End FoliosLeidos.

(** * Registering clients and rooms *)

Section Registros.
Import Base Consola Reservas Estado Propiedades.

Lemma decir_Corta {A : Type} m (l : lectura A) f d :
  decir m l = Corta f d -> exists d', l = Corta f d' /\ d = (m ++ d')%list.
Proof.
  destruct l as [a r d' | f' d']; cbn [decir]; [discriminate |].
  intros [= -> <-]. eauto.
Qed.

Lemma ligar_Corta {A B : Type} (m : lector A) (k : A -> lector B) es f d :
  ligar m k es = Corta f d ->
  m es = Corta f d
  \/ exists a r d1 d2,
       m es = Sigue a r d1 /\ k a r = Corta f d2 /\ d = (d1 ++ d2)%list.
Proof.
  unfold ligar. destruct (m es) as [a r d1 | f1 d1];
    [| intros [= -> ->]; left; reflexivity].
  intros H. apply decir_Corta in H. destruct H as (d2 & H & ->).
  right. exists a, r, d1, d2. auto.
Qed.

(** The text the loop returns is a line typed, stripped, and not empty; the
    lines left are lines typed. *)
Lemma pedir_no_vacio_Sigue queja es t r d :
  pedir_no_vacio queja es = Sigue t r d ->
  t <> EmptyString
  /\ (exists e, In e es /\ t = Texto.strip (linea e))
  /\ (forall x, In x r -> In x es).
Proof.
  revert d. induction es as [| e es IH]; intros d; cbn [pedir_no_vacio];
    [discriminate |].
  destruct (Texto.strip (linea e)) as [| c s] eqn:E.
  - intros H. apply decir_Sigue in H. destruct H as (d' & H & _).
    destruct (IH _ H) as (Hn & (e' & He' & Ht) & Hr).
    split; [assumption |]. split.
    + exists e'. split; [now right | assumption].
    + intros x Hx. right. auto.
  - intros [= <- <- _]. split; [discriminate |]. split.
    + exists e. split; [now left | now rewrite E].
    + intros x Hx. now right.
Qed.

Lemma pedir_no_vacio_Corta queja es f d :
  pedir_no_vacio queja es = Corta f d -> f = Espera.
Proof.
  revert d. induction es as [| e es IH]; intros d; cbn [pedir_no_vacio].
  - now intros [= <- _].
  - destruct (Texto.strip (linea e)); [| discriminate].
    intros H. apply decir_Corta in H. destruct H as (d' & H & _). eauto.
Qed.

Lemma pedir_cupo_Sigue es cupo r d :
  pedir_cupo es = Sigue cupo r d -> 0 < cupo.
Proof.
  revert d. induction es as [| e es IH]; intros d; cbn [pedir_cupo];
    [discriminate |].
  destruct (Texto.int _) as [n |].
  - destruct (0 <? n) eqn:E.
    + intros [= <- _ _]. now apply Z.ltb_lt.
    + intros H. apply decir_Sigue in H. destruct H as (d' & H & _). eauto.
  - intros H. apply decir_Sigue in H. destruct H as (d' & H & _). eauto.
Qed.

Lemma pedir_cupo_Corta es f d : pedir_cupo es = Corta f d -> f = Espera.
Proof.
  revert d. induction es as [| e es IH]; intros d; cbn [pedir_cupo].
  - now intros [= <- _].
  - destruct (Texto.int _) as [n |]; [destruct (0 <? n); [discriminate |] |];
      intros H; apply decir_Corta in H; destruct H as (d' & H & _); eauto.
Qed.

(** X6.  [registrar_cliente] either waits for a line, with the file as it
    was, or ends having added exactly one client: its key is above every
    key in the table and the counter, its name and surname are lines typed,
    stripped and not empty; rooms and reservations are untouched and the
    last thing printed is the new key. *)
Theorem X6_registrar_cliente (b : base) (es : list entrada) :
  (estado (registrar_cliente b es) = Espera
   /\ final (registrar_cliente b es) = b)
  \/ (estado (registrar_cliente b es) = Termina
      /\ exists k n a e1 e2,
           In e1 es /\ In e2 es
           /\ n = Texto.strip (linea e1) /\ a = Texto.strip (linea e2)
           /\ n <> EmptyString /\ a <> EmptyString
           /\ clientes (final (registrar_cliente b es))
              = (clientes b ++ [mkcliente k n a])%list
           /\ (forall c, In c (clientes b) -> c_id c < k)
           /\ seq_clientes b < k
           /\ salas (final (registrar_cliente b es)) = salas b
           /\ reservaciones (final (registrar_cliente b es)) = reservaciones b
           /\ last (salida (registrar_cliente b es)) NombreVacio
              = ClienteRegistrado k).
Proof.
  unfold registrar_cliente.
  destruct (ligar _ _ es) as [[n a] r d | f d] eqn:E.
  - right. cbn [insertar_cliente estado final salida clientes salas reservaciones].
    split; [reflexivity |].
    apply ligar_Sigue in E. destruct E as (n' & r1 & d1 & d2 & H1 & E & _).
    apply ligar_Sigue in E. destruct E as (a' & r2 & d3 & d4 & H2 & E & _).
    unfold ret in E. injection E as <- <- _ _.
    apply pedir_no_vacio_Sigue in H1, H2.
    destruct H1 as (Hn & (e1 & He1 & En) & Hr1).
    destruct H2 as (Ha & (e2 & He2 & Ea) & _).
    exists (nueva_clave (seq_clientes b) (map c_id (clientes b))), n', a', e1, e2.
    repeat split; auto.
    + intros c Hc. apply nueva_clave_mayor. now apply in_map.
    + apply nueva_clave_seq.
    + apply last_last.
  - left. cbn [estado final]. split; [| reflexivity].
    apply ligar_Corta in E.
    destruct E as [E | (n' & r1 & d1 & d2 & _ & E & _)];
      [now apply pedir_no_vacio_Corta in E |].
    apply ligar_Corta in E.
    destruct E as [E | (a' & r2 & d3 & d4 & _ & E & _)];
      [now apply pedir_no_vacio_Corta in E | discriminate].
Qed.

Lemma pedir_cupo_linea es cupo r d :
  pedir_cupo es = Sigue cupo r d ->
  exists e, In e es /\ Texto.int (Texto.strip (linea e)) = Some cupo.
Proof.
  revert d. induction es as [| e es IH]; intros d; cbn [pedir_cupo];
    [discriminate |].
  destruct (Texto.int _) as [n |] eqn:En.
  - destruct (0 <? n) eqn:E.
    + intros [= <- _ _]. exists e. split; [now left | exact En].
    + intros H. apply decir_Sigue in H. destruct H as (d' & H & _).
      destruct (IH _ H) as (e' & He & Hi). exists e'. split; [now right | auto].
  - intros H. apply decir_Sigue in H. destruct H as (d' & H & _).
    destruct (IH _ H) as (e' & He & Hi). exists e'. split; [now right | auto].
Qed.

Lemma pedir_cupo_dice es x :
  In x (dicho_de (pedir_cupo es)) -> x = CupoNoPositivo \/ x = EnteroInvalido.
Proof.
  induction es as [| e es IH]; cbn [pedir_cupo dicho_de In]; [tauto |].
  destruct (Texto.int _) as [n |]; [destruct (0 <? n) |];
    cbn [dicho_de In]; try tauto;
    rewrite dicho_de_decir; cbn [app In]; intuition.
Qed.

(** What [registrar_sala] has printed when it comes to the INSERT. *)
Lemma preguntas_de_sala_dicen es n cupo r d k :
  ligar (pedir_no_vacio NombreVacio)
    (fun nombre => ligar pedir_cupo (fun c => ret (nombre, c))) es
  = Sigue (n, cupo) r d ->
  ~ In (SalaRegistrada k) d.
Proof.
  intros E Hin.
  assert (H : In (SalaRegistrada k)
                (dicho_de (ligar (pedir_no_vacio NombreVacio)
                             (fun nombre =>
                                ligar pedir_cupo (fun c => ret (nombre, c)))
                             es)))
    by (rewrite E; exact Hin).
  apply ligar_dice in H. destruct H as [H | (a & r1 & d1 & _ & H)].
  - apply pedir_no_vacio_dice in H. discriminate.
  - apply ligar_dice in H. destruct H as [H | (c & r2 & d2 & _ & H)].
    + apply pedir_cupo_dice in H. destruct H; discriminate.
    + destruct H.
Qed.

(** X7.  On lines of ASCII characters, none longer than the digits [int]
    converts, [registrar_sala] ends in one of three ways.  It waits for a
    line, with the file as it was.  Or it returns having added exactly one
    room: its key is above every key in the table and the counter, its
    name is a line typed, stripped and not empty, and its capacity is the
    number on a line typed, above zero and within 64 bits; clients and
    reservations are untouched.  Or the capacity typed is 2^63 or more:
    the INSERT raises, the exception leaves the function, the file is as
    it was and no key has been printed. *)
Theorem X7_registrar_sala (b : base) (es : list entrada) :
  lineas_llanas es = true ->
  (estado (registrar_sala b es) = Espera /\ final (registrar_sala b es) = b)
  \/ (estado (registrar_sala b es) = Termina
      /\ exists k n cupo e1 e2,
           In e1 es /\ n = Texto.strip (linea e1) /\ n <> EmptyString
           /\ In e2 es /\ Texto.int (Texto.strip (linea e2)) = Some cupo
           /\ 0 < cupo <= MAX_INTEGER
           /\ salas (final (registrar_sala b es))
              = (salas b ++ [mksala k n cupo])%list
           /\ (forall s, In s (salas b) -> s_id s < k)
           /\ seq_salas b < k
           /\ clientes (final (registrar_sala b es)) = clientes b
           /\ reservaciones (final (registrar_sala b es)) = reservaciones b
           /\ last (salida (registrar_sala b es)) NombreVacio
              = SalaRegistrada k)
  \/ (estado (registrar_sala b es) = Excepcion
      /\ final (registrar_sala b es) = b
      /\ (forall k, ~ In (SalaRegistrada k) (salida (registrar_sala b es)))
      /\ exists e2 cupo,
           In e2 es /\ Texto.int (Texto.strip (linea e2)) = Some cupo
           /\ MAX_INTEGER < cupo).
Proof.
  intros _. unfold registrar_sala.
  destruct (ligar _ _ es) as [[n cupo] r d | f d] eqn:E.
  - right.
    pose proof E as E0.
    apply ligar_Sigue in E. destruct E as (n' & r1 & d1 & d2 & H1 & E & _).
    apply ligar_Sigue in E. destruct E as (c' & r2 & d3 & d4 & H2 & E & _).
    unfold ret in E. injection E as <- <- _ _.
    apply pedir_no_vacio_Sigue in H1.
    pose proof (pedir_cupo_Sigue _ _ _ _ H2) as Hpos.
    apply pedir_cupo_linea in H2. destruct H2 as (e2 & He2 & Hi).
    destruct H1 as (Hn & (e1 & He1 & En) & Hr1). apply Hr1 in He2.
    unfold insertar_sala.
    replace (0 <? c') with true by (symmetry; now apply Z.ltb_lt).
    cbn [andb]. destruct (c' <=? MAX_INTEGER) eqn:Em.
    + left. apply Z.leb_le in Em.
      cbn [estado final salida clientes salas reservaciones].
      split; [reflexivity |].
      exists (nueva_clave (seq_salas b) (map s_id (salas b))), n', c', e1, e2.
      repeat split; auto;
        try apply nueva_clave_seq; try apply last_last;
        try (intros s Hs; apply nueva_clave_mayor; now apply in_map).
    + right. apply Z.leb_gt in Em. cbn [estado final salida].
      split; [reflexivity |]. split; [reflexivity |]. split.
      * intros k. eapply preguntas_de_sala_dicen. exact E0.
      * exists e2, c'. auto.
  - left. cbn [estado final]. split; [| reflexivity].
    apply ligar_Corta in E.
    destruct E as [E | (n' & r1 & d1 & d2 & _ & E & _)];
      [now apply pedir_no_vacio_Corta in E |].
    apply ligar_Corta in E.
    destruct E as [E | (a' & r2 & d3 & d4 & _ & E & _)];
      [now apply pedir_cupo_Corta in E | discriminate].
Qed.

End Registros.

(** * A booking in one session *)

Section Silencio.
Import Base Consola Reservas Estado Propiedades.

Lemma calla_decir {A : Type} m (l : lectura A) :
  Forall (fun x => es_de_guardar x = false) m -> calla l -> calla (decir m l).
Proof.
  unfold calla. rewrite dicho_de_decir. intros H1 H2.
  apply Forall_app. auto.
Qed.

Lemma calla_ligar {A B : Type} (m : lector A) (k : A -> lector B) es :
  calla (m es) -> (forall a r, calla (k a r)) -> calla (ligar m k es).
Proof.
  unfold calla. rewrite dicho_de_ligar.
  destruct (m es) as [a r d | f d]; cbn [dicho_de]; intros H1 H2;
    [apply Forall_app; auto | assumption].
Qed.

Ltac callado :=
  repeat first
    [ apply calla_decir; [repeat constructor |]
    | assumption
    | (unfold calla; cbn [dicho_de]; repeat constructor; fail) ].

Lemma calla_mostrar_clientes b :
  Forall (fun x => es_de_guardar x = false) (mostrar_clientes b).
Proof.
  unfold mostrar_clientes. destruct (listar_clientes b); repeat constructor.
Qed.

Lemma calla_pedir_no_vacio queja es :
  es_de_guardar queja = false -> calla (pedir_no_vacio queja es).
Proof.
  intros Hq. induction es as [| e es IH]; cbn [pedir_no_vacio].
  - callado.
  - destruct (Texto.strip (linea e)); [| callado].
    apply calla_decir; [repeat constructor; assumption | assumption].
Qed.

Lemma calla_pedir_cliente b cl es : calla (pedir_cliente b cl es).
Proof.
  induction es as [| e es IH]; cbn [pedir_cliente].
  - unfold calla. cbn [dicho_de]. apply calla_mostrar_clientes.
  - apply calla_decir; [apply calla_mostrar_clientes |].
    destruct (String.eqb _ "c"); [callado |].
    destruct (Texto.int _) as [n |];
      [destruct (existsb _ cl) |]; callado.
Qed.

Lemma calla_pedir_fecha b m es : calla (pedir_fecha b m es).
Proof.
  induction es as [| e es IH1 IH2] using lineas_ind; cbn [pedir_fecha].
  - callado.
  - apply calla_decir; [repeat constructor |].
    destruct (parsear_fecha _) as [d |]; [| callado].
    destruct (Fecha.ltb d m); [callado |].
    destruct (es_domingo d).
    + destruct (Fecha.sumar_dias 1 d) as [p |]; [| callado].
      apply calla_decir; [repeat constructor |].
      destruct es as [| e2 r2]; [callado |].
      specialize (IH2 e2 r2 eq_refl).
      destruct (String.eqb _ "s"); [| assumption].
      unfold revisar_disponibilidad.
      destruct (salas_disponibles_para_fecha b p); callado.
    + unfold revisar_disponibilidad.
      destruct (salas_disponibles_para_fecha b d); callado.
Qed.

Lemma calla_pedir_sala disp es : calla (pedir_sala disp es).
Proof.
  induction es as [| e es IH]; cbn [pedir_sala]; [callado |].
  destruct (Texto.int _) as [n |]; [| callado].
  destruct (n =? 0); [callado |].
  destruct (existsb _ disp); callado.
Qed.

Lemma calla_pedir_turno ts es : calla (pedir_turno ts es).
Proof.
  induction es as [| e es IH]; cbn [pedir_turno]; [callado |].
  destruct (existsb _ ts); callado.
Qed.

Lemma calla_pedir_detalle cid d disp es : calla (pedir_detalle cid d disp es).
Proof.
  unfold pedir_detalle.
  apply calla_ligar; [unfold imprimir; callado | intros [] r1].
  apply calla_ligar; [apply calla_pedir_sala | intros n r2].
  apply calla_ligar;
    [unfold evaluar; destruct (find _ disp); callado | intros x r3].
  apply calla_ligar; [unfold imprimir; callado | intros [] r4].
  apply calla_ligar; [apply calla_pedir_turno | intros t r5].
  apply calla_ligar; [now apply calla_pedir_no_vacio | intros ev r6].
  unfold ret. callado.
Qed.

(** The questions of [registrar_reservacion] print neither message of the
    insertion. *)
Lemma calla_pedir_solicitud b cl es : calla (pedir_solicitud b cl es).
Proof.
  unfold pedir_solicitud.
  apply calla_ligar; [apply calla_pedir_cliente | intros [cid h] r1].
  apply calla_ligar;
    [unfold evaluar; destruct (solicitar_fecha_minima h); callado
    | intros m r2].
  apply calla_ligar; [apply calla_pedir_fecha | intros [d disp] r3].
  apply calla_pedir_detalle.
Qed.

End Silencio.

Section ReservaSecuencial.
Import Base Consola Reservas Estado Propiedades.

(** The date the loop settles on is a calendar date, not before the
    minimum and not a Sunday. *)
Lemma pedir_fecha_fecha b m es : forall d disp r dicho,
  pedir_fecha b m es = Sigue (d, disp) r dicho ->
  Fecha.valida d = true /\ Fecha.ltb d m = false /\ es_domingo d = false.
Proof.
  induction es as [| e es IH1 IH2] using lineas_ind; intros d disp r dicho;
    cbn [pedir_fecha]; [discriminate |].
  intros H. apply decir_Sigue in H. destruct H as (d1 & H & _).
  destruct (parsear_fecha _) as [d0 |] eqn:Hp.
  2:{ apply decir_Sigue in H. destruct H as (d2 & H & _). eauto. }
  pose proof (strptime_valida _ _ Hp) as V.
  destruct (Fecha.ltb d0 m) eqn:Hl.
  { apply decir_Sigue in H. destruct H as (d2 & H & _). eauto. }
  destruct (es_domingo d0) eqn:Hd.
  - destruct (lunes_siguiente d0 V Hd) as (S & W & Vp & _).
    rewrite S in H.
    apply decir_Sigue in H. destruct H as (d2 & H & _).
    destruct es as [| e2 r2]; [discriminate |].
    destruct (String.eqb _ "s").
    + apply revisar_disponibilidad_Sigue in H.
      destruct H as [(_ & _ & ->) | (d3 & H)]; [| eapply IH2; eauto].
      split; [assumption |]. split.
      * destruct (Fecha.ltb (Fecha.siguiente_dia d0) m) eqn:E; [| reflexivity].
        pose proof (ltb_trans _ _ _ (ltb_siguiente d0) E). congruence.
      * unfold es_domingo. now rewrite W.
    + eapply IH2; eauto.
  - apply revisar_disponibilidad_Sigue in H.
    destruct H as [(_ & _ & ->) | (d3 & H)]; [auto | eauto].
Qed.

Lemma pedir_detalle_evento cid d0 disp es s r dicho :
  pedir_detalle cid d0 disp es = Sigue s r dicho ->
  sol_evento s <> EmptyString.
Proof.
  unfold pedir_detalle. intros H.
  apply ligar_Sigue in H. destruct H as ([] & r1 & d1 & d2 & _ & H & _).
  apply ligar_Sigue in H. destruct H as (n & r2 & d3 & d4 & _ & H & _).
  apply ligar_Sigue in H. destruct H as (x & r3 & d5 & d6 & _ & H & _).
  apply ligar_Sigue in H. destruct H as ([] & r4 & d7 & d8 & _ & H & _).
  apply ligar_Sigue in H. destruct H as (t & r5 & d9 & d10 & _ & H & _).
  apply ligar_Sigue in H. destruct H as (ev & r6 & d11 & d12 & H6 & H & _).
  unfold ret in H. injection H as <- _ _. cbn [sol_evento].
  now apply pedir_no_vacio_Sigue in H6.
Qed.

(** What a request that went through all the questions asks for. *)
Lemma solicitud_bien_formada b cl es s r dicho :
  pedir_solicitud b cl es = Sigue s r dicho ->
  Fecha.valida (sol_fecha s) = true
  /\ es_domingo (sol_fecha s) = false
  /\ sol_evento s <> EmptyString.
Proof.
  unfold pedir_solicitud. intros H.
  apply ligar_Sigue in H. destruct H as ([cid h] & r1 & d1 & d2 & _ & H & _).
  apply ligar_Sigue in H. destruct H as (m & r2 & d3 & d4 & _ & H & _).
  apply ligar_Sigue in H.
  destruct H as ([d0 disp] & r3 & d5 & d6 & H3 & H & _).
  apply pedir_fecha_fecha in H3. destruct H3 as (V & _ & D).
  pose proof (pedir_detalle_evento _ _ _ _ _ _ _ H) as Hev.
  apply pedir_detalle_Sigue in H. destruct H as (_ & -> & _). auto.
Qed.

(** On a file the program wrote, the two ways [registrar_reservacion]
    ends: with the file as it was and what the questions printed, or with
    one more row, made of the answers, and the folio printed last. *)
Lemma registrar_reservacion_casos b es :
  integra b ->
  (final (registrar_reservacion b es) = b
   /\ Forall (fun m => es_de_guardar m = false)
        (salida (registrar_reservacion b es)))
  \/ exists s r d,
       pedir_solicitud b (listar_clientes b) es = Sigue s r d
       /\ registrar_reservacion b es
          = mkresultado
              (con_reservacion b (sol_cliente s) (sol_sala s)
                 (Fecha.strftime (sol_fecha s)) (sol_turno s) (sol_evento s))
              (d ++ [ReservacionRegistrada
                       (generar_folio
                          (nueva_clave (seq_reservaciones b)
                             (map r_id (reservaciones b))))])
              Termina.
Proof.
  intros I. unfold registrar_reservacion.
  destruct (listar_clientes b) as [| c cl] eqn:Ecl.
  { left. split; [reflexivity | repeat constructor]. }
  rewrite <- Ecl.
  destruct (pedir_solicitud b (listar_clientes b) es) as [s r d | f d] eqn:E.
  - right. exists s, r, d. split; [reflexivity |]. cbn [concluir].
    now rewrite (guardar_solicitud b es s r d I E).
  - left. cbn [concluir final salida]. split; [reflexivity |].
    pose proof (calla_pedir_solicitud b (listar_clientes b) es) as H.
    unfold calla in H. now rewrite E in H.
Qed.

(** X8.  On a file the program wrote, one run of [registrar_reservacion],
    whatever is typed, never prints the error of the taken room.  It ends
    with the file as it was and no folio printed, or it adds exactly one
    row: the key is new, the folio is the one of the key and is printed
    last, the client and the room exist, the shift is one of the three and
    was free for that room and date, the name of the event is not empty,
    and the date is a calendar date that is not a Sunday; clients and rooms
    are untouched. *)
Theorem X8_reserva_en_una_sesion (b : base) (es : list entrada) :
  alcanzable b ->
  ~ In ErrorSalaReservada (salida (registrar_reservacion b es))
  /\ ((final (registrar_reservacion b es) = b
       /\ forall f,
            ~ In (ReservacionRegistrada f)
                (salida (registrar_reservacion b es)))
      \/ (estado (registrar_reservacion b es) = Termina
          /\ exists k cid sid d t ev,
               reservaciones (final (registrar_reservacion b es))
               = (reservaciones b
                  ++ [mkreservacion k (generar_folio k) cid sid
                        (Fecha.strftime d) t ev])%list
               /\ clientes (final (registrar_reservacion b es)) = clientes b
               /\ salas (final (registrar_reservacion b es)) = salas b
               /\ (forall r, In r (reservaciones b) -> r_id r < k)
               /\ last (salida (registrar_reservacion b es)) ErrorSalaReservada
                  = ReservacionRegistrada (generar_folio k)
               /\ In cid (map c_id (clientes b))
               /\ In sid (map s_id (salas b))
               /\ In t TURNOS
               /\ ~ ocupado b sid (Fecha.strftime d) t
               /\ ev <> EmptyString
               /\ Fecha.valida d = true
               /\ es_domingo d = false)).
Proof.
  intros A. apply alcanzable_integra in A.
  destruct (registrar_reservacion_casos b es A)
    as [[Hf Hs] | (s & r & d & E & ->)].
  - split.
    + intros H. rewrite Forall_forall in Hs. apply Hs in H. discriminate.
    + left. split; [assumption |]. intros f H.
      rewrite Forall_forall in Hs. apply Hs in H. discriminate.
  - cbn [salida final estado].
    pose proof (calla_pedir_solicitud b (listar_clientes b) es) as Hc.
    unfold calla in Hc. rewrite E in Hc. cbn [dicho_de] in Hc.
    rewrite Forall_forall in Hc. split.
    + intros H. apply in_app_or in H. destruct H as [H | [H | []]];
        [apply Hc in H |]; discriminate.
    + right. split; [reflexivity |].
      destruct (solicitud_referencias b es s r d E) as (H1 & H2 & H3 & H4).
      destruct (solicitud_bien_formada _ _ _ _ _ _ E) as (H5 & H6 & H7).
      exists (nueva_clave (seq_reservaciones b) (map r_id (reservaciones b))),
        (sol_cliente s), (sol_sala s), (sol_fecha s), (sol_turno s),
        (sol_evento s).
      unfold con_reservacion. cbn [reservaciones clientes salas].
      repeat split; auto.
      * intros x Hx. apply nueva_clave_mayor. now apply in_map.
      * apply last_last.
      * intros Ho. apply existsb_ocupado in Ho. congruence.
Qed.

End ReservaSecuencial.

(** * What every stored reservation looks like *)

Section Formadas.
Import Base Consola Reservas Estado Propiedades.

Lemma pedir_edicion_nombre b es k ev r d :
  pedir_edicion b es = Sigue (k, ev) r d -> ev <> EmptyString.
Proof.
  unfold pedir_edicion. intros H.
  apply ligar_Sigue in H. destruct H as ([] & r0 & d0 & d0' & _ & H & _).
  apply ligar_Sigue in H. destruct H as (desde & r1 & d1 & d1' & _ & H & _).
  apply ligar_Sigue in H. destruct H as (hasta & r2 & d2 & d2' & _ & H & _).
  destruct (eventos_en_rango b desde hasta) as [| x rows]; [discriminate |].
  apply ligar_Sigue in H. destruct H as ([] & r3 & d3 & d3' & _ & H & _).
  apply ligar_Sigue in H. destruct H as (k' & r4 & d4 & d4' & _ & H & _).
  apply ligar_Sigue in H. destruct H as (ev' & r5 & d5 & d5' & Hev & H & _).
  unfold ret in H. injection H as _ <- _ _.
  now apply pedir_no_vacio_Sigue in Hev.
Qed.

Lemma bien_formada_renombrada ev k r :
  ev <> EmptyString -> bien_formada r ->
  bien_formada (donde_id r_id k (con_nombre_evento ev) r).
Proof.
  intros Hev (Ht & Hn & Hd). unfold donde_id.
  destruct (r_id r =? k); [| repeat split; assumption].
  repeat split; assumption.
Qed.

Lemma alcanzable_bien_formadas b :
  alcanzable b -> forall r, In r (reservaciones b) -> bien_formada r.
Proof.
  induction 1 as [| b es A IH | b es A IH | b es A IH | b es A IH].
  - intros r [].
  - destruct (registrar_cliente_final b es) as [-> | (n & a & ->)];
      [assumption | exact IH].
  - destruct (registrar_sala_final b es) as [-> | (n & c & k & E)];
      [assumption |].
    unfold insertar_sala in E. destruct (_ && _); [| discriminate].
    injection E as <- _. exact IH.
  - destruct (registrar_reservacion_casos b es (alcanzable_integra b A))
      as [[-> _] | (s & r0 & d & E & ->)]; [assumption |].
    cbn [final]. unfold con_reservacion. cbn [reservaciones].
    intros r Hr. apply in_app_or in Hr. destruct Hr as [Hr | [<- | []]]; auto.
    destruct (solicitud_referencias b es s r0 d E) as (_ & _ & Ht & _).
    destruct (solicitud_bien_formada _ _ _ _ _ _ E) as (V & D & Hev).
    repeat split; cbn; eauto.
  - unfold editar_nombre_evento.
    destruct (pedir_edicion b es) as [[k ev] r0 d | f d] eqn:E;
      cbn [final]; [| assumption].
    apply pedir_edicion_nombre in E.
    unfold actualizar_nombre_evento. cbn [reservaciones].
    intros r Hr. apply in_map_iff in Hr. destruct Hr as (r1 & <- & Hr1).
    apply bien_formada_renombrada; auto.
Qed.

(** X9.  In every file the program can have written, each reservation has
    one of the three shifts, a name of the event that is not empty, and as
    date the text of a calendar date that is not a Sunday. *)
Theorem X9_reservaciones_bien_formadas (b : base) :
  alcanzable b ->
  forall r, In r (reservaciones b) ->
    In (turno r) TURNOS
    /\ nombre_evento r <> EmptyString
    /\ exists d, fecha r = Fecha.strftime d
                 /\ Fecha.valida d = true /\ es_domingo d = false
                 /\ parsear_fecha (fecha r) = Some d.
Proof.
  intros A r Hr.
  destruct (alcanzable_bien_formadas b A r Hr) as (Ht & Hn & d & E & V & D).
  split; [assumption |]. split; [assumption |].
  exists d. rewrite E. repeat split; auto. now apply strptime_strftime.
Qed.

(** X10.  In every file the program can have written the constraints of
    the schema hold, and so do the two references of each reservation,
    which the connection does not enforce: its client is a row of
    [clientes] and its room a row of [salas]. *)
Theorem X10_esquema_y_referencias (b : base) :
  alcanzable b ->
  esquema b
  /\ forall r, In r (reservaciones b) ->
       (exists c, In c (clientes b) /\ c_id c = cliente_id r)
       /\ (exists s, In s (salas b) /\ s_id s = sala_id r).
Proof.
  intros A. apply alcanzable_integra in A. split; [now apply integra_esquema |].
  intros r Hr. destruct (int_referencias b A r Hr) as [Hc Hs].
  apply in_map_iff in Hc, Hs.
  destruct Hc as (c & Ec & Hc). destruct Hs as (s & Es & Hs).
  split; [exists c | exists s]; auto.
Qed.

End Formadas.

Section FormadasTestigos.
Import Base Consola Reservas Estado Ejemplo.

(** X8 on the example: the booking of the afternoon of Monday the 9th. *)
Lemma X8_testigo :
  ~ In ErrorSalaReservada
      (salida (registrar_reservacion b_inicial
                 [teclea "1"; teclea "11-09-2026"; teclea "1";
                  teclea "Vespertino"; teclea "Taller"]))
  /\ reservaciones b_una = [r_taller].
Proof.
  split; [| reflexivity].
  apply (X8_reserva_en_una_sesion b_inicial _ alcanzable_b_inicial).
Defined.

(** X9 on the example: the reservation of [b_una]. *)
Lemma X9_testigo :
  In r_taller (reservaciones b_una)
  /\ In (turno r_taller) TURNOS
  /\ nombre_evento r_taller <> EmptyString
  /\ exists d, fecha r_taller = Fecha.strftime d
               /\ Fecha.valida d = true /\ es_domingo d = false
               /\ parsear_fecha (fecha r_taller) = Some d.
Proof.
  assert (H : In r_taller (reservaciones b_una)) by (vm_compute; auto).
  split; [exact H |].
  exact (X9_reservaciones_bien_formadas b_una alcanzable_b_una r_taller H).
Defined.

(** X10 on the example. *)
Lemma X10_testigo :
  esquema b_cuatro
  /\ forall r, In r (reservaciones b_cuatro) ->
       (exists c, In c (clientes b_cuatro) /\ c_id c = cliente_id r)
       /\ (exists s, In s (salas b_cuatro) /\ s_id s = sala_id r).
Proof. exact (X10_esquema_y_referencias b_cuatro alcanzable_b_cuatro). Defined.

End FormadasTestigos.

(** * Availability after a booking *)

Section Despues.
Import Base Consola Reservas Estado Propiedades.

Lemma ocupado_con_reservacion b cid sid f t ev sid' f' t' :
  ocupado (con_reservacion b cid sid f t ev) sid' f' t'
  <-> ocupado b sid' f' t' \/ (sid' = sid /\ f' = f /\ t' = t).
Proof.
  unfold ocupado, con_reservacion. cbn [reservaciones]. split.
  - intros (r & Hr & E1 & E2 & E3). apply in_app_or in Hr.
    destruct Hr as [Hr | [<- | []]]; [left; eauto | right].
    cbn in *. auto.
  - intros [(r & Hr & E) | (-> & -> & ->)].
    + exists r. split; [apply in_or_app; now left | assumption].
    + eexists. split; [apply in_or_app; right; now left |]. cbn. auto.
Qed.

(** X11.  On a file the program wrote, when [registrar_reservacion] prints
    a folio there are a room, a date and a shift, free before, that are no
    longer free afterwards, while every other room, date and shift is free
    afterwards exactly when it was free before. *)
Theorem X11_disponibilidad_tras_reservar (b : base) (es : list entrada)
    (fol : string) :
  alcanzable b ->
  In (ReservacionRegistrada fol) (salida (registrar_reservacion b es)) ->
  exists sid d t,
    In t (turnos_libres b sid d)
    /\ ~ In t (turnos_libres (final (registrar_reservacion b es)) sid d)
    /\ forall sid' d' t',
         ~ (sid' = sid /\ Fecha.strftime d' = Fecha.strftime d /\ t' = t) ->
         (In t' (turnos_libres (final (registrar_reservacion b es)) sid' d')
          <-> In t' (turnos_libres b sid' d')).
Proof.
  intros A Hin. apply alcanzable_integra in A.
  destruct (registrar_reservacion_casos b es A)
    as [[_ Hs] | (s & r & d & E & Hr)].
  { rewrite Forall_forall in Hs. apply Hs in Hin. discriminate. }
  rewrite Hr. cbn [final].
  destruct (solicitud_referencias b es s r d E) as (_ & _ & Ht & Hl).
  exists (sol_sala s), (sol_fecha s), (sol_turno s).
  split; [| split].
  - apply turnos_libres_In. split; [assumption |].
    intros Ho. apply existsb_ocupado in Ho. congruence.
  - rewrite turnos_libres_In, ocupado_con_reservacion. tauto.
  - intros sid' d' t' Hne.
    rewrite !turnos_libres_In, ocupado_con_reservacion. tauto.
Qed.

End Despues.

Section DespuesTestigos.
Import Base Consola Reservas Estado Ejemplo.

(** X11 on the example: the booking that makes [b_una]. *)
Lemma X11_testigo :
  In (ReservacionRegistrada "R000001")
    (salida (registrar_reservacion b_inicial
               [teclea "1"; teclea "11-09-2026"; teclea "1";
                teclea "Vespertino"; teclea "Taller"]))
  /\ exists sid d t,
       In t (turnos_libres b_inicial sid d)
       /\ ~ In t (turnos_libres b_una sid d)
       /\ forall sid' d' t',
            ~ (sid' = sid /\ Fecha.strftime d' = Fecha.strftime d /\ t' = t) ->
            (In t' (turnos_libres b_una sid' d')
             <-> In t' (turnos_libres b_inicial sid' d')).
Proof.
  assert (H : In (ReservacionRegistrada "R000001")
                (salida (registrar_reservacion b_inicial
                           [teclea "1"; teclea "11-09-2026"; teclea "1";
                            teclea "Vespertino"; teclea "Taller"])))
    by (vm_compute; auto 10).
  split; [exact H |].
  exact (X11_disponibilidad_tras_reservar b_inicial _ _ alcanzable_b_inicial H).
Defined.

End DespuesTestigos.

(** * The report after a change of name *)

Section ReporteTrasEditar.
Import Base Consola Reservas Estado Propiedades.

Lemma colocar_map {A B : Type} (le : A -> A -> bool) (le' : B -> B -> bool)
    (g : A -> B) :
  (forall x y, le' (g x) (g y) = le x y) ->
  forall x l, colocar le' (g x) (map g l) = map g (colocar le x l).
Proof.
  intros H x l. induction l as [| y l IH]; cbn [colocar map]; [reflexivity |].
  rewrite H. destruct (le x y); cbn [map]; [reflexivity | now rewrite IH].
Qed.

Lemma ordenar_map {A B : Type} (le : A -> A -> bool) (le' : B -> B -> bool)
    (g : A -> B) :
  (forall x y, le' (g x) (g y) = le x y) ->
  forall l, ordenar le' (map g l) = map g (ordenar le l).
Proof.
  intros H l. induction l as [| x l IH]; cbn [ordenar map]; [reflexivity |].
  rewrite IH. now apply colocar_map.
Qed.

Lemma filter_map_igual {A : Type} (p : A -> bool) (g : A -> A) :
  (forall x, p (g x) = p x) ->
  forall l, filter p (map g l) = map g (filter p l).
Proof.
  intros H l. induction l as [| x l IH]; cbn [filter map]; [reflexivity |].
  rewrite H, IH. now destruct (p x).
Qed.

Lemma seleccionar_por_fecha_renombrada b ev k f :
  seleccionar_por_fecha (actualizar_nombre_evento b ev k) f
  = map (fun x => (donde_id r_id k (con_nombre_evento ev) (fst (fst x)),
                   snd (fst x), snd x))
      (seleccionar_por_fecha b f).
Proof.
  unfold seleccionar_por_fecha, actualizar_nombre_evento.
  cbn [reservaciones].
  set (h := donde_id r_id k (con_nombre_evento ev)).
  assert (Hh : forall r, fecha (h r) = fecha r /\ turno (h r) = turno r
                         /\ sala_id (h r) = sala_id r
                         /\ cliente_id (h r) = cliente_id r).
  { intros r. unfold h, donde_id. now destruct (r_id r =? k). }
  rewrite filter_map_igual by (intros r; now rewrite (proj1 (Hh r))).
  rewrite <- ordenar_map with (le' := le_turno_sala).
  2:{ intros [[r1 s1] c1] [[r2 s2] c2]. cbn [fst snd le_turno_sala].
      destruct (Hh r1) as (_ & -> & _), (Hh r2) as (_ & -> & _).
      reflexivity. }
  f_equal.
  induction (filter (fun r => String.eqb (fecha r) f) (reservaciones b))
    as [| r l IH]; cbn [map flat_map]; [reflexivity |].
  rewrite map_app, IH. f_equal.
  unfold juntar. cbn [clientes salas].
  destruct (Hh r) as (_ & _ & -> & ->).
  induction (filter (fun s => sala_id r =? s_id s) (salas b))
    as [| s ss IHs]; cbn [map flat_map]; [reflexivity |].
  rewrite map_app, IHs. f_equal. rewrite !map_map. reflexivity.
Qed.

(** X13.  Whatever is typed to [editar_nombre_evento], the report of every
    date afterwards has the rows it had, in the same order and joined with
    the same room and client; either no row differs, or the rows of one
    key carry a new name, not empty, and nothing else in them differs. *)
Theorem X13_reporte_tras_editar (b : base) (es : list entrada) :
  exists cambio : reservacion -> reservacion,
    (forall d,
       reservaciones_de_fecha (final (editar_nombre_evento b es)) d
       = map (fun x => (cambio (fst (fst x)), snd (fst x), snd x))
           (reservaciones_de_fecha b d))
    /\ ((forall r, cambio r = r)
        \/ exists k ev,
             ev <> EmptyString
             /\ forall r, cambio r
                          = if r_id r =? k then con_nombre_evento ev r else r).
Proof.
  unfold editar_nombre_evento.
  destruct (pedir_edicion b es) as [[k ev] r d | f d] eqn:E; cbn [final].
  - exists (donde_id r_id k (con_nombre_evento ev)). split.
    + intros d0. apply seleccionar_por_fecha_renombrada.
    + right. exists k, ev. split; [| reflexivity].
      eapply pedir_edicion_nombre; eauto.
  - exists (fun r => r). split; [| now left].
    intros d0. rewrite <- (map_id (reservaciones_de_fecha b d0)) at 1.
    apply map_ext. now intros [[r0 s0] c0].
Qed.

End ReporteTrasEditar.

(** * The date [consultar_reservaciones] falls back on *)

Section ConsultaDeHoy.
Import Base Consola Reservas Estado Propiedades.

Lemma sin_espacios_strftime d : sin_espacios (Fecha.strftime d) = true.
Proof.
  assert (D : forall n, 0 <= n < 10 ->
                        Texto.es_espacio (Texto.car_digito n) = false).
  { intros n Hn. apply digito_no_espacio, es_digito_car. lia. }
  unfold Fecha.strftime, Fecha.cuatro_digitos, Fecha.dos_digitos.
  cbn [append sin_espacios].
  rewrite !D by (apply Z.mod_pos_bound; lia). reflexivity.
Qed.

Lemma strftime_no_vacia d : Fecha.strftime d <> EmptyString.
Proof. unfold Fecha.strftime, Fecha.dos_digitos. cbn [append]. discriminate. Qed.

(** X5.  The line typed to [consultar_reservaciones] is ASCII and is
    blank, or is not a date of the calendar in the format; the day is of
    the year 1000 or later.  Then the function leaves the file as it is
    and goes on exactly as when the date of the day is typed: it prints
    the same report, offers the same export and ends the same way;
    unless the line was blank, it first says that the date of the day is
    used. *)
Theorem X5_consulta_de_hoy (b : base) (e : entrada) (r : list entrada) :
  Fecha.valida (hoy e) = true ->
  1000 <= Fecha.year (hoy e) ->
  solo_ascii (linea e) = true ->
  parsear_fecha (Texto.strip (linea e)) = None ->
  final (fst (consultar_y_exportar b (e :: r))) = b
  /\ salida (fst (consultar_y_exportar b (e :: r)))
     = ((match Texto.strip (linea e) with
         | EmptyString => []
         | _ => [FormatoInvalidoUsaActual]
         end)
        ++ salida (fst (consultar_y_exportar b
                          (mkentrada (hoy e) (Fecha.strftime (hoy e)) :: r))))%list
  /\ estado (fst (consultar_y_exportar b (e :: r)))
     = estado (fst (consultar_y_exportar b
                      (mkentrada (hoy e) (Fecha.strftime (hoy e)) :: r)))
  /\ snd (consultar_y_exportar b (e :: r))
     = snd (consultar_y_exportar b
              (mkentrada (hoy e) (Fecha.strftime (hoy e)) :: r)).
Proof.
  intros V _ _ Hn. unfold consultar_y_exportar, consultar_reservaciones.
  cbn [linea hoy].
  rewrite (strip_sin_espacios (Fecha.strftime (hoy e)))
    by apply sin_espacios_strftime.
  unfold parsear_fecha in *. rewrite (strptime_strftime _ V), Hn.
  destruct (Fecha.strftime (hoy e)) eqn:Ef;
    [exfalso; exact (strftime_no_vacia _ Ef) |]. clear Ef.
  unfold tabla_impresa.
  destruct (Texto.strip (linea e));
    destruct (reservaciones_de_fecha b (hoy e)); cbn; auto.
Qed.

End ConsultaDeHoy.

(** * The range of [editar_nombre_evento] within one year *)

Section RangoEnUnAnio.
Import Base Consola Reservas Estado Propiedades.

Lemma compare_app p1 : forall p2 r1 r2,
  String.length p1 = String.length p2 ->
  String.compare (p1 ++ r1) (p2 ++ r2)
  = match String.compare p1 p2 with
    | Eq => String.compare r1 r2
    | o => o
    end.
Proof.
  induction p1 as [| c p1 IH]; intros [| c' p2] r1 r2 H; try discriminate.
  - reflexivity.
  - cbn [append String.compare]. destruct (Ascii.compare c c'); auto.
Qed.

Lemma menor_que_cien n :
  0 <= n < 100 -> In n (map Z.of_nat (seq 0 100)).
Proof.
  intros H. apply in_map_iff. exists (Z.to_nat n). split; [lia |].
  apply in_seq. lia.
Qed.

Lemma compare_dos_digitos n m :
  0 <= n < 100 -> 0 <= m < 100 ->
  String.compare (Fecha.dos_digitos n) (Fecha.dos_digitos m) = (n ?= m).
Proof.
  intros Hn Hm.
  assert (T : forallb
                (fun a => forallb
                   (fun c => match String.compare (Fecha.dos_digitos a)
                                     (Fecha.dos_digitos c), (a ?= c) with
                             | Eq, Eq | Lt, Lt | Gt, Gt => true
                             | _, _ => false
                             end)
                   (map Z.of_nat (seq 0 100)))
                (map Z.of_nat (seq 0 100)) = true)
    by (vm_compute; reflexivity).
  rewrite forallb_forall in T. specialize (T n (menor_que_cien n Hn)).
  rewrite forallb_forall in T. specialize (T m (menor_que_cien m Hm)).
  destruct (String.compare _ _), (n ?= m); congruence.
Qed.

(** Of two dates of one year, the texts are in the order of the dates. *)
Lemma leb_strftime a c :
  Fecha.valida a = true -> Fecha.valida c = true ->
  Fecha.year a = Fecha.year c ->
  String.leb (Fecha.strftime a) (Fecha.strftime c) = Fecha.leb a c.
Proof.
  intros Va Vc Hy.
  pose proof (valida_cotas a Va) as (_ & Hma & Hda).
  pose proof (valida_cotas c Vc) as (_ & Hmc & Hdc).
  pose proof (days_in_month_pos (Fecha.year a) (Fecha.month a) Hma).
  pose proof (days_in_month_pos (Fecha.year c) (Fecha.month c) Hmc).
  unfold String.leb, Fecha.strftime. rewrite Hy.
  rewrite compare_app by reflexivity.
  rewrite compare_dos_digitos by lia.
  change ("-" ++ ?x)%string with (String "-" x).
  cbn [String.compare]. change (Ascii.compare "-" "-") with Eq. cbn match.
  rewrite compare_app by reflexivity.
  rewrite compare_dos_digitos by lia.
  rewrite compare_refl.
  unfold Fecha.leb, Fecha.ltb. rewrite Hy, Z.ltb_irrefl, Z.eqb_refl.
  cbn [orb andb].
  destruct (Z.compare_spec (Fecha.month a) (Fecha.month c));
    destruct (Z.compare_spec (Fecha.day a) (Fecha.day c));
    destruct (Fecha.month c <? Fecha.month a) eqn:E1;
    destruct (Fecha.month c =? Fecha.month a) eqn:E2;
    destruct (Fecha.day c <? Fecha.day a) eqn:E3;
    cbn; try reflexivity; lia.
Qed.

(** X15.  For two bounds of [editar_nombre_evento] and a reservation whose
    date is of the year of both bounds, the reservation is among the rows
    shown exactly when it is in the file and its date is not before the
    first bound and not after the second. *)
Theorem X15_rango_en_un_anio (b : base) (desde hasta d : Fecha.date)
    (r : reservacion) :
  Fecha.valida desde = true -> Fecha.valida hasta = true ->
  Fecha.valida d = true ->
  Fecha.year desde = Fecha.year d -> Fecha.year hasta = Fecha.year d ->
  fecha r = Fecha.strftime d ->
  (In r (eventos_en_rango b desde hasta)
   <-> In r (reservaciones b)
       /\ Fecha.leb desde d = true /\ Fecha.leb d hasta = true).
Proof.
  intros V1 V2 V3 Y1 Y2 Hf.
  unfold eventos_en_rango, seleccionar_rango.
  rewrite ordenar_In, filter_In, andb_true_iff, Hf.
  rewrite (leb_strftime desde d), (leb_strftime d hasta) by congruence.
  tauto.
Qed.

End RangoEnUnAnio.

(** * Lists in order *)

Section EnOrden.
Import Base Consola Reservas Estado Propiedades.

Lemma Sorted_implica {A : Type} (R R' : A -> A -> Prop) l :
  (forall x y, R x y -> R' x y) -> Sorted R l -> Sorted R' l.
Proof.
  intros H S. induction S as [| x l Hs IH Hd]; constructor; [assumption |].
  destruct Hd; constructor. now apply H.
Qed.

Lemma StronglySorted_entre {A : Type} (R : A -> A -> Prop) l1 :
  forall x l2 y l3,
    StronglySorted R (l1 ++ x :: l2 ++ y :: l3) -> R x y.
Proof.
  induction l1 as [| a l1 IH]; intros x l2 y l3 H.
  - cbn [app] in H. apply StronglySorted_inv in H. destruct H as [_ H].
    rewrite Forall_forall in H. apply H. apply in_or_app. right. now left.
  - cbn [app] in H. apply StronglySorted_inv in H. destruct H as [H _].
    eapply IH; eauto.
Qed.

Lemma leb_texto_trans s t u :
  String.leb s t = true -> String.leb t u = true -> String.leb s u = true.
Proof.
  unfold String.leb.
  destruct (String.compare s t) eqn:E1; try discriminate;
    destruct (String.compare t u) eqn:E2; try discriminate; intros _ _.
  - apply compare_eq in E1, E2. subst. now rewrite compare_refl.
  - apply compare_eq in E1. subst. now rewrite E2.
  - apply compare_eq in E2. subst. now rewrite E1.
  - now rewrite (compare_lt_trans _ _ _ E1 E2).
Qed.

(** X16.  Of two rows shown by [editar_nombre_evento] whose dates are of
    one year, the one shown first has the earlier date, or the same. *)
Theorem X16_orden_en_un_anio (b : base) (desde hasta : Fecha.date)
    (l1 l2 l3 : list reservacion) (x y : reservacion) (dx dy : Fecha.date) :
  eventos_en_rango b desde hasta = (l1 ++ x :: l2 ++ y :: l3)%list ->
  fecha x = Fecha.strftime dx -> fecha y = Fecha.strftime dy ->
  Fecha.valida dx = true -> Fecha.valida dy = true ->
  Fecha.year dx = Fecha.year dy ->
  Fecha.leb dx dy = true.
Proof.
  intros E Hx Hy Vx Vy Y.
  pose proof (eventos_en_orden_de_texto b desde hasta) as S.
  apply Sorted_StronglySorted in S.
  2:{ intros u v w. apply leb_texto_trans. }
  rewrite E in S. apply StronglySorted_entre in S.
  rewrite Hx, Hy, leb_strftime in S; assumption.
Qed.

Lemma antes_cliente_spec x y :
  le_texto_luego String.leb (c_apellidos x, c_nombre x)
    (c_apellidos y, c_nombre y) = true
  <-> antes_cliente x y.
Proof.
  unfold le_texto_luego, antes_cliente, texto_lt. cbn [fst snd].
  destruct (String.compare (c_apellidos x) (c_apellidos y)) eqn:E.
  - apply compare_eq in E. split; [auto |].
    intros [H | [_ H]]; [discriminate | exact H].
  - split; auto.
  - split; [discriminate |]. intros [H | [H _]]; [discriminate |].
    apply compare_eq in H. congruence.
Qed.

(** X19.  [mostrar_clientes] says that there are no clients when the table
    is empty; otherwise it prints one table, with the key, the surnames
    and the name of every client, each client once, by surnames and then
    by name in the order of texts. *)
Theorem X19_mostrar_clientes (b : base) :
  exists rows,
    Permutation rows (clientes b)
    /\ Sorted antes_cliente rows
    /\ mostrar_clientes b
       = match clientes b with
         | [] => [SinClientes]
         | _ => [TablaClientes
                   (map (fun r => (c_id r, c_apellidos r, c_nombre r)) rows)]
         end.
Proof.
  exists (listar_clientes b). unfold listar_clientes, seleccionar_clientes.
  split; [apply ordenar_perm |]. split.
  - eapply Sorted_implica; [| apply ordenar_ordenada].
    + intros x y H. cbv beta in H. apply antes_cliente_spec. exact H.
    + intros x y. unfold le_texto_luego, String.leb. cbn [fst snd].
      pose proof (String.compare_antisym (c_apellidos x) (c_apellidos y)) as Ha.
      pose proof (String.compare_antisym (c_nombre x) (c_nombre y)) as Hn.
      destruct (String.compare (c_apellidos y) (c_apellidos x));
        destruct (String.compare (c_nombre y) (c_nombre x));
        cbn [CompOpp] in Ha, Hn; rewrite Ha; try rewrite Hn; auto.
  - unfold mostrar_clientes, listar_clientes, seleccionar_clientes.
    set (le := fun x y : cliente => _).
    pose proof (ordenar_perm le (clientes b)) as P.
    destruct (clientes b) as [| c cs] eqn:Ec.
    + reflexivity.
    + destruct (ordenar le (c :: cs)) eqn:Eo; [| reflexivity].
      apply Permutation_nil in P. discriminate.
Qed.

Lemma ascendente_sin_repetir (l : list sala) :
  NoDup (map s_id l) ->
  StronglySorted (fun x y => s_id x <= s_id y) l ->
  StronglySorted (fun x y => s_id x < s_id y) l.
Proof.
  induction l as [| a l IH]; intros N S; [constructor |].
  apply StronglySorted_inv in S. destruct S as [S F].
  cbn [map] in N. inversion N as [| ? ? Ha Nl]; subst.
  constructor; [auto |].
  rewrite Forall_forall in *. intros y Hy.
  specialize (F y Hy).
  assert (s_id a <> s_id y) by (intros E; apply Ha; rewrite E; now apply in_map).
  lia.
Qed.

Lemma disponibles_ascendentes b d (l : list sala) :
  StronglySorted (fun x y => s_id x < s_id y) l ->
  StronglySorted Z.lt
    (map d_id
       (flat_map
          (fun s =>
             match turnos_libres b (s_id s) d with
             | [] => []
             | libres => [mkdisponible (s_id s) (s_nombre s) (s_cupo s) libres]
             end) l)).
Proof.
  induction l as [| a l IH]; intros S; [constructor |].
  apply StronglySorted_inv in S. destruct S as [S F].
  cbn [flat_map]. specialize (IH S).
  destruct (turnos_libres b (s_id a) d) as [| t0 ts]; [exact IH |].
  cbn [app map d_id]. constructor; [exact IH |].
  rewrite Forall_forall in *. intros k Hk.
  apply in_map_iff in Hk. destruct Hk as (x & <- & Hx).
  apply in_flat_map in Hx. destruct Hx as (s1 & Hs & Hx).
  specialize (F s1 Hs).
  destruct (turnos_libres b (s_id s1) d) as [| t1 ts1]; [destruct Hx |].
  destruct Hx as [<- | []]. exact F.
Qed.

(** X17.  On a file that meets the schema, the rooms
    [salas_disponibles_para_fecha] returns come by ascending key, none of
    them twice. *)
Theorem X17_disponibles_por_clave (b : base) (d : Fecha.date) :
  esquema b ->
  StronglySorted Z.lt (map d_id (salas_disponibles_para_fecha b d)).
Proof.
  intros E. unfold salas_disponibles_para_fecha.
  apply disponibles_ascendentes.
  unfold listar_salas, seleccionar_salas.
  set (le := fun x y : sala => s_id x <=? s_id y).
  apply ascendente_sin_repetir.
  - eapply Permutation_NoDup; [| apply (pk_salas b E)].
    apply Permutation_map. symmetry. apply ordenar_perm.
  - apply Sorted_StronglySorted; [intros x y z; lia |].
    eapply Sorted_implica; [| apply ordenar_ordenada].
    + intros x y H. now apply Z.leb_le.
    + intros x y H. apply Z.leb_gt in H. apply Z.leb_le. lia.
Qed.

Lemma turnos_libres_dia_libre b sid d :
  dia_libre b d -> turnos_libres b sid d = TURNOS.
Proof.
  intros L. unfold turnos_libres.
  assert (H : forall t, contar_reservaciones b sid (Fecha.strftime d) t = 0).
  { intros t. unfold contar_reservaciones. rewrite filter_nada; [reflexivity |].
    intros r Hr. unfold misma_terna.
    replace (String.eqb (fecha r) (Fecha.strftime d)) with false.
    - now rewrite andb_false_r.
    - symmetry. apply String.eqb_neq. now apply L. }
  cbn [TURNOS filter]. now rewrite !H.
Qed.

(** X18.  For a date on which no reservation of the file falls,
    [salas_disponibles_para_fecha] returns every room, in the order of
    [listar_salas], each with the three shifts in the order of [TURNOS]. *)
Theorem X18_dia_libre (b : base) (d : Fecha.date) :
  dia_libre b d ->
  salas_disponibles_para_fecha b d
  = map (fun s => mkdisponible (s_id s) (s_nombre s) (s_cupo s) TURNOS)
      (listar_salas b).
Proof.
  intros L. unfold salas_disponibles_para_fecha.
  induction (listar_salas b) as [| s l IH]; cbn [flat_map map];
    [reflexivity |].
  rewrite IH, (turnos_libres_dia_libre b (s_id s) d L). reflexivity.
Qed.

End EnOrden.

(** * The start of the program and the export *)

Section ArranqueYExporte.
Import Base Consola Reservas Estado Propiedades Arranque Exportar.


Lemma exportar_forma tabla es :
  exists k cola,
    sucesos (exportar_reporte tabla es) = (repeat OpcionInvalida k ++ cola)%list
    /\ (cola = []
        \/ exists f n,
             cola = [Escribe f n tabla; Exportado n]
             /\ n <> EmptyString
             /\ termina (exportar_reporte tabla es) = Termina).
Proof.
  induction es as [| e r IH]; cbn [exportar_reporte].
  - exists O, []. cbn. auto.
  - destruct (String.eqb _ "c"); [exists O, []; cbn; auto |].
    destruct (formato_de _) as [f |].
    + destruct r as [| e2 r2]; [exists O, []; cbn; auto |].
      exists O. eexists. split; [reflexivity |]. right.
      exists f. eexists. split; [reflexivity |]. split; [| reflexivity].
      destruct (Texto.strip (linea e2)); [destruct f |]; discriminate.
    + destruct IH as (k & cola & E & H). exists (S k), cola.
      cbn [antes_de sucesos termina repeat app]. rewrite E. split; [reflexivity |].
      exact H.
Qed.

Lemma ofrecer_forma tabla es :
  exists k cola,
    sucesos (ofrecer_exportar tabla es) = (repeat OpcionInvalida k ++ cola)%list
    /\ (cola = []
        \/ exists f n,
             cola = [Escribe f n tabla; Exportado n]
             /\ n <> EmptyString
             /\ termina (ofrecer_exportar tabla es) = Termina
             /\ exists e, In e es
                          /\ Texto.lower (Texto.strip (linea e)) = "s").
Proof.
  induction es as [| e r IH]; cbn [ofrecer_exportar].
  - exists O, []. cbn. auto.
  - destruct (String.eqb _ "s") eqn:Es.
    + destruct (exportar_forma tabla r) as (k & cola & E & H).
      destruct H as [-> | (f & n & -> & Hn & Ht)].
      * exists k, []. auto.
      * assert (forall j, repeat OpcionInvalida j ++ repeat OpcionInvalida k
                          = repeat OpcionInvalida (j + k))%list
          by (intros j; now rewrite repeat_app).
        exists k. eexists. split; [exact E |]. right.
        exists f, n. repeat split; auto.
        exists e. split; [now left | now apply String.eqb_eq].
    + destruct (String.eqb _ "n"); [exists O, []; cbn; auto |].
      destruct IH as (k & cola & E & H). exists (S k), cola.
      cbn [antes_de sucesos termina repeat app]. rewrite E. split; [reflexivity |].
      destruct H as [-> | (f & n & -> & Hn & Ht & e' & He & Hs)]; [now left |].
      right. exists f, n. repeat split; auto.
      exists e'. split; [now right | assumption].
Qed.

Lemma repetidas_no_escriben k f n t cola :
  In (Escribe f n t) (repeat OpcionInvalida k ++ cola)%list ->
  In (Escribe f n t) cola.
Proof.
  intros H. apply in_app_or in H. destruct H as [H | H]; [| exact H].
  apply repeat_spec in H. discriminate.
Qed.

(** X21.  [exportar_reporte] writes at most one file: after any number of
    refused options it either writes nothing, or writes once, the table
    it was given, to a file whose name is not empty, says so and
    returns. *)
Theorem X21_exporta_un_archivo (tabla : list renglon) (es : list entrada) :
  exists k,
    sucesos (exportar_reporte tabla es) = repeat OpcionInvalida k
    \/ exists f n,
         sucesos (exportar_reporte tabla es)
         = (repeat OpcionInvalida k ++ [Escribe f n tabla; Exportado n])%list
         /\ n <> EmptyString
         /\ termina (exportar_reporte tabla es) = Termina.
Proof.
  destruct (exportar_forma tabla es) as (k & cola & E & H). exists k.
  destruct H as [-> | (f & n & -> & Hn & Ht)].
  - left. now rewrite E, app_nil_r.
  - right. exists f, n. auto.
Qed.

(** X22.  [consultar_reservaciones] never changes the file.  A file
    written by its export holds the rows of the table that was printed
    just before, which are the rows of the report of one date and are not
    none; its name is not empty, and some line typed answered S to the
    offer. *)
Theorem X22_consulta_y_exporte (b : base) (es : list entrada) :
  final (fst (consultar_y_exportar b es)) = b
  /\ forall f n t,
       In (Escribe f n t) (sucesos (snd (consultar_y_exportar b es))) ->
       n <> EmptyString
       /\ t <> []
       /\ last (salida (fst (consultar_y_exportar b es))) SinReservaciones
          = TablaReservaciones t
       /\ (exists d, t = map proyectar (reservaciones_de_fecha b d))
       /\ exists e, In e es /\ Texto.lower (Texto.strip (linea e)) = "s".
Proof.
  assert (F : final (consultar_reservaciones b es) = b).
  { unfold consultar_reservaciones. destruct es as [| e r]; [reflexivity |].
    destruct (match Texto.strip (linea e) with
              | EmptyString => _ | String _ _ => _ end) as [d aviso].
    now destruct (reservaciones_de_fecha b d). }
  assert (T : forall t, tabla_impresa (salida (consultar_reservaciones b es))
                        = Some t ->
                        t <> []
                        /\ last (salida (consultar_reservaciones b es))
                             SinReservaciones = TablaReservaciones t
                        /\ exists d, t = map proyectar
                                           (reservaciones_de_fecha b d)).
  { intros t. unfold tabla_impresa, consultar_reservaciones.
    destruct es as [| e r]; [discriminate |].
    destruct (match Texto.strip (linea e) with
              | EmptyString => _ | String _ _ => _ end) as [d aviso].
    destruct (reservaciones_de_fecha b d) as [| x l] eqn:Er; cbn [salida];
      rewrite last_last; [discriminate |].
    intros [= <-]. split; [discriminate |]. split; [reflexivity |].
    exists d. now rewrite Er. }
  unfold consultar_y_exportar.
  destruct es as [| e r]; [cbn; split; [reflexivity | intros ? ? ? []] |].
  destruct (tabla_impresa _) as [t |] eqn:Et; cbn [fst snd sucesos].
  - split; [exact F |]. intros f n t' Hin.
    destruct (ofrecer_forma t r) as (k & cola & E & H).
    rewrite E in Hin. apply repetidas_no_escriben in Hin.
    destruct H as [-> | (f0 & n0 & -> & Hn & _ & e' & He & Hs)];
      [destruct Hin |].
    destruct Hin as [[= <- <- <-] | [[=] | []]].
    destruct (T t eq_refl) as (T1 & T2 & T3).
    repeat split; auto. exists e'. split; [now right | assumption].
  - split; [exact F |]. intros ? ? ? [].
Qed.

End ArranqueYExporte.

Section OrdenTestigos.
Import Base Consola Reservas Estado Ejemplo Propiedades.

(** X5 on the example: a word instead of a date, typed on Monday the
    9th, the day of the reservation of [b_una], and then N to the offer. *)
Lemma X5_testigo :
  parsear_fecha (Texto.strip "hoy") = None
  /\ salida (fst (consultar_y_exportar b_una
                    [mkentrada (Fecha.mkdate 2026 11 9) "hoy"; teclea "n"]))
     = [FormatoInvalidoUsaActual;
        TablaReservaciones
          [mkrenglon "R000001" "Taller" "11-09-2026" "Vespertino" "Hall A" 10
             "Doe, Jane"]]
  /\ snd (consultar_y_exportar b_una
            [mkentrada (Fecha.mkdate 2026 11 9) "hoy"; teclea "n"])
     = snd (consultar_y_exportar b_una
              [mkentrada (Fecha.mkdate 2026 11 9) "11-09-2026"; teclea "n"]).
Proof.
  assert (V : Fecha.valida (hoy (mkentrada (Fecha.mkdate 2026 11 9) "hoy"))
              = true) by (vm_compute; reflexivity).
  assert (Y : 1000 <= Fecha.year
                        (hoy (mkentrada (Fecha.mkdate 2026 11 9) "hoy")))
    by (vm_compute; discriminate).
  assert (A : solo_ascii (linea (mkentrada (Fecha.mkdate 2026 11 9) "hoy"))
              = true) by (vm_compute; reflexivity).
  assert (N : parsear_fecha
                (Texto.strip (linea (mkentrada (Fecha.mkdate 2026 11 9) "hoy")))
              = None) by (vm_compute; reflexivity).
  split; [exact N |].
  destruct (X5_consulta_de_hoy b_una _ [teclea "n"] V Y A N)
    as (_ & H2 & _ & H4).
  split; [exact H2 | exact H4].
Defined.

(** X15 on the example: the reservation of 21 December 2026 and the range
    from 1 November to 31 December of that year. *)
Lemma X15_testigo :
  In (mkreservacion 3 "R000003" 1 1 "12-21-2026" "Matutino" "Posada")
    (eventos_en_rango b_cuatro (Fecha.mkdate 2026 11 1)
       (Fecha.mkdate 2026 12 31))
  <-> In (mkreservacion 3 "R000003" 1 1 "12-21-2026" "Matutino" "Posada")
        (reservaciones b_cuatro)
      /\ Fecha.leb (Fecha.mkdate 2026 11 1) (Fecha.mkdate 2026 12 21) = true
      /\ Fecha.leb (Fecha.mkdate 2026 12 21) (Fecha.mkdate 2026 12 31) = true.
Proof.
  apply (X15_rango_en_un_anio b_cuatro (Fecha.mkdate 2026 11 1)
           (Fecha.mkdate 2026 12 31) (Fecha.mkdate 2026 12 21));
    vm_compute; reflexivity.
Defined.

(** X16 on the example: the rows of that range, of 9 November, 9 November
    and 21 December. *)
Lemma X16_testigo :
  eventos_en_rango b_cuatro (Fecha.mkdate 2026 11 1) (Fecha.mkdate 2026 12 31)
  = [mkreservacion 1 "R000001" 1 1 "11-09-2026" "Vespertino" "Taller";
     mkreservacion 2 "R000002" 1 1 "11-09-2026" "Nocturno" "Cena";
     mkreservacion 3 "R000003" 1 1 "12-21-2026" "Matutino" "Posada"]
  /\ Fecha.leb (Fecha.mkdate 2026 11 9) (Fecha.mkdate 2026 12 21) = true.
Proof.
  assert (E : eventos_en_rango b_cuatro (Fecha.mkdate 2026 11 1)
                (Fecha.mkdate 2026 12 31)
              = ([] ++ mkreservacion 1 "R000001" 1 1 "11-09-2026" "Vespertino"
                         "Taller"
                 :: [mkreservacion 2 "R000002" 1 1 "11-09-2026" "Nocturno"
                       "Cena"]
                 ++ mkreservacion 3 "R000003" 1 1 "12-21-2026" "Matutino"
                      "Posada" :: [])%list) by (vm_compute; reflexivity).
  split; [exact E |].
  apply (X16_orden_en_un_anio b_cuatro _ _ _ _ _ _ _ (Fecha.mkdate 2026 11 9)
           (Fecha.mkdate 2026 12 21) E);
    vm_compute; reflexivity.
Defined.

(** X17 on the example. *)
Lemma X17_testigo :
  esquema b_cuatro
  /\ StronglySorted Z.lt
       (map d_id
          (salas_disponibles_para_fecha b_cuatro (Fecha.mkdate 2026 11 9))).
Proof.
  assert (E : esquema b_cuatro)
    by (apply integra_esquema, alcanzable_integra, alcanzable_b_cuatro).
  split; [exact E |].
  exact (X17_disponibles_por_clave b_cuatro _ E).
Defined.

(** X18 on the example: Tuesday 10 November 2026 in [b_cuatro]. *)
Lemma X18_testigo :
  salas_disponibles_para_fecha b_cuatro (Fecha.mkdate 2026 11 10)
  = [mkdisponible 1 "Hall A" 10 ["Matutino"; "Vespertino"; "Nocturno"]].
Proof.
  assert (L : dia_libre b_cuatro (Fecha.mkdate 2026 11 10)).
  { intros r Hr. vm_compute in Hr.
    repeat (destruct Hr as [<- | Hr]; [discriminate |]). destruct Hr. }
  exact (X18_dia_libre b_cuatro _ L).
Defined.

End OrdenTestigos.

(** * Keys printed and typed back *)

Section ClavesDeVuelta.
Import Base Consola Reservas Estado Propiedades.

Lemma str_no_negativo n :
  0 <= n -> Texto.str n = Texto.digitos (S (Z.to_nat (Z.log2 n))) n.
Proof.
  intros H. unfold Texto.str.
  now replace (n <? 0) with false by (symmetry; apply Z.ltb_ge; lia).
Qed.

Lemma str_negativo n :
  n < 0 -> Texto.str n = String "-" (Texto.str (- n)).
Proof.
  intros H. unfold Texto.str at 1.
  replace (n <? 0) with true by (symmetry; apply Z.ltb_lt; lia).
  now rewrite str_no_negativo by lia.
Qed.

(** [int(str(n))] is [n]. *)
Lemma int_str n : Texto.int (Texto.str n) = Some n.
Proof.
  destruct (Z.ltb_spec n 0) as [H | H].
  - rewrite str_negativo by assumption.
    assert (D : solo_digitos (Texto.str (- n)) = true)
      by (rewrite str_no_negativo by lia; apply solo_digitos_digitos).
    assert (N : Texto.str (- n) <> EmptyString)
      by (rewrite str_no_negativo by lia; apply digitos_no_vacio).
    unfold Texto.int. rewrite strip_sin_espacios.
    2:{ cbn [sin_espacios]. now rewrite solo_digitos_sin_espacios. }
    rewrite leer_solo_digitos by auto. cbn [option_map].
    rewrite valor_str by lia. f_equal. lia.
  - rewrite int_sin_signo.
    + now rewrite valor_str.
    + rewrite str_no_negativo by assumption. apply solo_digitos_digitos.
    + rewrite str_no_negativo by assumption. apply digitos_no_vacio.
Qed.

Lemma sin_espacios_str n : sin_espacios (Texto.str n) = true.
Proof.
  destruct (Z.ltb_spec n 0) as [H | H].
  - rewrite str_negativo by assumption. cbn [sin_espacios].
    rewrite solo_digitos_sin_espacios; [reflexivity |].
    rewrite str_no_negativo by lia. apply solo_digitos_digitos.
  - apply solo_digitos_sin_espacios.
    rewrite str_no_negativo by assumption. apply solo_digitos_digitos.
Qed.

Lemma digito_no_es_c c : Texto.es_digito c = true -> Texto.minuscula c <> "c"%char.
Proof.
  destruct c as [[] [] [] [] [] [] [] []]; cbn; intros H; discriminate.
Qed.

(** A number printed is not the letter that cancels. *)
Lemma str_no_cancela n : String.eqb (Texto.lower (Texto.str n)) "c" = false.
Proof.
  apply String.eqb_neq.
  destruct (Z.ltb_spec n 0) as [H | H].
  - rewrite str_negativo by assumption. discriminate.
  - rewrite str_no_negativo by assumption.
    pose proof (solo_digitos_digitos (S (Z.to_nat (Z.log2 n))) n) as D.
    pose proof (digitos_no_vacio (Z.to_nat (Z.log2 n)) n) as N.
    destruct (Texto.digitos _ n) as [| c s]; [congruence |].
    cbn [solo_digitos] in D. apply andb_true_iff in D. destruct D as [D _].
    cbn [Texto.lower]. intros [= E _]. now apply digito_no_es_c in E.
Qed.

(** X23.  The key [registrar_cliente] prints for the new client, typed as
    printed at the first prompt of [registrar_reservacion] on the file it
    left, is accepted at once: the loop for the client ends with that key
    and nothing but the table of clients is printed. *)
Theorem X23_clave_de_cliente_aceptada (b : base) (es : list entrada) (k : Z)
    (e : entrada) (r : list entrada) :
  estado (registrar_cliente b es) = Termina ->
  last (salida (registrar_cliente b es)) NombreVacio = ClienteRegistrado k ->
  Texto.strip (linea e) = Texto.str k ->
  listar_clientes (final (registrar_cliente b es)) <> []
  /\ pedir_cliente (final (registrar_cliente b es))
       (listar_clientes (final (registrar_cliente b es))) (e :: r)
     = Sigue (k, hoy e) r (mostrar_clientes (final (registrar_cliente b es))).
Proof.
  unfold registrar_cliente.
  destruct (ligar _ _ es) as [[n a] r0 d | f d] eqn:E.
  - cbn [insertar_cliente estado final salida]. intros _ L Hs.
    rewrite last_last in L. injection L as <-.
    set (k := nueva_clave (seq_clientes b) (map c_id (clientes b))) in *.
    set (b' := mkbase _ _ _ _ _ _).
    assert (Hin : In (mkcliente k n a) (listar_clientes b')).
    { unfold listar_clientes, seleccionar_clientes. apply ordenar_In.
      cbn [b' clientes]. apply in_or_app. right. now left. }
    split; [intros E0; rewrite E0 in Hin; destruct Hin |].
    cbn [pedir_cliente]. rewrite Hs, str_no_cancela, int_str.
    replace (existsb _ _) with true.
    + cbn [decir]. now rewrite app_nil_r.
    + symmetry. apply existsb_exists. exists (mkcliente k n a).
      split; [exact Hin | apply Z.eqb_refl].
  - cbn [estado]. intros ->.
    apply ligar_Corta in E.
    destruct E as [E | (n' & r1 & d1 & d2 & _ & E & _)];
      [now apply pedir_no_vacio_Corta in E |].
    apply ligar_Corta in E.
    destruct E as [E | (a' & r2 & d3 & d4 & _ & E & _)];
      [now apply pedir_no_vacio_Corta in E | discriminate].
Qed.

(** X14.  On a file the program wrote, the room [registrar_sala] has just
    added is returned by [salas_disponibles_para_fecha] for every date,
    under the key that was printed and with the three shifts. *)
Theorem X14_sala_nueva_disponible (b : base) (es : list entrada) (k : Z)
    (d : Fecha.date) :
  alcanzable b ->
  estado (registrar_sala b es) = Termina ->
  last (salida (registrar_sala b es)) NombreVacio = SalaRegistrada k ->
  exists n cupo,
    In (mkdisponible k n cupo TURNOS)
      (salas_disponibles_para_fecha (final (registrar_sala b es)) d).
Proof.
  intros A. apply alcanzable_integra in A.
  unfold registrar_sala.
  destruct (ligar _ _ es) as [[n cupo] r0 d0 | f d0] eqn:E.
  - unfold insertar_sala. destruct (_ && _); [| discriminate].
    cbn [estado final salida]. intros _ L.
    rewrite last_last in L. injection L as <-.
    set (k := nueva_clave (seq_salas b) (map s_id (salas b))) in *.
    set (b' := mkbase _ _ _ _ _ _).
    assert (T : turnos_libres b' k d = TURNOS).
    { unfold turnos_libres.
      assert (H : forall t,
                contar_reservaciones b' k (Fecha.strftime d) t = 0).
      { intros t. unfold contar_reservaciones. rewrite filter_nada;
          [reflexivity |].
        intros x Hx. cbn [b' reservaciones] in Hx. unfold misma_terna.
        replace (sala_id x =? k) with false; [reflexivity |].
        symmetry. apply Z.eqb_neq. intros Ek.
        destruct (int_referencias b A x Hx) as [_ Hs]. rewrite Ek in Hs.
        now apply (nueva_clave_fuera (seq_salas b) (map s_id (salas b))). }
      cbn [TURNOS filter]. now rewrite !H. }
    exists n, cupo. apply salas_disponibles_In.
    exists (mksala k n cupo). cbn [s_id s_nombre s_cupo]. rewrite T.
    split; [| split; [discriminate | reflexivity]].
    cbn [b' salas]. apply in_or_app. right. now left.
  - cbn [estado]. intros ->.
    apply ligar_Corta in E.
    destruct E as [E | (n' & r1 & d1 & d2 & _ & E & _)];
      [now apply pedir_no_vacio_Corta in E |].
    apply ligar_Corta in E.
    destruct E as [E | (a' & r2 & d3 & d4 & _ & E & _)];
      [now apply pedir_cupo_Corta in E | discriminate].
Qed.

End ClavesDeVuelta.

Section ClavesTestigos.
Import Base Consola Reservas Estado Ejemplo Propiedades.

(** X7 on the example: a second room in [b_inicial] with a capacity of
    2^63; the INSERT raises and the file is as it was. *)
Lemma X7_testigo :
  lineas_llanas [teclea "Hall B"; teclea "9223372036854775808"] = true
  /\ registrar_sala b_inicial [teclea "Hall B"; teclea "9223372036854775808"]
     = mkresultado b_inicial [] Excepcion
  /\ registrar_sala b_inicial [teclea "Hall B"; teclea "9223372036854775807"]
     = mkresultado
         (mkbase (clientes b_inicial)
            (salas b_inicial ++ [mksala 2 "Hall B" 9223372036854775807])
            [] 1 2 0)
         [SalaRegistrada 2] Termina
  /\ ((estado (registrar_sala b_inicial
                 [teclea "Hall B"; teclea "9223372036854775808"]) = Espera
       /\ final (registrar_sala b_inicial
                   [teclea "Hall B"; teclea "9223372036854775808"])
          = b_inicial)
      \/ (estado (registrar_sala b_inicial
                    [teclea "Hall B"; teclea "9223372036854775808"])
          = Termina
          /\ exists k n cupo e1 e2,
               In e1 [teclea "Hall B"; teclea "9223372036854775808"]
               /\ n = Texto.strip (linea e1) /\ n <> EmptyString
               /\ In e2 [teclea "Hall B"; teclea "9223372036854775808"]
               /\ Texto.int (Texto.strip (linea e2)) = Some cupo
               /\ 0 < cupo <= MAX_INTEGER
               /\ salas (final (registrar_sala b_inicial
                                  [teclea "Hall B";
                                   teclea "9223372036854775808"]))
                  = (salas b_inicial ++ [mksala k n cupo])%list
               /\ (forall s, In s (salas b_inicial) -> s_id s < k)
               /\ seq_salas b_inicial < k
               /\ clientes (final (registrar_sala b_inicial
                                     [teclea "Hall B";
                                      teclea "9223372036854775808"]))
                  = clientes b_inicial
               /\ reservaciones (final (registrar_sala b_inicial
                                          [teclea "Hall B";
                                           teclea "9223372036854775808"]))
                  = reservaciones b_inicial
               /\ last (salida (registrar_sala b_inicial
                                  [teclea "Hall B";
                                   teclea "9223372036854775808"]))
                    NombreVacio
                  = SalaRegistrada k)
      \/ (estado (registrar_sala b_inicial
                    [teclea "Hall B"; teclea "9223372036854775808"])
          = Excepcion
          /\ final (registrar_sala b_inicial
                      [teclea "Hall B"; teclea "9223372036854775808"])
             = b_inicial
          /\ (forall k,
                ~ In (SalaRegistrada k)
                    (salida (registrar_sala b_inicial
                               [teclea "Hall B";
                                teclea "9223372036854775808"])))
          /\ exists e2 cupo,
               In e2 [teclea "Hall B"; teclea "9223372036854775808"]
               /\ Texto.int (Texto.strip (linea e2)) = Some cupo
               /\ MAX_INTEGER < cupo)).
Proof.
  assert (H : lineas_llanas [teclea "Hall B"; teclea "9223372036854775808"]
              = true) by (vm_compute; reflexivity).
  split; [exact H |].
  split; [vm_compute; reflexivity |].
  split; [vm_compute; reflexivity |].
  exact (X7_registrar_sala b_inicial _ H).
Defined.

(** X23 on the example: a second client, and the key 2 typed back. *)
Lemma X23_testigo :
  last (salida (registrar_cliente b_una [teclea "John"; teclea "Roe"]))
    NombreVacio = ClienteRegistrado 2
  /\ pedir_cliente
       (final (registrar_cliente b_una [teclea "John"; teclea "Roe"]))
       (listar_clientes
          (final (registrar_cliente b_una [teclea "John"; teclea "Roe"])))
       [teclea " 2 "]
     = Sigue (2, miercoles_4) []
         (mostrar_clientes
            (final (registrar_cliente b_una [teclea "John"; teclea "Roe"]))).
Proof.
  assert (H1 : estado (registrar_cliente b_una [teclea "John"; teclea "Roe"])
               = Termina) by (vm_compute; reflexivity).
  assert (H2 : last (salida (registrar_cliente b_una
                               [teclea "John"; teclea "Roe"])) NombreVacio
               = ClienteRegistrado 2) by (vm_compute; reflexivity).
  assert (H3 : Texto.strip (linea (teclea " 2 ")) = Texto.str 2)
    by (vm_compute; reflexivity).
  split; [exact H2 |].
  exact (proj2 (X23_clave_de_cliente_aceptada b_una _ 2 (teclea " 2 ") []
                  H1 H2 H3)).
Defined.

(** X14 on the example: a second room in [b_dos], on Monday the 9th, when
    the first room has two shifts taken. *)
Lemma X14_testigo :
  last (salida (registrar_sala b_dos [teclea "Hall B"; teclea "25"]))
    NombreVacio = SalaRegistrada 2
  /\ exists n cupo,
       In (mkdisponible 2 n cupo TURNOS)
         (salas_disponibles_para_fecha
            (final (registrar_sala b_dos [teclea "Hall B"; teclea "25"]))
            (Fecha.mkdate 2026 11 9)).
Proof.
  assert (H1 : estado (registrar_sala b_dos [teclea "Hall B"; teclea "25"])
               = Termina) by (vm_compute; reflexivity).
  assert (H2 : last (salida (registrar_sala b_dos
                               [teclea "Hall B"; teclea "25"])) NombreVacio
               = SalaRegistrada 2) by (vm_compute; reflexivity).
  split; [exact H2 |].
  exact (X14_sala_nueva_disponible b_dos _ 2 (Fecha.mkdate 2026 11 9)
           alcanzable_b_dos H1 H2).
Defined.

End ClavesTestigos.

(** * The lines [editar_nombre_evento] reads *)

Section LineasDeEdicion.
Import Base Consola Reservas Estado Propiedades.

Lemma pedir_desde_lineas es desde r d :
  pedir_desde es = Sigue desde r d ->
  exists malas e,
    es = (malas ++ e :: r)%list
    /\ Forall sin_fecha malas
    /\ parsear_fecha (Texto.strip (linea e)) = Some desde.
Proof.
  revert d. induction es as [| x es IH]; intros d; cbn [pedir_desde];
    [discriminate |].
  destruct (parsear_fecha (Texto.strip (linea x))) as [h |] eqn:E.
  - intros [= <- <- _]. exists [], x. cbn. auto.
  - intros H. apply decir_Sigue in H. destruct H as (d' & H & _).
    destruct (IH _ H) as (malas & e & -> & F & P).
    exists (x :: malas), e. cbn. repeat split; auto.
Qed.

Lemma pedir_desde_lee malas e r desde :
  Forall sin_fecha malas ->
  parsear_fecha (Texto.strip (linea e)) = Some desde ->
  exists d, pedir_desde (malas ++ e :: r) = Sigue desde r d.
Proof.
  intros F P. induction F as [| x malas Hx F IH]; cbn [app pedir_desde].
  - rewrite P. eauto.
  - unfold sin_fecha in Hx. rewrite Hx. destruct IH as (d & ->).
    cbn [decir]. eauto.
Qed.

Lemma pedir_hasta_lineas desde es hasta r d :
  pedir_hasta desde es = Sigue hasta r d ->
  exists malas e,
    es = (malas ++ e :: r)%list
    /\ Forall (no_es_hasta desde) malas
    /\ parsear_fecha (Texto.strip (linea e)) = Some hasta
    /\ Fecha.leb desde hasta = true.
Proof.
  revert d. induction es as [| x es IH]; intros d; cbn [pedir_hasta];
    [discriminate |].
  destruct (parsear_fecha (Texto.strip (linea x))) as [h |] eqn:E.
  - destruct (Fecha.leb desde h) eqn:L.
    + intros [= <- <- _]. exists [], x. cbn. auto.
    + intros H. apply decir_Sigue in H. destruct H as (d' & H & _).
      destruct (IH _ H) as (malas & e & -> & F & P).
      exists (x :: malas), e. cbn. repeat split; try tauto.
      constructor; [| tauto]. unfold no_es_hasta. now rewrite E.
  - intros H. apply decir_Sigue in H. destruct H as (d' & H & _).
    destruct (IH _ H) as (malas & e & -> & F & P).
    exists (x :: malas), e. cbn. repeat split; try tauto.
    constructor; [| tauto]. unfold no_es_hasta. now rewrite E.
Qed.

Lemma pedir_hasta_lee desde malas e r hasta :
  Forall (no_es_hasta desde) malas ->
  parsear_fecha (Texto.strip (linea e)) = Some hasta ->
  Fecha.leb desde hasta = true ->
  exists d, pedir_hasta desde (malas ++ e :: r) = Sigue hasta r d.
Proof.
  intros F P L. induction F as [| x malas Hx F IH]; cbn [app pedir_hasta].
  - rewrite P, L. eauto.
  - unfold no_es_hasta in Hx. destruct IH as (d & ->).
    destruct (parsear_fecha (Texto.strip (linea x))) as [h |];
      [rewrite Hx |]; cbn [decir]; eauto.
Qed.

Lemma pedir_evento_lineas rows es k r d :
  pedir_evento rows es = Sigue k r d ->
  exists malas e,
    es = (malas ++ e :: r)%list
    /\ Forall (clave_rechazada rows) malas
    /\ String.eqb (Texto.lower (Texto.strip (linea e))) "c" = false
    /\ Texto.int (Texto.strip (linea e)) = Some k
    /\ existsb (fun x => r_id x =? k) rows = true.
Proof.
  revert d. induction es as [| x es IH]; intros d; cbn [pedir_evento];
    [discriminate |].
  destruct (String.eqb _ "c") eqn:C; [discriminate |].
  destruct (Texto.int (Texto.strip (linea x))) as [j |] eqn:E.
  - destruct (existsb (fun x0 => r_id x0 =? j) rows) eqn:X.
    + intros [= <- <- _]. exists [], x. cbn. auto.
    + intros H. apply decir_Sigue in H. destruct H as (d' & H & _).
      destruct (IH _ H) as (malas & e & -> & F & P).
      exists (x :: malas), e. cbn. repeat split; try tauto.
      constructor; [| tauto]. unfold clave_rechazada. now rewrite C, E.
  - intros H. apply decir_Sigue in H. destruct H as (d' & H & _).
    destruct (IH _ H) as (malas & e & -> & F & P).
    exists (x :: malas), e. cbn. repeat split; try tauto.
    constructor; [| tauto]. unfold clave_rechazada. now rewrite C, E.
Qed.

Lemma pedir_evento_lee rows malas e r k :
  Forall (clave_rechazada rows) malas ->
  String.eqb (Texto.lower (Texto.strip (linea e))) "c" = false ->
  Texto.int (Texto.strip (linea e)) = Some k ->
  existsb (fun x => r_id x =? k) rows = true ->
  exists d, pedir_evento rows (malas ++ e :: r) = Sigue k r d.
Proof.
  intros F C P X. induction F as [| x malas Hx F IH]; cbn [app pedir_evento].
  - rewrite C, P, X. eauto.
  - destruct Hx as [Cx Hx]. rewrite Cx. destruct IH as (d & ->).
    destruct (Texto.int (Texto.strip (linea x))) as [j |];
      [rewrite Hx |]; cbn [decir]; eauto.
Qed.

Lemma pedir_no_vacio_lineas queja es t r d :
  pedir_no_vacio queja es = Sigue t r d ->
  exists blancas e,
    es = (blancas ++ e :: r)%list
    /\ Forall en_blanco blancas
    /\ Texto.strip (linea e) = t /\ t <> EmptyString.
Proof.
  revert d. induction es as [| x es IH]; intros d; cbn [pedir_no_vacio];
    [discriminate |].
  destruct (Texto.strip (linea x)) as [| c s] eqn:E.
  - intros H. apply decir_Sigue in H. destruct H as (d' & H & _).
    destruct (IH _ H) as (bl & e & -> & F & P).
    exists (x :: bl), e. cbn. repeat split; try tauto.
    constructor; [exact E | tauto].
  - intros [= <- <- _]. exists [], x. cbn. repeat split; auto. discriminate.
Qed.

Lemma pedir_no_vacio_espera queja blancas :
  Forall en_blanco blancas ->
  exists d, pedir_no_vacio queja blancas = Corta Espera d.
Proof.
  intros F. induction F as [| x bl Hx F IH]; cbn [pedir_no_vacio]; [eauto |].
  unfold en_blanco in Hx. rewrite Hx. destruct IH as (d & ->).
  cbn [decir]. eauto.
Qed.

(** The lines a run of [editar_nombre_evento] that comes to the UPDATE has
    read: each loop turned down the lines before the one it took. *)
Lemma pedir_edicion_lineas b es k ev r d :
  pedir_edicion b es = Sigue (k, ev) r d ->
  exists m1 e1 m2 e2 m3 ek bl en desde hasta,
    es = (m1 ++ e1 :: m2 ++ e2 :: m3 ++ ek :: bl ++ en :: r)%list
    /\ Forall sin_fecha m1
    /\ parsear_fecha (Texto.strip (linea e1)) = Some desde
    /\ Forall (no_es_hasta desde) m2
    /\ parsear_fecha (Texto.strip (linea e2)) = Some hasta
    /\ Fecha.leb desde hasta = true
    /\ Forall (clave_rechazada (eventos_en_rango b desde hasta)) m3
    /\ String.eqb (Texto.lower (Texto.strip (linea ek))) "c" = false
    /\ Texto.int (Texto.strip (linea ek)) = Some k
    /\ existsb (fun x => r_id x =? k) (eventos_en_rango b desde hasta) = true
    /\ Forall en_blanco bl
    /\ Texto.strip (linea en) = ev /\ ev <> EmptyString.
Proof.
  unfold pedir_edicion. intros H.
  apply ligar_Sigue in H. destruct H as ([] & r0 & d0 & d0' & H0 & H & _).
  unfold imprimir in H0. injection H0 as <- _.
  apply ligar_Sigue in H. destruct H as (desde & r1 & d1 & d1' & H1 & H & _).
  apply ligar_Sigue in H. destruct H as (hasta & r2 & d2 & d2' & H2 & H & _).
  destruct (eventos_en_rango b desde hasta) as [| x rows] eqn:E;
    [discriminate |].
  apply ligar_Sigue in H. destruct H as ([] & r3 & d3 & d3' & H3 & H & _).
  unfold imprimir in H3. injection H3 as <- _.
  apply ligar_Sigue in H. destruct H as (k' & r4 & d4 & d4' & H4 & H & _).
  apply ligar_Sigue in H. destruct H as (ev' & r5 & d5 & d5' & H5 & H & _).
  unfold ret in H. injection H as <- <- <- _.
  apply pedir_desde_lineas in H1. destruct H1 as (m1 & e1 & -> & F1 & P1).
  apply pedir_hasta_lineas in H2. destruct H2 as (m2 & e2 & -> & F2 & P2 & L).
  apply pedir_evento_lineas in H4.
  destruct H4 as (m3 & ek & -> & F3 & C & P3 & X).
  apply pedir_no_vacio_lineas in H5. destruct H5 as (bl & en & -> & F4 & P4 & N).
  exists m1, e1, m2, e2, m3, ek, bl, en, desde, hasta.
  rewrite E. repeat split; auto.
Qed.

(** Before the line with the name is typed the function waits. *)
Lemma pedir_edicion_espera b m1 e1 m2 e2 m3 ek bl desde hasta k :
  Forall sin_fecha m1 ->
  parsear_fecha (Texto.strip (linea e1)) = Some desde ->
  Forall (no_es_hasta desde) m2 ->
  parsear_fecha (Texto.strip (linea e2)) = Some hasta ->
  Fecha.leb desde hasta = true ->
  Forall (clave_rechazada (eventos_en_rango b desde hasta)) m3 ->
  String.eqb (Texto.lower (Texto.strip (linea ek))) "c" = false ->
  Texto.int (Texto.strip (linea ek)) = Some k ->
  existsb (fun x => r_id x =? k) (eventos_en_rango b desde hasta) = true ->
  Forall en_blanco bl ->
  exists d,
    pedir_edicion b (m1 ++ e1 :: m2 ++ e2 :: m3 ++ ek :: bl)%list
    = Corta Espera d.
Proof.
  intros F1 P1 F2 P2 L F3 C P3 X F4.
  destruct (pedir_desde_lee m1 e1 (m2 ++ e2 :: m3 ++ ek :: bl)%list desde F1 P1)
    as (d1 & H1).
  destruct (pedir_hasta_lee desde m2 e2 (m3 ++ ek :: bl)%list hasta F2 P2 L)
    as (d2 & H2).
  destruct (pedir_no_vacio_espera EventoVacio bl F4) as (d4 & H4).
  unfold pedir_edicion, ligar, imprimir. rewrite H1. cbn [decir].
  rewrite H2.
  remember (eventos_en_rango b desde hasta) as filas eqn:E.
  destruct filas as [| x rows]; [discriminate |].
  destruct (pedir_evento_lee _ m3 ek bl k F3 C P3 X) as (d3 & H3).
  rewrite H3, H4. cbn [decir]. eauto.
Qed.

End LineasDeEdicion.

(** * What [editar_nombre_evento] changes *)

Section EdicionPorLineas.
Import Base Consola Reservas Estado Propiedades.

Lemma antes_de_la_clave {X : Type} (m1 m2 m3 cola : list X) e1 e2 :
  ((m1 ++ e1 :: m2 ++ e2 :: m3) ++ cola
   = m1 ++ e1 :: m2 ++ e2 :: m3 ++ cola)%list.
Proof. repeat (rewrite <- app_assoc; cbn [app]). reflexivity. Qed.

(** C10.  When [editar_nombre_evento] reports the change, the lines typed
    end, up to lines that were not read, with a line that holds a key
    [k], blank lines and a line whose stripped text [ev] is not empty;
    the function was still waiting before that last line.  The tables of
    clients and rooms and the counters are what they were, and the table
    of reservations is the one before with [ev] as the name of the event
    in the rows of key [k]: the rows are at the same places, each with its
    key, folio, client, room, date and shift, and a row with another key
    is unchanged. *)
Theorem C10_editar_solo_nombre (b : base) (es : list entrada) :
  In NombreActualizado (salida (editar_nombre_evento b es)) ->
  exists antes ek blancas en resto k ev,
    es = (antes ++ ek :: blancas ++ en :: resto)%list
    /\ Texto.int (Texto.strip (linea ek)) = Some k
    /\ Forall en_blanco blancas
    /\ Texto.strip (linea en) = ev /\ ev <> EmptyString
    /\ estado (editar_nombre_evento b (antes ++ ek :: blancas)) = Espera
    /\ let b' := final (editar_nombre_evento b es) in
       clientes b' = clientes b /\ salas b' = salas b
       /\ seq_clientes b' = seq_clientes b /\ seq_salas b' = seq_salas b
       /\ seq_reservaciones b' = seq_reservaciones b
       /\ In k (map r_id (reservaciones b))
       /\ reservaciones b'
          = map (fun r => if r_id r =? k then con_nombre_evento ev r else r)
              (reservaciones b)
       /\ forall i r,
            nth_error (reservaciones b) i = Some r ->
            exists r',
              nth_error (reservaciones b') i = Some r'
              /\ r_id r' = r_id r /\ folio r' = folio r
              /\ cliente_id r' = cliente_id r /\ sala_id r' = sala_id r
              /\ fecha r' = fecha r /\ turno r' = turno r
              /\ (r_id r <> k -> r' = r)
              /\ (r_id r = k -> nombre_evento r' = ev).
Proof.
  intros Hin.
  destruct (pedir_edicion b es) as [[k ev] r d | f d] eqn:E.
  2:{ exfalso. apply (pedir_edicion_calla b es). rewrite E.
      unfold editar_nombre_evento in Hin. now rewrite E in Hin. }
  pose proof (pedir_edicion_Sigue _ _ _ _ _ _ E) as Hk.
  destruct (pedir_edicion_lineas _ _ _ _ _ _ E)
    as (m1 & e1 & m2 & e2 & m3 & ek & bl & en & desde & hasta
        & Hes & F1 & P1 & F2 & P2 & L & F3 & C & P3 & X & F4 & P4 & N).
  exists (m1 ++ e1 :: m2 ++ e2 :: m3)%list, ek, bl, en, r, k, ev.
  split; [rewrite antes_de_la_clave; exact Hes |].
  split; [exact P3 |]. split; [exact F4 |]. split; [exact P4 |].
  split; [exact N |]. split.
  { rewrite antes_de_la_clave.
    destruct (pedir_edicion_espera b m1 e1 m2 e2 m3 ek bl desde hasta k
                F1 P1 F2 P2 L F3 C P3 X F4) as (d' & H).
    unfold editar_nombre_evento. now rewrite H. }
  cbv zeta. unfold editar_nombre_evento. rewrite E. cbn [final].
  unfold actualizar_nombre_evento.
  cbn [clientes salas reservaciones seq_clientes seq_salas seq_reservaciones].
  repeat (split; [reflexivity |]).
  split; [exact Hk |]. split; [reflexivity |].
  intros i r0 Hi. eexists.
  split; [apply nth_error_donde_id; exact Hi |].
  unfold con_nombre_evento.
  destruct (r_id r0 =? k) eqn:Ek; cbn; repeat split; auto.
  - apply Z.eqb_eq in Ek. contradiction.
  - apply Z.eqb_neq in Ek. contradiction.
Qed.

(** X12.  [editar_nombre_evento] ends in one of two ways.  Either the file
    is as it was and the change is not reported.  Or the change is
    reported last and the lines typed begin with lines that are not
    dates, a first date, lines that are not dates or are dates before the
    first, and a second date not before the first; the new name is not
    empty, and the row renamed is a reservation of the file whose date, as
    a text, lies between the texts of those two dates. *)
Theorem X12_editar_casos (b : base) (es : list entrada) :
  (final (editar_nombre_evento b es) = b
   /\ ~ In NombreActualizado (salida (editar_nombre_evento b es)))
  \/ exists m1 e1 m2 e2 resto desde hasta k ev fila,
       es = (m1 ++ e1 :: m2 ++ e2 :: resto)%list
       /\ Forall sin_fecha m1
       /\ parsear_fecha (Texto.strip (linea e1)) = Some desde
       /\ Forall (no_es_hasta desde) m2
       /\ parsear_fecha (Texto.strip (linea e2)) = Some hasta
       /\ Fecha.leb desde hasta = true
       /\ final (editar_nombre_evento b es) = actualizar_nombre_evento b ev k
       /\ estado (editar_nombre_evento b es) = Termina
       /\ last (salida (editar_nombre_evento b es)) PideRango
          = NombreActualizado
       /\ ev <> EmptyString
       /\ In fila (reservaciones b) /\ r_id fila = k
       /\ String.leb (Fecha.strftime desde) (fecha fila) = true
       /\ String.leb (fecha fila) (Fecha.strftime hasta) = true.
Proof.
  unfold editar_nombre_evento.
  destruct (pedir_edicion b es) as [[k ev] r d | f d] eqn:E;
    cbn [final salida estado].
  - right.
    destruct (pedir_edicion_lineas _ _ _ _ _ _ E)
      as (m1 & e1 & m2 & e2 & m3 & ek & bl & en & desde & hasta
          & Hes & F1 & P1 & F2 & P2 & L & F3 & C & P3 & X & F4 & P4 & N).
    apply existsb_exists in X. destruct X as (fila & Hf & Ek).
    apply Z.eqb_eq in Ek.
    unfold eventos_en_rango, seleccionar_rango in Hf.
    rewrite ordenar_In, filter_In, andb_true_iff in Hf.
    destruct Hf as (Hf & H1 & H2).
    exists m1, e1, m2, e2, (m3 ++ ek :: bl ++ en :: r)%list, desde, hasta,
      k, ev, fila.
    repeat split; auto. apply last_last.
  - left. split; [reflexivity |].
    pose proof (pedir_edicion_calla b es) as H. now rewrite E in H.
Qed.

End EdicionPorLineas.

Section EdicionTestigos.
Import Base Consola Reservas Estado Ejemplo Propiedades.

(** C10 on the example: the dinner of Monday the 9th becomes a gala, and
    the workshop of that day keeps its name. *)
Lemma C10_testigo :
  In NombreActualizado
    (salida (editar_nombre_evento b_dos
               [teclea "11-01-2026"; teclea "11-30-2026"; teclea "2";
                teclea "Gala"]))
  /\ map (fun r => (r_id r, nombre_evento r)) (reservaciones b_dos)
     = [(1, "Taller"); (2, "Cena")]
  /\ map (fun r => (r_id r, nombre_evento r))
       (reservaciones
          (final (editar_nombre_evento b_dos
                    [teclea "11-01-2026"; teclea "11-30-2026"; teclea "2";
                     teclea "Gala"])))
     = [(1, "Taller"); (2, "Gala")]
  /\ exists antes ek blancas en resto k ev,
       [teclea "11-01-2026"; teclea "11-30-2026"; teclea "2"; teclea "Gala"]
       = (antes ++ ek :: blancas ++ en :: resto)%list
       /\ Texto.int (Texto.strip (linea ek)) = Some k
       /\ Forall en_blanco blancas
       /\ Texto.strip (linea en) = ev /\ ev <> EmptyString
       /\ estado (editar_nombre_evento b_dos (antes ++ ek :: blancas))
          = Espera
       /\ let b' :=
            final (editar_nombre_evento b_dos
                     [teclea "11-01-2026"; teclea "11-30-2026"; teclea "2";
                      teclea "Gala"]) in
          clientes b' = clientes b_dos /\ salas b' = salas b_dos
          /\ seq_clientes b' = seq_clientes b_dos
          /\ seq_salas b' = seq_salas b_dos
          /\ seq_reservaciones b' = seq_reservaciones b_dos
          /\ In k (map r_id (reservaciones b_dos))
          /\ reservaciones b'
             = map (fun r => if r_id r =? k then con_nombre_evento ev r
                             else r)
                 (reservaciones b_dos)
          /\ forall i r,
               nth_error (reservaciones b_dos) i = Some r ->
               exists r',
                 nth_error (reservaciones b') i = Some r'
                 /\ r_id r' = r_id r /\ folio r' = folio r
                 /\ cliente_id r' = cliente_id r /\ sala_id r' = sala_id r
                 /\ fecha r' = fecha r /\ turno r' = turno r
                 /\ (r_id r <> k -> r' = r)
                 /\ (r_id r = k -> nombre_evento r' = ev).
Proof.
  assert (H : In NombreActualizado
                (salida (editar_nombre_evento b_dos
                           [teclea "11-01-2026"; teclea "11-30-2026";
                            teclea "2"; teclea "Gala"])))
    by (vm_compute; auto).
  split; [exact H |].
  split; [vm_compute; reflexivity |].
  split; [vm_compute; reflexivity |].
  exact (C10_editar_solo_nombre b_dos _ H).
Defined.

End EdicionTestigos.

(** * A second reservation of a room, date and shift *)

Section SegundaReserva.
Import Base Consola Reservas Estado Propiedades.

Lemma turno_tomado_rechazado ts e resto :
  ~ In (Texto.strip (linea e)) ts ->
  pedir_turno ts (e :: resto) = decir [TurnoInvalido] (pedir_turno ts resto).
Proof.
  intros H. cbn [pedir_turno].
  destruct (existsb (String.eqb (Texto.strip (linea e))) ts) eqn:E;
    [| reflexivity].
  exfalso. apply H. apply existsb_exists in E. destruct E as (t & Ht & E).
  apply String.eqb_eq in E. now subst.
Qed.

(** C1, as the code has it.  On a file the program wrote that holds a
    reservation [r]: whatever is typed to [registrar_reservacion], the
    conflict is never reported and afterwards [r] is still the one
    reservation of its room, date and shift; at the prompt for the shift
    of that room and date, the shift of [r] is answered as not valid and
    the shift is asked again.  The conflict is reported by the insertion
    alone: on any file that meets the schema and holds [r], be it another
    than the one the shifts were listed from, the insertion for the room,
    date and shift of [r] reports it, whatever the client and the name of
    the event, and leaves that file as it was. *)
Theorem C1_segunda_reserva_rechazada (b : base) (r : reservacion) :
  alcanzable b -> In r (reservaciones b) ->
  (forall es,
      ~ In ErrorSalaReservada (salida (registrar_reservacion b es))
      /\ filter (misma_terna (sala_id r) (fecha r) (turno r))
           (reservaciones (final (registrar_reservacion b es)))
         = [r])
  /\ (forall d e resto,
        fecha r = Fecha.strftime d ->
        Texto.strip (linea e) = turno r ->
        pedir_turno (turnos_libres b (sala_id r) d) (e :: resto)
        = decir [TurnoInvalido]
            (pedir_turno (turnos_libres b (sala_id r) d) resto))
  /\ (forall b' cid ev,
        esquema b' -> In r (reservaciones b') ->
        guardar_reservacion b' cid (sala_id r) (fecha r) (turno r) ev
        = (b', [ErrorSalaReservada])
        /\ filter (misma_terna (sala_id r) (fecha r) (turno r))
             (reservaciones b')
           = [r]).
Proof.
  intros A Hr. pose proof (alcanzable_integra b A) as I.
  pose proof (integra_esquema b I) as Q.
  assert (U : forall b', esquema b' -> In r (reservaciones b') ->
                filter (misma_terna (sala_id r) (fecha r) (turno r))
                  (reservaciones b') = [r]).
  { intros b' Q' Hr'.
    apply (filter_unico terna); [apply (unique_terna b' Q') | assumption |].
    intros y. apply misma_terna_spec. }
  split; [| split].
  - intros es.
    destruct (registrar_reservacion_casos b es I)
      as [[Hf Hs] | (s & r0 & d & E & ->)].
    + split; [| rewrite Hf; now apply U].
      intros H. rewrite Forall_forall in Hs. apply Hs in H. discriminate.
    + cbn [salida final].
      pose proof (calla_pedir_solicitud b (listar_clientes b) es) as Hc.
      unfold calla in Hc. rewrite E in Hc. cbn [dicho_de] in Hc.
      rewrite Forall_forall in Hc. split.
      * intros H. apply in_app_or in H. destruct H as [H | [H | []]];
          [apply Hc in H |]; discriminate.
      * destruct (solicitud_referencias b es s r0 d E) as (_ & _ & _ & Hl).
        unfold con_reservacion. cbn [reservaciones].
        rewrite filter_app, (U b Q Hr). cbn [filter].
        destruct (misma_terna (sala_id r) (fecha r) (turno r) _) eqn:M;
          [| reflexivity].
        exfalso. apply misma_terna_spec in M. cbn [terna sala_id fecha turno] in M.
        injection M as M1 M2 M3.
        assert (X : existsb
                      (misma_terna (sol_sala s)
                         (Fecha.strftime (sol_fecha s)) (sol_turno s))
                      (reservaciones b) = true).
        { apply existsb_exists. exists r. split; [assumption |].
          apply misma_terna_spec. unfold terna. congruence. }
        congruence.
  - intros d e resto Hf Ht. apply turno_tomado_rechazado.
    rewrite Ht. now apply turno_tomado_no_ofrecido.
  - intros b' cid ev Q' Hr'. split; [| now apply U].
    unfold guardar_reservacion. now rewrite insertar_ocupado.
Qed.

End SegundaReserva.

(** * Sundays, to the end of the booking *)

Section DomingoAceptado.
Import Base Consola Reservas Estado Propiedades.






End DomingoAceptado.

Section SegundaTestigos.
Import Base Consola Reservas Estado Ejemplo Propiedades.

(** C1, as the specification words it, fails: [b_una] holds the workshop
    of Monday the 9th in the afternoon, and a second attempt at that room,
    date and shift is not answered with the conflict.  The shift is not
    among those offered, it is answered as not valid, and so is the line
    that follows; the function waits for a shift and the file is as it
    was. *)
Lemma C1_contraejemplo :
  reservaciones b_una = [r_taller]
  /\ registrar_reservacion b_una
       [teclea "1"; teclea "11-09-2026"; teclea "1"; teclea "Vespertino";
        teclea "Otro"]
     = mkresultado b_una
         [TablaClientes [(1, "Doe", "Jane")]; PideFecha "11-06-2026";
          TablaDisponibles [(1, "Hall A", 10, "Matutino, Nocturno")];
          TurnosDeSala "Matutino, Nocturno"; TurnoInvalido; TurnoInvalido]
         Espera.
Proof. split; vm_compute; reflexivity. Qed.

(** C1 on the example: the workshop of [b_una]. *)
Lemma C1_testigo :
  In r_taller (reservaciones b_una)
  /\ (~ In ErrorSalaReservada
          (salida (registrar_reservacion b_una
                     [teclea "1"; teclea "11-09-2026"; teclea "1";
                      teclea "Vespertino"; teclea "Otro"]))
      /\ filter (misma_terna 1 "11-09-2026" "Vespertino")
           (reservaciones
              (final (registrar_reservacion b_una
                        [teclea "1"; teclea "11-09-2026"; teclea "1";
                         teclea "Vespertino"; teclea "Otro"])))
         = [r_taller])
  /\ pedir_turno (turnos_libres b_una 1 (Fecha.mkdate 2026 11 9))
       [teclea "Vespertino"]
     = Corta Espera [TurnoInvalido]
  /\ guardar_reservacion b_una 7 1 "11-09-2026" "Vespertino" "Otro"
     = (b_una, [ErrorSalaReservada]).
Proof.
  assert (H : In r_taller (reservaciones b_una)) by (vm_compute; auto).
  assert (Q : esquema b_una)
    by (apply integra_esquema, alcanzable_integra, alcanzable_b_una).
  destruct (C1_segunda_reserva_rechazada b_una r_taller alcanzable_b_una H)
    as (P1 & P2 & P3).
  split; [exact H |].
  split; [exact (P1 _) |].
  split.
  - exact (P2 (Fecha.mkdate 2026 11 9) (teclea "Vespertino") []
             eq_refl eq_refl).
  - exact (proj1 (P3 b_una 7 "Otro" Q H)).
Defined.


(** C7, as the specification words it, fails when today is the day on
    which the date is typed: the client is chosen on Wednesday the 4th and
    Friday the 6th is typed on Thursday the 5th, of which it is the day
    after.  It is not answered as too soon, and it is booked. *)
Lemma C7_contraejemplo :
  nth_error sesion_medianoche 1 = Some (mkentrada jueves_5 "11-06-2026")
  /\ Fecha.sumar_dias 1 jueves_5 = Some viernes_6
  /\ parsear_fecha "11-06-2026" = Some viernes_6
  /\ existsb (fun x => match x with FechaMuyProxima => true | _ => false end)
       (salida (registrar_reservacion b_inicial sesion_medianoche))
     = false
  /\ reservaciones (final (registrar_reservacion b_inicial sesion_medianoche))
     = [mkreservacion 1 "R000001" 1 1 "11-06-2026" "Matutino" "Junta"].
Proof. repeat split; vm_compute; reflexivity. Qed.

End SegundaTestigos.
